(** * FolkloreRun: the progression core, embedded and checked against its specification

  The development embeds the parts of the game's JavaScript sources that
  hold its rules:

  - [Js]: the fragment of JavaScript values and operators the sources rely on
    (truthiness, [||], [??], property reads, thrown errors, the string
    methods of the runtime);
  - [FallbackData]: the embedded content of [src/fallbackData.js];
  - [DataLoader]: the loading pipeline of [utils/dataLoader.js];
  - [Engine]: the state hook [hooks/useGameEngine.js];
  - [Inventory] and [GameplayScreen]: the mechanic handlers of the two
    components of the same names;
  - [Spec] and [Content]: the specification's reading of the riddle rule,
    and the loaded repository as the engine reads it.

  Definitions come first, the statements about them after. *)

From Stdlib Require Import ZArith String Ascii List Lia Permutation.
From Stdlib Require Import Floats.PrimFloat.
From stdpp Require Import base option list strings gmap.

Set Warnings "-inexact-float,-register-all".
Local Open Scope string_scope.

(** ** JavaScript values *)

Module Js.

(** A value as [JSON.parse] and object literals build them.  Numbers are
    binary64 floats, as in the language; an object is its list of own
    properties, read first match first. *)
Inductive value : Type :=
| VUndefined
| VNull
| VBool (b : bool)
| VNum (f : float)
| VStr (s : string)
| VArr (items : list value)
| VObj (fields : list (string * value)).

(** What a [throw] carries.  Every error raised on the paths modelled here is
    an [Error] object, so each has a [message]. *)
Inductive error : Type :=
| TypeError (message : string)
| SyntaxError (message : string)
| FetchError (message : string).

(** The completion of an expression, or the settlement of a promise. *)
Inductive completion (A : Type) : Type :=
| Normal (a : A)
| Throw (e : error).
Arguments Normal {A} a.
Arguments Throw {A} e.

#[global] Instance completion_ret : MRet completion := fun A a => Normal a.
#[global] Instance completion_bind : MBind completion := fun A B k m =>
  match m with
  | Normal a => k a
  | Throw e => Throw e
  end.

(** [try { body } catch (error) { handler }] *)
Definition try_catch {A} (body : completion A) (handler : error -> completion A)
  : completion A :=
  match body with
  | Normal a => Normal a
  | Throw e => handler e
  end.

(** ToBoolean: [undefined], [null], [false], [0], [-0], [NaN] and the empty
    string are falsy; everything else, every array and object included, is
    truthy. *)
Definition truthy (v : value) : bool :=
  match v with
  | VUndefined | VNull => false
  | VBool b => b
  | VNum f => negb (PrimFloat.eqb f 0) && PrimFloat.eqb f f
  | VStr s => negb (String.eqb s "")
  | VArr _ | VObj _ => true
  end.

(** [a || b] *)
Definition or_else (a b : value) : value := if truthy a then a else b.

(** [a ?? b] *)
Definition nullish (a b : value) : value :=
  match a with
  | VUndefined | VNull => b
  | _ => a
  end.

(** [typeof v === 'object'] *)
Definition typeof_object (v : value) : bool :=
  match v with
  | VNull | VArr _ | VObj _ => true
  | _ => false
  end.

(** [Array.isArray(v)] *)
Definition isArray (v : value) : bool :=
  match v with
  | VArr _ => true
  | _ => false
  end.

Fixpoint assoc (k : string) (fields : list (string * value)) : value :=
  match fields with
  | [] => VUndefined
  | (k', v) :: rest => if String.eqb k k' then v else assoc k rest
  end.

(** [v.k] on a value that is neither [undefined] nor [null].  The property
    names read by the sources ([creatures], [id], [name], [levels],
    [choices], ...) are own properties of objects only: on a string, a
    number, a boolean or an array they are not found on the value nor on its
    prototype, so the read gives [undefined]. *)
Definition prop (v : value) (k : string) : value :=
  match v with
  | VObj fields => assoc k fields
  | _ => VUndefined
  end.

(** [v.k], which throws a [TypeError] on [undefined] and [null]. *)
Definition get (v : value) (k : string) : completion value :=
  match v with
  | VUndefined | VNull =>
      Throw (TypeError ("Cannot read properties of undefined or null (reading '" ++ k ++ "')"))
  | _ => Normal (prop v k)
  end.

(** [v.map(f)]: the array method on an array, a [TypeError] on anything else
    ([undefined.map] cannot be read, and on other values [map] is not a
    function).  A throw of [f] leaves the loop. *)
Definition js_map (f : value -> completion value) (v : value) : completion value :=
  match v with
  | VArr items => items' ← mapM f items; mret (VArr items')
  | _ => Throw (TypeError "map is not a function")
  end.

(** [items.every(f)]: stops at the first element [f] rejects. *)
Fixpoint every (f : value -> completion bool) (items : list value) : completion bool :=
  match items with
  | [] => mret true
  | x :: rest => b ← f x; if (b : bool) then every f rest else mret false
  end.

(** Numbers held in the session's mechanic state: the sources only ever put
    integers there; [NaN] is what arithmetic on a missing field gives. *)
Inductive number : Type :=
| NaN
| Int (z : Z).

(** ToNumber of a field that may be absent: [undefined] becomes [NaN]. *)
Definition toNumber (field : option number) : number :=
  match field with
  | Some n => n
  | None => NaN
  end.

(** [n - d] for an integer literal [d] *)
Definition minus (n : number) (d : Z) : number :=
  match n with
  | Int z => Int (z - d)
  | NaN => NaN
  end.

(** [n + d] for an integer literal [d] *)
Definition plus (n : number) (d : Z) : number :=
  match n with
  | Int z => Int (z + d)
  | NaN => NaN
  end.

(** [Math.max(0, n)]: [NaN] if [n] is. *)
Definition Math_max0 (n : number) : number :=
  match n with
  | Int z => Int (Z.max 0 z)
  | NaN => NaN
  end.

(** [field || 0] on a numeric field: [undefined], [0] and [NaN] give [0]. *)
Definition or_zero (field : option number) : number :=
  match field with
  | Some (Int z) => Int z
  | Some NaN | None => Int 0
  end.

(** *** Strings

    A JavaScript string is read as a string of bytes through an encoding
    that is injective and leaves ASCII characters as they are (UTF-8, with
    a lone surrogate encoded like any code point), so that [===] on strings
    is equality.

    [String.prototype.trim] and [String.prototype.toLowerCase] belong to
    the runtime, not to this repository: which code points are white space
    and which have a lower case is fixed by ECMAScript and by the Unicode
    version of the engine.  The components are modelled over any pair of
    such functions, and what is proved of them holds whatever the two
    functions are. *)
Class StringMethods : Type := {
  trim : string -> string;
  toLowerCase : string -> string
}.

(** The two methods on strings of ASCII characters, where they do not
    depend on the engine: [trim] strips tab, line feed, vertical tab, form
    feed, carriage return and space from both ends, [toLowerCase] maps
    [A-Z] to [a-z].  Used to evaluate the components on ASCII inputs; bytes
    from 128 on are left as they are, which is not what the runtime does
    with the characters they encode. *)
Definition isAsciiWhiteSpace (c : ascii) : bool :=
  let n := nat_of_ascii c in
  ((9 <=? n)%nat && (n <=? 13)%nat) || (n =? 32)%nat.

Fixpoint asciiTrimStart (s : string) : string :=
  match s with
  | String c rest => if isAsciiWhiteSpace c then asciiTrimStart rest else s
  | EmptyString => EmptyString
  end.

Fixpoint asciiTrimEnd (s : string) : string :=
  match s with
  | String c rest =>
      match asciiTrimEnd rest with
      | EmptyString => if isAsciiWhiteSpace c then EmptyString else String c EmptyString
      | rest' => String c rest'
      end
  | EmptyString => EmptyString
  end.

Definition asciiTrim (s : string) : string := asciiTrimEnd (asciiTrimStart s).

Definition asciiLowerChar (c : ascii) : ascii :=
  let n := nat_of_ascii c in
  if ((65 <=? n)%nat && (n <=? 90)%nat) then ascii_of_nat (n + 32) else c.

Fixpoint asciiToLowerCase (s : string) : string :=
  match s with
  | String c rest => String (asciiLowerChar c) (asciiToLowerCase rest)
  | EmptyString => EmptyString
  end.

Definition asciiStrings : StringMethods :=
  {| trim := asciiTrim; toLowerCase := asciiToLowerCase |}.

(** [s.includes(t)] on strings *)
Fixpoint startsWith (t s : string) : bool :=
  match t, s with
  | EmptyString, _ => true
  | String a t', String b s' => Ascii.eqb a b && startsWith t' s'
  | String _ _, EmptyString => false
  end.

Fixpoint includes (t s : string) : bool :=
  startsWith t s ||
  match s with
  | String _ s' => includes t s'
  | EmptyString => false
  end.

End Js.

(** ** The embedded fallback content ([src/fallbackData.js]) *)

Module FallbackData.
Import Js.

Definition fallbackCreatureData : value :=
  VObj [
    ("creatures", VArr [
      VObj [
        ("id", VStr "baba-yaga");
        ("name", VStr "Baba Yaga");
        ("enrichedIntros", VArr [
          VStr "In a ring of birch, a hut breathes smoke and whispers. Chicken legs creak beneath warped wood. The witch waits, her mortar idle, her pestle gleaming. She offers riddles, not mercy.";
          VStr "The forest parts. A hut stands on chicken legs, scratching at the earth. Baba Yaga peers from the window, her grin crooked and knowing. 'Come closer, traveler. Let's see if you're clever.'";
          VStr "Bone-white birch trees circle the clearing. The hut spins slowly, its door facing you. Inside, the witch stirs her cauldron, humming riddles. Will you answer, or will you flee?"]);
        ("coreMechanic", VStr "riddle");
        ("levels", VArr [
          VObj [
            ("levelIndex", VNum 0);
            ("sceneText", VStr "The witch's eyes gleam like amber coals.");
            ("enrichedScene", VStr "Amber light spills from the window slats. Runes carved in bone dangle from the eaves, spinning slow. Baba Yaga leans forward, her grin sharp as winter. 'Answer me this, traveler.'");
            ("choices", VArr [
              VObj [
                ("text", VStr "Speak the answer with cleverness");
                ("isCorrect", VBool true);
                ("consequence", VStr "She nods, impressed. 'Clever tongue. Pass, then.'")];
              VObj [
                ("text", VStr "Demand she let you pass");
                ("isCorrect", VBool false);
                ("consequence", VStr "The hut turns away. The forest swallows you whole.")]]);
            ("riddleData", VObj [
              ("riddle", VStr "What walks on four legs at dawn, two at noon, and three at dusk?");
              ("hint", VStr "Think of life's stages, from cradle to grave.");
              ("answerKey", VStr "human")])];
          VObj [
            ("levelIndex", VNum 1);
            ("sceneText", VStr "The witch circles you, her pestle tapping the ground.");
            ("enrichedScene", VStr "Smoke curls from her pipe, thick and sweet. The hut's walls creak, listening. She taps her pestle once, twice. 'Another riddle, little mouse. Answer well.'");
            ("choices", VArr [
              VObj [
                ("text", VStr "Answer with wisdom");
                ("isCorrect", VBool true);
                ("consequence", VStr "Her cackle echoes. 'Wise indeed. Proceed.'")];
              VObj [
                ("text", VStr "Refuse to answer");
                ("isCorrect", VBool false);
                ("consequence", VStr "She waves her hand. You become a frog, forever croaking.")]]);
            ("riddleData", VObj [
              ("riddle", VStr "I have cities but no houses, forests but no trees, water but no fish. What am I?");
              ("hint", VStr "You hold me to find your way.");
              ("answerKey", VStr "map")])];
          VObj [
            ("levelIndex", VNum 2);
            ("sceneText", VStr "The witch offers one final test.");
            ("enrichedScene", VStr "The hut settles, its legs folding beneath. Baba Yaga's eyes soften, just a fraction. 'One last riddle, traveler. Answer true, and I grant you passage beyond the veil.'");
            ("choices", VArr [
              VObj [
                ("text", VStr "Solve the final riddle");
                ("isCorrect", VBool true);
                ("consequence", VStr "She smiles, a rare gift. 'Go, blessed one.'")];
              VObj [
                ("text", VStr "Guess wildly");
                ("isCorrect", VBool false);
                ("consequence", VStr "The hut's door slams shut. You are lost to the woods.")]]);
            ("riddleData", VObj [
              ("riddle", VStr "The more you take, the more you leave behind. What am I?");
              ("hint", VStr "Every journey makes them.");
              ("answerKey", VStr "footsteps")])]]);
        ("victoryTexts", VArr [
          VStr "The witch grants you passage. Her blessing burns warm in your chest, a gift of old magic.";
          VStr "Baba Yaga cackles with delight. 'Clever one! Go forth with my favor.' The forest opens before you, welcoming.";
          VStr "She nods, satisfied. 'You've earned your way, riddler.' Her magic settles on your shoulders like a cloak of stars."]);
        ("defeatTexts", VArr [
          VStr "The forest swallows your path. Baba Yaga's laughter echoes through the birch trees, fading into mist.";
          VStr "The hut turns its back. You stumble through endless woods, lost forever. The witch's cackle follows you into darkness.";
          VStr "She waves her pestle. The world tilts. You are something small now, scurrying through the underbrush, forgotten."])];
      VObj [
        ("id", VStr "banshee");
        ("name", VStr "Banshee");
        ("enrichedIntros", VArr [
          VStr "A keening cry splits the mist. She appears, pale as moonlight, her hair flowing like water. The Banshee mourns, and her sorrow drowns the living. Speak softly, or be lost to her wail.";
          VStr "The mist thickens. A voice rises, elegiac and ancient. She drifts toward you, translucent and grieving. The Banshee remembers all who are forgotten. Will you listen to her lament?";
          VStr "Cold wind carries her song. The Banshee materializes, eyes hollow with centuries of loss. Her sorrow is a tide that pulls the living under. Tread carefully, speak gently."]);
        ("coreMechanic", VStr "calmness");
        ("levels", VArr [
          VObj [
            ("levelIndex", VNum 0);
            ("sceneText", VStr "The Banshee's eyes are hollow, filled with ancient grief.");
            ("enrichedScene", VStr "Pale blue mist coils around her form. Her voice rises and falls like waves against stone. She reaches toward you, fingers trembling. 'Do you hear them? The voices of the lost?'");
            ("choices", VArr [
              VObj [
                ("text", VStr "Speak gently of remembrance");
                ("isCorrect", VBool true);
                ("consequence", VStr "Her wail softens. A tear falls, luminous and cold.")];
              VObj [
                ("text", VStr "Tell her to be silent");
                ("isCorrect", VBool false);
                ("consequence", VStr "Her scream shatters your mind. You fall, never to rise.")]])];
          VObj [
            ("levelIndex", VNum 1);
            ("sceneText", VStr "The Banshee drifts closer, her sorrow palpable.");
            ("enrichedScene", VStr "Echo-waves ripple from her form, each one carrying fragments of memory. She sings of loss, of names forgotten. The air grows cold. 'Will you remember me?' she whispers.");
            ("choices", VArr [
              VObj [
                ("text", VStr "Promise to remember her name");
                ("isCorrect", VBool true);
                ("consequence", VStr "She smiles, faint as starlight. 'Thank you, kind soul.'")];
              VObj [
                ("text", VStr "Turn away from her");
                ("isCorrect", VBool false);
                ("consequence", VStr "Her wail pierces your heart. You join the forgotten.")]])];
          VObj [
            ("levelIndex", VNum 2);
            ("sceneText", VStr "The Banshee's form begins to fade.");
            ("enrichedScene", VStr "The mist thins. Her voice grows distant, elegiac and soft. She looks at you with eyes like deep water. 'One last question, traveler. Will you carry my song?'");
            ("choices", VArr [
              VObj [
                ("text", VStr "Accept her song with reverence");
                ("isCorrect", VBool true);
                ("consequence", VStr "She fades, peaceful at last. Her song lives in you.")];
              VObj [
                ("text", VStr "Refuse her burden");
                ("isCorrect", VBool false);
                ("consequence", VStr "She screams, and the world goes dark. You are lost.")]])]]);
        ("victoryTexts", VArr [
          VStr "The Banshee fades into mist, her sorrow eased. You carry her song, a haunting melody of remembrance.";
          VStr "She smiles, a ghost of warmth. 'You have given me peace.' Her form dissolves, leaving only echoes of gratitude.";
          VStr "The wail softens to a lullaby. She fades, finally at rest. Her memory lives in you, gentle and eternal."]);
        ("defeatTexts", VArr [
          VStr "Her wail consumes you. You become another voice in her eternal chorus, lost to the mist forever.";
          VStr "The scream pierces your soul. You fall, joining the forgotten. The Banshee's sorrow claims another, endlessly mourning.";
          VStr "Her cry shatters you. The mist closes in. You are lost now, a name she will sing in her endless lament."])];
      VObj [
        ("id", VStr "aswang");
        ("name", VStr "Aswang");
        ("enrichedIntros", VArr [
          VStr "In the village, lanterns flicker and die. Something moves in the shadows, wearing a familiar face. The Aswang hunts, patient and hungry. Watch closely. Trust nothing.";
          VStr "Night falls on the village. Dogs bark warnings. A neighbor waves from the darkness, but their shadow falls wrong. The Aswang is here. Stay sharp, stay alive.";
          VStr "The village sleeps uneasily. Lantern flames gutter and die. Something prowls between the houses, wearing stolen skin. The Aswang is hunting. Will you survive until dawn?"]);
        ("coreMechanic", VStr "deduction");
        ("levels", VArr [
          VObj [
            ("levelIndex", VNum 0);
            ("sceneText", VStr "A neighbor approaches, smiling too wide.");
            ("enrichedScene", VStr "Red-tinted fog creeps through the village streets. Lantern light flickers, casting long shadows. The neighbor's eyes catch the light strangely. 'Come closer,' they say. 'I have something to show you.'");
            ("choices", VArr [
              VObj [
                ("text", VStr "Check for the telltale signs");
                ("isCorrect", VBool true);
                ("consequence", VStr "You spot the reversed reflection. It's not human.")];
              VObj [
                ("text", VStr "Trust the familiar face");
                ("isCorrect", VBool false);
                ("consequence", VStr "Too late, you see the truth. The Aswang feeds.")]])];
          VObj [
            ("levelIndex", VNum 1);
            ("sceneText", VStr "The creature circles, testing your awareness.");
            ("enrichedScene", VStr "Shadows twist and writhe. The Aswang wears many faces now, shifting between forms. Dogs howl in the distance. You must choose wisely, or become prey.");
            ("choices", VArr [
              VObj [
                ("text", VStr "Use salt and garlic to reveal it");
                ("isCorrect", VBool true);
                ("consequence", VStr "It recoils, hissing. You've found the truth.")];
              VObj [
                ("text", VStr "Follow it into the dark");
                ("isCorrect", VBool false);
                ("consequence", VStr "The darkness swallows you. You are never seen again.")]])];
          VObj [
            ("levelIndex", VNum 2);
            ("sceneText", VStr "The Aswang reveals its true form.");
            ("enrichedScene", VStr "The creature sheds its human skin. Leathery wings unfold. Its tongue extends, impossibly long. This is your final chance to survive the night. Choose with care.");
            ("choices", VArr [
              VObj [
                ("text", VStr "Strike with blessed weapons");
                ("isCorrect", VBool true);
                ("consequence", VStr "Your blade finds its mark. The creature flees, wounded.")];
              VObj [
                ("text", VStr "Try to reason with it");
                ("isCorrect", VBool false);
                ("consequence", VStr "It laughs, a terrible sound. You become its meal.")]])]]);
        ("victoryTexts", VArr [
          VStr "The Aswang flees into the night, wounded and wary. The village is safe, for now. You are a hunter.";
          VStr "Your blade strikes true. The creature shrieks and vanishes into darkness. Dawn breaks. The village is saved, and you stand victorious.";
          VStr "It recoils, hissing in pain. The Aswang retreats, defeated. The roosters crow. You've survived the night, a guardian of the village."]);
        ("defeatTexts", VArr [
          VStr "The Aswang's hunger is satisfied. The village mourns another loss, never knowing the truth of your fate.";
          VStr "Too slow. The creature's tongue wraps around you. Darkness. The village wakes to find you gone, another mystery unsolved.";
          VStr "You trusted the wrong face. The Aswang feeds. By morning, you're just another disappearance, whispered about in fearful tones."])]])].

Definition fallbackUIConfig : value :=
  VObj [
    ("creatures", VObj [
      ("baba-yaga", VObj [
        ("primaryColor", VStr "#FFB84D");
        ("secondaryColor", VStr "#FF8C42");
        ("fogColor", VStr "rgba(255, 184, 77, 0.3)");
        ("particleType", VStr "rune-glow");
        ("particleColor", VStr "#FFD700");
        ("animationSpeed", VNum 1.2);
        ("glowIntensity", VNum 0.8)]);
      ("banshee", VObj [
        ("primaryColor", VStr "#B8D4E8");
        ("secondaryColor", VStr "#7BA8C7");
        ("fogColor", VStr "rgba(184, 212, 232, 0.35)");
        ("particleType", VStr "echo-wave");
        ("particleColor", VStr "#E0F2FF");
        ("animationSpeed", VNum 0.9);
        ("glowIntensity", VNum 0.6)]);
      ("aswang", VObj [
        ("primaryColor", VStr "#D32F2F");
        ("secondaryColor", VStr "#8B0000");
        ("fogColor", VStr "rgba(211, 47, 47, 0.4)");
        ("particleType", VStr "flicker");
        ("particleColor", VStr "#FF6B6B");
        ("animationSpeed", VNum 1.5);
        ("glowIntensity", VNum 0.9)])]);
    ("gameStates", VObj [
      ("calm", VObj [
        ("fogDensity", VNum 0.3);
        ("particleCount", VNum 20);
        ("animationIntensity", VNum 0.5);
        ("screenTilt", VBool false);
        ("vignette", VBool false);
        ("distortion", VBool false)]);
      ("tense", VObj [
        ("fogDensity", VNum 0.55);
        ("particleCount", VNum 40);
        ("animationIntensity", VNum 0.8);
        ("screenTilt", VBool true);
        ("vignetteIntensity", VNum 0.3);
        ("vignette", VBool true);
        ("distortion", VBool false)]);
      ("critical", VObj [
        ("fogDensity", VNum 0.85);
        ("particleCount", VNum 60);
        ("animationIntensity", VNum 1.0);
        ("screenTilt", VBool true);
        ("vignetteIntensity", VNum 0.6);
        ("vignette", VBool true);
        ("distortion", VBool true);
        ("distortionAmount", VNum 0.02)])]);
    ("soundCues", VObj [
      ("choice-select", VObj [
        ("descriptor", VStr "soft-neon-chime");
        ("visualEffect", VStr "ripple");
        ("duration", VNum 300)]);
      ("correct-choice", VObj [
        ("descriptor", VStr "warm-glow-hum");
        ("visualEffect", VStr "pulse");
        ("duration", VNum 500)]);
      ("incorrect-choice", VObj [
        ("descriptor", VStr "hollow-echo");
        ("visualEffect", VStr "shake");
        ("duration", VNum 400)]);
      ("level-complete", VObj [
        ("descriptor", VStr "ascending-shimmer");
        ("visualEffect", VStr "ripple");
        ("duration", VNum 600)]);
      ("game-over", VObj [
        ("descriptor", VStr "descending-drone");
        ("visualEffect", VStr "fade");
        ("duration", VNum 800)]);
      ("victory", VObj [
        ("descriptor", VStr "triumphant-chime");
        ("visualEffect", VStr "burst");
        ("duration", VNum 1000)])]);
    ("transitions", VObj [
      ("stateChange", VStr "350ms ease-in-out");
      ("sceneTransition", VStr "420ms cubic-bezier(0.4, 0, 0.2, 1)");
      ("choiceFeedback", VStr "200ms ease-out");
      ("fogShift", VStr "500ms ease-in-out");
      ("particleSpawn", VStr "300ms ease-in")]);
    ("accessibility", VObj [
      ("reducedMotion", VObj [
        ("disableParallax", VBool true);
        ("disableParticles", VBool true);
        ("simplifyAnimations", VBool true);
        ("staticFog", VBool true)]);
      ("contrastRatios", VObj [
        ("minimum", VNum 4.5);
        ("enhanced", VNum 7.0)]);
      ("focusRingWidth", VStr "3px");
      ("focusRingColor", VStr "#4A90E2")]);
    ("performance", VObj [
      ("lowPowerMode", VObj [
        ("particleCount", VNum 10);
        ("animationFrameRate", VNum 30);
        ("simplifyEffects", VBool true)]);
      ("defaultFrameRate", VNum 60);
      ("particleLifetime", VNum 5000)])].

End FallbackData.

(** ** The data loading pipeline ([utils/dataLoader.js]) *)

Module DataLoader.
Import Js FallbackData.

(** What [response.json()] finds in the body. *)
Inductive Body : Type :=
| Unparseable
| Parsed (data : value).

(** What [fetch(url)] settles to: a rejection (transport error), or a
    response with its [ok] flag (the HTTP status is in the 200 range) and its
    body. *)
Inductive Fetch : Type :=
| Rejected (e : error)
| Response (ok : bool) (body : Body).

Definition json (body : Body) : completion value :=
  match body with
  | Parsed data => Normal data
  | Unparseable => Throw (SyntaxError "Unexpected token in JSON")
  end.

(** The test [validateCreatureData] puts every creature to:
    [creature.id && creature.name && Array.isArray(creature.levels) &&
     creature.levels.length > 0] *)
Definition hasRequiredFields (creature : value) : completion bool :=
  id ← get creature "id";
  if negb (truthy id) then mret false else
  name ← get creature "name";
  if negb (truthy name) then mret false else
  levels ← get creature "levels";
  match levels with
  | VArr ls => mret (0 <? length ls)%nat
  | _ => mret false
  end.

(** [validateCreatureData(data)] *)
Definition validateCreatureData (data : value) : completion bool :=
  if negb (truthy data) || negb (typeof_object data) then mret false
  else
    creatures ← get data "creatures";
    match creatures with
    | VArr items => every hasRequiredFields items
    | _ => mret false
    end.

(** [validateUIConfig(config)], as the truth value its caller tests *)
Definition validateUIConfig (config : value) : bool :=
  if negb (truthy config) || negb (typeof_object config) then false
  else
    truthy (prop config "creatures") &&
    truthy (prop config "gameStates") &&
    typeof_object (prop config "creatures") &&
    typeof_object (prop config "gameStates").

Definition defaultChoice (choice : value) : completion value :=
  text ← get choice "text";
  isCorrect ← get choice "isCorrect";
  consequence ← get choice "consequence";
  mret (VObj [
    ("text", or_else text (VStr "Continue"));
    ("isCorrect", nullish isCorrect (VBool false));
    ("consequence", or_else consequence (VStr ""))]).

Definition defaultRiddleData (riddleData : value) : value :=
  if truthy riddleData then
    VObj [
      ("riddle", or_else (prop riddleData "riddle") (VStr ""));
      ("hint", or_else (prop riddleData "hint") (VStr ""));
      ("answerKey", or_else (prop riddleData "answerKey") (VStr ""))]
  else VUndefined.

Definition defaultLevel (level : value) : completion value :=
  levelIndex ← get level "levelIndex";
  sceneText ← get level "sceneText";
  enrichedScene ← get level "enrichedScene";
  choices ← get level "choices";
  choices' ← js_map defaultChoice (or_else choices (VArr []));
  riddleData ← get level "riddleData";
  mret (VObj [
    ("levelIndex", nullish levelIndex (VNum 0));
    ("sceneText", or_else sceneText (VStr ""));
    ("enrichedScene", or_else (or_else enrichedScene sceneText) (VStr ""));
    ("choices", choices');
    ("riddleData", defaultRiddleData riddleData)]).

Definition defaultCreature (creature : value) : completion value :=
  id ← get creature "id";
  name ← get creature "name";
  enrichedIntro ← get creature "enrichedIntro";
  coreMechanic ← get creature "coreMechanic";
  levels ← get creature "levels";
  levels' ← js_map defaultLevel (or_else levels (VArr []));
  victoryText ← get creature "victoryText";
  defeatText ← get creature "defeatText";
  mret (VObj [
    ("id", or_else id (VStr "unknown"));
    ("name", or_else name (VStr "Unknown Creature"));
    ("enrichedIntro", or_else enrichedIntro (VStr ""));
    ("coreMechanic", or_else coreMechanic (VStr "none"));
    ("levels", levels');
    ("victoryText", or_else victoryText (VStr "You have succeeded."));
    ("defeatText", or_else defeatText (VStr "You have failed."))]).

(** [applySafeDefaultsToCreatureData(data)] *)
Definition applySafeDefaultsToCreatureData (data : value) : completion value :=
  if negb (truthy data) || negb (truthy (prop data "creatures")) then
    mret fallbackCreatureData
  else
    creatures ← js_map defaultCreature (prop data "creatures");
    mret (VObj [("creatures", creatures)]).

(** [applySafeDefaultsToUIConfig(config)] *)
Definition applySafeDefaultsToUIConfig (config : value) : value :=
  if negb (truthy config) then fallbackUIConfig
  else
    VObj [
      ("creatures", or_else (prop config "creatures") (prop fallbackUIConfig "creatures"));
      ("gameStates", or_else (prop config "gameStates") (prop fallbackUIConfig "gameStates"));
      ("soundCues",
        or_else (or_else (prop config "soundCues") (prop fallbackUIConfig "soundCues")) (VObj []));
      ("transitions",
        or_else (or_else (prop config "transitions") (prop fallbackUIConfig "transitions")) (VObj []));
      ("accessibility",
        or_else (or_else (prop config "accessibility") (prop fallbackUIConfig "accessibility")) (VObj []));
      ("performance",
        or_else (or_else (prop config "performance") (prop fallbackUIConfig "performance")) (VObj []))].

Definition fetch (outcome : Fetch) : completion (bool * Body) :=
  match outcome with
  | Rejected e => Throw e
  | Response ok body => Normal (ok, body)
  end.

(** The [try] block of [loadCreatureData], run against the outcome of its
    fetch of [creatures_game_data.json]. *)
Definition loadCreatureData_try (outcome : Fetch) : completion value :=
  response ← fetch outcome;
  if negb (fst response) then mret fallbackCreatureData
  else
    data ← json (snd response);
    valid ← validateCreatureData data;
    if negb (valid : bool) then mret fallbackCreatureData
    else applySafeDefaultsToCreatureData data.

(** [loadCreatureData()]: the [catch] block warns with [error.message] and
    returns the fallback. *)
Definition loadCreatureData (outcome : Fetch) : completion value :=
  try_catch (loadCreatureData_try outcome) (fun _ => mret fallbackCreatureData).

Definition loadUIConfig_try (outcome : Fetch) : completion value :=
  response ← fetch outcome;
  if negb (fst response) then mret fallbackUIConfig
  else
    config ← json (snd response);
    if negb (validateUIConfig config) then mret fallbackUIConfig
    else mret (applySafeDefaultsToUIConfig config).

(** [loadUIConfig()] *)
Definition loadUIConfig (outcome : Fetch) : completion value :=
  try_catch (loadUIConfig_try outcome) (fun _ => mret fallbackUIConfig).

(** [loadAllGameData()]: [Promise.all] over the two loads, each against the
    outcome of its own fetch; it rejects as soon as one of them does. *)
Definition loadAllGameData (creatureFetch uiFetch : Fetch) : completion (value * value) :=
  creatureData ← loadCreatureData creatureFetch;
  uiConfig ← loadUIConfig uiFetch;
  mret (creatureData, uiConfig).

(** *** Shapes of a content repository *)

Definition arrayItems (v : value) : option (list value) :=
  match v with
  | VArr items => Some items
  | _ => None
  end.

(** Every element of the array [v] passes [p]; [false] if [v] is no array. *)
Definition allItems (p : value -> bool) (v : value) : bool :=
  match arrayItems v with
  | Some items => forallb p items
  | None => false
  end.

Definition arrayLength (v : value) : option nat := length <$> arrayItems v.

(** The shape the specification names structurally valid: every creature has
    an id, a name, exactly 3 levels, each with exactly 2 choices. *)
Definition structurallyValid (repository : value) : bool :=
  allItems (fun creature =>
    truthy (prop creature "id") &&
    truthy (prop creature "name") &&
    bool_decide (arrayLength (prop creature "levels") = Some 3%nat) &&
    allItems (fun level =>
      bool_decide (arrayLength (prop level "choices") = Some 2%nat))
      (prop creature "levels"))
    (prop repository "creatures").

(** The shape the validator and the defaults establish: every creature has an
    id, a name and at least one level, and every level an array of choices. *)
Definition playableCreature (creature : value) : bool :=
  truthy (prop creature "id") &&
  truthy (prop creature "name") &&
  match arrayItems (prop creature "levels") with
  | Some ((_ :: _) as levels) =>
      forallb (fun level => isArray (prop level "choices")) levels
  | _ => false
  end.

Definition playable (repository : value) : bool :=
  allItems playableCreature (prop repository "creatures").

(** The payload a fetch delivers, when it delivers one. *)
Definition delivered (outcome : Fetch) : option value :=
  match outcome with
  | Response true (Parsed data) => Some data
  | _ => None
  end.

(** The creature fetch fails: transport error, non-success status,
    unparseable body, or a payload the validator does not accept. *)
Definition creatureFetchFails (outcome : Fetch) : Prop :=
  match delivered outcome with
  | Some data => validateCreatureData data <> Normal true
  | None => True
  end.

(** The same for the UI configuration fetch. *)
Definition uiFetchFails (outcome : Fetch) : Prop :=
  match delivered outcome with
  | Some config => validateUIConfig config = false
  | None => True
  end.

(** The payload of the repository's integration test
    [should handle partial data gracefully]: one creature, one level, one
    choice. *)
Definition partialData : value :=
  VObj [
    ("creatures", VArr [
      VObj [
        ("id", VStr "test");
        ("name", VStr "Test");
        ("levels", VArr [
          VObj [
            ("levelIndex", VNum 0);
            ("choices", VArr [
              VObj [
                ("text", VStr "Test");
                ("isCorrect", VBool true);
                ("consequence", VStr "Test")]])]])]])].

End DataLoader.

(** ** The game engine ([hooks/useGameEngine.js]) *)

Module Engine.
Import Js.

(** [gameState]: intro | select | characterReveal | story | level |
    levelTransition | end *)
Inductive Phase : Type :=
| intro | select | characterReveal | story | level | levelTransition | end_.

#[global] Instance Phase_eq_dec : EqDecision Phase.
Proof. solve_decision. Defined.

(** [outcome]: victory | defeat, [null] being [None] *)
Inductive Outcome : Type :=
| victory | defeat.

#[global] Instance Outcome_eq_dec : EqDecision Outcome.
Proof. solve_decision. Defined.

Record Choice : Type := {
  text : string;
  isCorrect : bool;
  consequence : string
}.

Record RiddleData : Type := {
  riddle : string;
  hint : string;
  answerKey : string
}.

Record Level : Type := {
  sceneText : string;
  choices : list Choice;
  riddleData : option RiddleData
}.

(** The fields of a creature the engine reads. *)
Record Creature : Type := {
  id : string;
  name : string;
  coreMechanic : string;
  levels : list Level
}.

(** [mechanicState] is an object whose keys come and go: [selectCreature]
    builds it with one key, [restartGame] with three, [updateMechanicState]
    merges any.  An absent key reads [undefined], here [None]. *)
Record MechanicState : Type := {
  hintsRevealed : option number;
  calmnessLevel : option number;
  tokensCollected : option (list string);
  selectedItem : option string
}.

Record AnimationState : Type := {
  entranceComplete : bool;
  closeUpComplete : bool;
  storyComplete : bool
}.

(** The state cells of the hook, and the timeouts [makeChoice] has scheduled
    and that have not fired yet, oldest first: each callback closes over the
    [currentLevel] of the render that scheduled it. *)
Record Session : Type := {
  gameState : Phase;
  selectedCreature : option Creature;
  currentLevel : nat;
  outcome : option Outcome;
  consequenceText : string;
  transitionFrom : nat;
  correctAnswers : nat;
  animationState : AnimationState;
  storyBubbleIndex : nat;
  mechanicState : MechanicState;
  timers : list nat
}.

(** *** State setters *)

Definition setGameState (v : Phase) (s : Session) : Session :=
  {| gameState := v; selectedCreature := selectedCreature s;
     currentLevel := currentLevel s; outcome := outcome s;
     consequenceText := consequenceText s; transitionFrom := transitionFrom s;
     correctAnswers := correctAnswers s; animationState := animationState s;
     storyBubbleIndex := storyBubbleIndex s; mechanicState := mechanicState s;
     timers := timers s |}.

Definition setSelectedCreature (v : option Creature) (s : Session) : Session :=
  {| gameState := gameState s; selectedCreature := v;
     currentLevel := currentLevel s; outcome := outcome s;
     consequenceText := consequenceText s; transitionFrom := transitionFrom s;
     correctAnswers := correctAnswers s; animationState := animationState s;
     storyBubbleIndex := storyBubbleIndex s; mechanicState := mechanicState s;
     timers := timers s |}.

Definition setCurrentLevel (f : nat -> nat) (s : Session) : Session :=
  {| gameState := gameState s; selectedCreature := selectedCreature s;
     currentLevel := f (currentLevel s); outcome := outcome s;
     consequenceText := consequenceText s; transitionFrom := transitionFrom s;
     correctAnswers := correctAnswers s; animationState := animationState s;
     storyBubbleIndex := storyBubbleIndex s; mechanicState := mechanicState s;
     timers := timers s |}.

Definition setOutcome (v : option Outcome) (s : Session) : Session :=
  {| gameState := gameState s; selectedCreature := selectedCreature s;
     currentLevel := currentLevel s; outcome := v;
     consequenceText := consequenceText s; transitionFrom := transitionFrom s;
     correctAnswers := correctAnswers s; animationState := animationState s;
     storyBubbleIndex := storyBubbleIndex s; mechanicState := mechanicState s;
     timers := timers s |}.

Definition setConsequenceText (v : string) (s : Session) : Session :=
  {| gameState := gameState s; selectedCreature := selectedCreature s;
     currentLevel := currentLevel s; outcome := outcome s;
     consequenceText := v; transitionFrom := transitionFrom s;
     correctAnswers := correctAnswers s; animationState := animationState s;
     storyBubbleIndex := storyBubbleIndex s; mechanicState := mechanicState s;
     timers := timers s |}.

Definition setTransitionFrom (v : nat) (s : Session) : Session :=
  {| gameState := gameState s; selectedCreature := selectedCreature s;
     currentLevel := currentLevel s; outcome := outcome s;
     consequenceText := consequenceText s; transitionFrom := v;
     correctAnswers := correctAnswers s; animationState := animationState s;
     storyBubbleIndex := storyBubbleIndex s; mechanicState := mechanicState s;
     timers := timers s |}.

Definition setCorrectAnswers (v : nat) (s : Session) : Session :=
  {| gameState := gameState s; selectedCreature := selectedCreature s;
     currentLevel := currentLevel s; outcome := outcome s;
     consequenceText := consequenceText s; transitionFrom := transitionFrom s;
     correctAnswers := v; animationState := animationState s;
     storyBubbleIndex := storyBubbleIndex s; mechanicState := mechanicState s;
     timers := timers s |}.

Definition setAnimationState (f : AnimationState -> AnimationState) (s : Session) : Session :=
  {| gameState := gameState s; selectedCreature := selectedCreature s;
     currentLevel := currentLevel s; outcome := outcome s;
     consequenceText := consequenceText s; transitionFrom := transitionFrom s;
     correctAnswers := correctAnswers s; animationState := f (animationState s);
     storyBubbleIndex := storyBubbleIndex s; mechanicState := mechanicState s;
     timers := timers s |}.

Definition setStoryBubbleIndex (f : nat -> nat) (s : Session) : Session :=
  {| gameState := gameState s; selectedCreature := selectedCreature s;
     currentLevel := currentLevel s; outcome := outcome s;
     consequenceText := consequenceText s; transitionFrom := transitionFrom s;
     correctAnswers := correctAnswers s; animationState := animationState s;
     storyBubbleIndex := f (storyBubbleIndex s); mechanicState := mechanicState s;
     timers := timers s |}.

Definition setMechanicState (f : MechanicState -> MechanicState) (s : Session) : Session :=
  {| gameState := gameState s; selectedCreature := selectedCreature s;
     currentLevel := currentLevel s; outcome := outcome s;
     consequenceText := consequenceText s; transitionFrom := transitionFrom s;
     correctAnswers := correctAnswers s; animationState := animationState s;
     storyBubbleIndex := storyBubbleIndex s; mechanicState := f (mechanicState s);
     timers := timers s |}.

Definition setTimers (f : list nat -> list nat) (s : Session) : Session :=
  {| gameState := gameState s; selectedCreature := selectedCreature s;
     currentLevel := currentLevel s; outcome := outcome s;
     consequenceText := consequenceText s; transitionFrom := transitionFrom s;
     correctAnswers := correctAnswers s; animationState := animationState s;
     storyBubbleIndex := storyBubbleIndex s; mechanicState := mechanicState s;
     timers := f (timers s) |}.

(** [setTimeout(callback, 2000)] in [makeChoice], for the callback closing
    over [fromLevel] *)
Definition setTimeout (fromLevel : nat) (s : Session) : Session :=
  setTimers (fun pending => (pending ++ [fromLevel])%list) s.

(** *** Initial values of the state cells *)

Definition initialAnimationState : AnimationState :=
  {| entranceComplete := false; closeUpComplete := false; storyComplete := false |}.

Definition initialMechanicState : MechanicState :=
  {| hintsRevealed := Some (Int 0);
     calmnessLevel := Some (Int 100);
     tokensCollected := Some [];
     selectedItem := None |}.

Definition initialSession : Session :=
  {| gameState := intro; selectedCreature := None; currentLevel := 0;
     outcome := None; consequenceText := ""; transitionFrom := 0;
     correctAnswers := 0; animationState := initialAnimationState;
     storyBubbleIndex := 0; mechanicState := initialMechanicState;
     timers := [] |}.

(** *** Actions *)

Definition startGame (s : Session) : Session := setGameState select s.

(** [{ hintsRevealed: 0 }], [{ calmnessLevel: 100 }], [{ tokensCollected: [] }] *)
Definition riddleDefault : MechanicState :=
  {| hintsRevealed := Some (Int 0); calmnessLevel := None;
     tokensCollected := None; selectedItem := None |}.
Definition calmnessDefault : MechanicState :=
  {| hintsRevealed := None; calmnessLevel := Some (Int 100);
     tokensCollected := None; selectedItem := None |}.
Definition deductionDefault : MechanicState :=
  {| hintsRevealed := None; calmnessLevel := None;
     tokensCollected := Some []; selectedItem := None |}.

(** [creatureData.creatures.find(c => c.id === creatureId)] *)
Definition findCreature (creatures : list Creature) (creatureId : string) : option Creature :=
  List.find (fun c => String.eqb (id c) creatureId) creatures.

(** [selectCreature(creatureId)]; [creatureData] is [None] while the data has
    not been loaded. *)
Definition selectCreature (creatureData : option (list Creature))
    (creatureId : string) (s : Session) : Session :=
  match creatureData with
  | None => s
  | Some creatures =>
      match findCreature creatures creatureId with
      | None => s
      | Some creature =>
          let s := setSelectedCreature (Some creature) s in
          let s := setCurrentLevel (fun _ => 0) s in
          let s := setOutcome None s in
          let s := setConsequenceText "" s in
          let s := setStoryBubbleIndex (fun _ => 0) s in
          let s := setCorrectAnswers 0 s in
          let s := setAnimationState (fun _ => initialAnimationState) s in
          let s :=
            if String.eqb (coreMechanic creature) "riddle" then
              setMechanicState (fun _ => riddleDefault) s
            else if String.eqb (coreMechanic creature) "calmness" then
              setMechanicState (fun _ => calmnessDefault) s
            else if String.eqb (coreMechanic creature) "deduction" then
              setMechanicState (fun _ => deductionDefault) s
            else s in
          setGameState characterReveal s
      end
  end.

Definition completeEntranceAnimation (s : Session) : Session :=
  setAnimationState (fun prev =>
    {| entranceComplete := true; closeUpComplete := closeUpComplete prev;
       storyComplete := storyComplete prev |}) s.

Definition completeCloseUpAnimation (s : Session) : Session :=
  setGameState story
    (setAnimationState (fun prev =>
      {| entranceComplete := entranceComplete prev; closeUpComplete := true;
         storyComplete := storyComplete prev |}) s).

Definition advanceStoryBubble (s : Session) : Session :=
  match selectedCreature s with
  | None => s
  | Some creature =>
      let totalBubbles := if String.eqb (id creature) "aswang" then 5 else 4 in
      if (storyBubbleIndex s <? totalBubbles - 1)%nat then
        setStoryBubbleIndex (fun prev => prev + 1) s
      else
        setGameState level
          (setAnimationState (fun prev =>
            {| entranceComplete := entranceComplete prev;
               closeUpComplete := closeUpComplete prev;
               storyComplete := true |}) s)
  end.

(** [array[index]] for an index the caller passes: [undefined] unless the
    index is a position of the array. *)
Definition at_index {A} (items : list A) (index : Z) : option A :=
  if (index <? 0)%Z then None else items !! Z.to_nat index.

(** [currentLevel === 0 ? 25 : currentLevel === 1 ? 30 : 35] *)
Definition decreaseAmount (currentLevel : nat) : Z :=
  match currentLevel with
  | 0 => 25
  | 1 => 30
  | _ => 35
  end.

(** [prev => ({ ...prev, calmnessLevel: Math.max(0, prev.calmnessLevel - amount) })] *)
Definition decreaseCalmness (amount : Z) (prev : MechanicState) : MechanicState :=
  {| hintsRevealed := hintsRevealed prev;
     calmnessLevel := Some (Math_max0 (minus (toNumber (calmnessLevel prev)) amount));
     tokensCollected := tokensCollected prev;
     selectedItem := selectedItem prev |}.

Definition decide_outcome (correctCount : nat) : Outcome :=
  if (2 <=? correctCount)%nat then victory else defeat.

(** [makeChoice(choiceIndex)], as the function a render creates.

    [useCallback] rebuilds it from [selectedCreature], [currentLevel],
    [gameState] and [correctAnswers]: what the body reads of them are the
    values of the render that created it, [render], while its setters act
    on the session at the time of the call, [s].  Only the meter is updated
    from the state at the call ([prev => ...]).  The two differ when the
    function is called after the session has moved on, as by the timeout of
    [GameplayScreen.handleChoice], 4.2 s after the click. *)
Definition makeChoiceFrom (render : Session) (choiceIndex : Z) (s : Session) : Session :=
  match selectedCreature render with
  | None => s
  | Some creature =>
      if negb (bool_decide (gameState render = level)) then s else
      match levels creature !! currentLevel render with
      | None => s
      | Some levelData =>
          match at_index (choices levelData) choiceIndex with
          | None => s
          | Some choice =>
              let s1 := setConsequenceText (consequence choice) s in
              let s2 :=
                if String.eqb (coreMechanic creature) "calmness" && negb (isCorrect choice)
                then setMechanicState
                       (decreaseCalmness (decreaseAmount (currentLevel render))) s1
                else s1 in
              if isCorrect choice then
                let newCorrectCount := correctAnswers render + 1 in
                let s3 := setCorrectAnswers newCorrectCount s2 in
                if (currentLevel render =? 2)%nat then
                  setGameState end_ (setOutcome (Some (decide_outcome newCorrectCount)) s3)
                else
                  setTimeout (currentLevel render) s3
              else
                if (currentLevel render =? 2)%nat then
                  setGameState end_
                    (setOutcome (Some (decide_outcome (correctAnswers render))) s2)
                else
                  setTimeout (currentLevel render) s2
          end
      end
  end.

(** [makeChoice(choiceIndex)] called on the function of the render on
    screen: what it reads is what the session holds. *)
Definition makeChoice (choiceIndex : Z) (s : Session) : Session :=
  makeChoiceFrom s choiceIndex s.

(** The oldest pending timeout of [makeChoice] fires:
    [setTransitionFrom(currentLevel); setGameState('levelTransition');
     setConsequenceText('')]. *)
Definition fireTimeout (s : Session) : Session :=
  match timers s with
  | [] => s
  | fromLevel :: pending =>
      setConsequenceText ""
        (setGameState levelTransition
          (setTransitionFrom fromLevel (setTimers (fun _ => pending) s)))
  end.

(** [getCurrentLevelData()] *)
Definition getCurrentLevelData (s : Session) : option Level :=
  match selectedCreature s with
  | None => None
  | Some creature => levels creature !! currentLevel s
  end.

(** [restartGame()] *)
Definition restartGame (s : Session) : Session :=
  let s := setGameState characterReveal s in
  let s := setCurrentLevel (fun _ => 0) s in
  let s := setOutcome None s in
  let s := setCorrectAnswers 0 s in
  let s := setConsequenceText "" s in
  let s := setStoryBubbleIndex (fun _ => 0) s in
  let s := setAnimationState (fun _ => initialAnimationState) s in
  setMechanicState (fun _ => initialMechanicState) s.

(** [goHome()] *)
Definition goHome (s : Session) : Session :=
  let s := setSelectedCreature None s in
  let s := setGameState select s in
  let s := setCurrentLevel (fun _ => 0) s in
  let s := setOutcome None s in
  let s := setCorrectAnswers 0 s in
  let s := setConsequenceText "" s in
  let s := setStoryBubbleIndex (fun _ => 0) s in
  let s := setAnimationState (fun _ => initialAnimationState) s in
  setMechanicState (fun _ => initialMechanicState) s.

(** [completeLevelTransition()] *)
Definition completeLevelTransition (s : Session) : Session :=
  setGameState level (setCurrentLevel (fun prev => prev + 1) s).

(** [updateMechanicState(updates)]: [{ ...prev, ...updates }], a key of
    [updates] winning over the same key of [prev]. *)
Definition merge (prev updates : MechanicState) : MechanicState :=
  {| hintsRevealed := hintsRevealed updates ∪ hintsRevealed prev;
     calmnessLevel := calmnessLevel updates ∪ calmnessLevel prev;
     tokensCollected := tokensCollected updates ∪ tokensCollected prev;
     selectedItem := selectedItem updates ∪ selectedItem prev |}.

Definition updateMechanicState (updates : MechanicState) (s : Session) : Session :=
  setMechanicState (fun prev => merge prev updates) s.

Definition noUpdates : MechanicState :=
  {| hintsRevealed := None; calmnessLevel := None;
     tokensCollected := None; selectedItem := None |}.

(** *** A run through the three levels

    The application wires the engine so: a choice is submitted in phase
    [level]; two seconds later the timeout moves to [levelTransition]; the
    transition screen, once played, calls [completeLevelTransition]. *)
Definition playLevel (choiceIndex : Z) (s : Session) : Session :=
  completeLevelTransition (fireTimeout (makeChoice choiceIndex s)).

Definition playThrough (i0 i1 i2 : Z) (s : Session) : Session :=
  makeChoice i2 (playLevel i1 (playLevel i0 s)).

(** The session shows level [levelIndex] of [creature] and waits for a
    choice, no timeout pending. *)
Definition ready (creature : Creature) (levelIndex : nat) (s : Session) : Prop :=
  gameState s = level /\ selectedCreature s = Some creature /\
  currentLevel s = levelIndex /\ timers s = [].

(** The choice at [choiceIndex] of level [levelIndex] of [creature] *)
Definition chosen (creature : Creature) (levelIndex : nat) (choiceIndex : Z) : option Choice :=
  levelData ← levels creature !! levelIndex;
  at_index (choices levelData) choiceIndex.

(** The choices the session offers: those of the current level of the
    selected creature, none if there is no such level. *)
Definition currentChoices (s : Session) : list Choice :=
  match getCurrentLevelData s with
  | Some levelData => choices levelData
  | None => []
  end.

(** The choice [makeChoice choiceIndex] would read in [s] *)
Definition picked (choiceIndex : Z) (s : Session) : option Choice :=
  at_index (currentChoices s) choiceIndex.

Definition countCorrect (cs : list Choice) : nat :=
  length (filter (fun c => isCorrect c = true) cs).

(** [1] when the choice is incorrect, [0] when it is correct *)
Definition missed (c : Choice) : Z := if isCorrect c then 0 else 1.

(** What a submitted choice adds to the correct-answer count *)
Definition gain (c : Choice) : nat := if isCorrect c then 1 else 0.

(** What a submitted choice at [levelIndex] does to the mechanic state *)
Definition afterChoice (creature : Creature) (levelIndex : nat) (c : Choice)
    (ms : MechanicState) : MechanicState :=
  if String.eqb (coreMechanic creature) "calmness" && negb (isCorrect c)
  then decreaseCalmness (decreaseAmount levelIndex) ms
  else ms.

(** From a fresh hook to the first level of [creatureId], as the
    application drives it: start, select, the two reveal animations, then
    the story bubbles one by one. *)
Definition reachFirstLevel (creatureData : option (list Creature))
    (creatureId : string) : Session :=
  let s := selectCreature creatureData creatureId (startGame initialSession) in
  let s := completeCloseUpAnimation (completeEntranceAnimation s) in
  Nat.iter (if String.eqb creatureId "aswang" then 5 else 4) advanceStoryBubble s.

End Engine.

(** ** The mechanics panel ([components/Inventory.jsx]) *)

Module Inventory.
Import Js.
Import Engine.

(** The component's own state cells, the [mechanicState] it is rendered with
    (its [onMechanicUpdate] is the engine's [updateMechanicState], a merge),
    and the hint timeouts that have not fired yet: each callback closes over
    the [mechanicState.hintsRevealed] of the render that scheduled it. *)
Record View : Type := {
  riddleAnswer : string;
  showHint : bool;
  answerFeedback : string;
  mechanics : MechanicState;
  hintTimers : list (option number)
}.

Definition setRiddleAnswer (v : string) (w : View) : View :=
  {| riddleAnswer := v; showHint := showHint w; answerFeedback := answerFeedback w;
     mechanics := mechanics w; hintTimers := hintTimers w |}.

Definition setShowHint (v : bool) (w : View) : View :=
  {| riddleAnswer := riddleAnswer w; showHint := v; answerFeedback := answerFeedback w;
     mechanics := mechanics w; hintTimers := hintTimers w |}.

Definition setAnswerFeedback (v : string) (w : View) : View :=
  {| riddleAnswer := riddleAnswer w; showHint := showHint w; answerFeedback := v;
     mechanics := mechanics w; hintTimers := hintTimers w |}.

Definition onMechanicUpdate (updates : MechanicState) (w : View) : View :=
  {| riddleAnswer := riddleAnswer w; showHint := showHint w;
     answerFeedback := answerFeedback w;
     mechanics := merge (mechanics w) updates; hintTimers := hintTimers w |}.

Definition setHintTimers (f : list (option number) -> list (option number)) (w : View) : View :=
  {| riddleAnswer := riddleAnswer w; showHint := showHint w;
     answerFeedback := answerFeedback w;
     mechanics := mechanics w; hintTimers := f (hintTimers w) |}.

(** The component as first rendered with [ms] *)
Definition initialView (ms : MechanicState) : View :=
  {| riddleAnswer := ""; showHint := false; answerFeedback := "";
     mechanics := ms; hintTimers := [] |}.

(** The effect run when [levelData] changes *)
Definition onLevelChange (w : View) : View :=
  setAnswerFeedback "" (setShowHint false (setRiddleAnswer "" w)).

Section WithStrings.
Context {strings : StringMethods}.

(** [handleSubmitAnswer(e)], for the riddle of the current level *)
Definition handleSubmitAnswer (riddle : RiddleData) (w : View) : View :=
  let normalizedAnswer := toLowerCase (trim (riddleAnswer w)) in
  let normalizedKey := toLowerCase (answerKey riddle) in
  if String.eqb normalizedAnswer normalizedKey then
    setAnswerFeedback "Correct! The witch is pleased." w
  else
    let w := setAnswerFeedback "Incorrect. The witch frowns." w in
    if negb (showHint w) then
      setHintTimers (fun pending => (pending ++ [hintsRevealed (mechanics w)])%list) w
    else w.

(** The oldest pending hint timeout fires, 500 ms after the miss:
    [setShowHint(true);
     onMechanicUpdate({ hintsRevealed: (mechanicState.hintsRevealed || 0) + 1 })]. *)
Definition fireHintTimeout (w : View) : View :=
  match hintTimers w with
  | [] => w
  | seen :: pending =>
      onMechanicUpdate
        {| hintsRevealed := Some (plus (or_zero seen) 1); calmnessLevel := None;
           tokensCollected := None; selectedItem := None |}
        (setShowHint true (setHintTimers (fun _ => pending) w))
  end.

(** The player types [input], submits, and the timeout, if one was
    scheduled, fires. *)
Definition submitAnswer (riddle : RiddleData) (input : string) (w : View) : View :=
  fireHintTimeout (handleSubmitAnswer riddle (setRiddleAnswer input w)).

End WithStrings.

(** The class the feedback is rendered with:
    [answerFeedback.includes('Correct') ? 'correct' : 'incorrect'] *)
Definition verdict (w : View) : bool := includes "Correct" (answerFeedback w).

(** [mechanicState.tokensCollected || []] *)
Definition collected (ms : MechanicState) : list string :=
  default [] (tokensCollected ms).

(** [handleTokenClick(tokenId)], as the mechanic state after the update it
    sends *)
Definition handleTokenClick (tokenId : string) (ms : MechanicState) : MechanicState :=
  let tokensCollected := collected ms in
  let newTokens :=
    if bool_decide (tokenId ∈ tokensCollected)
    then filter (fun id => id ≠ tokenId) tokensCollected
    else (tokensCollected ++ [tokenId])%list in
  merge ms
    {| hintsRevealed := None; calmnessLevel := None;
       tokensCollected := Some newTokens; selectedItem := None |}.

Definition validCombinations : list (list string) :=
  [ ["reversed-reflection"; "no-shadow"];
    ["salt-reaction"; "garlic-aversion"];
    ["extended-tongue"; "leathery-wings"] ].

(** [validateCombination()] *)
Definition validateCombination (ms : MechanicState) : bool :=
  existsb (fun combo =>
    forallb (fun token => bool_decide (token ∈ collected ms)) combo)
    validCombinations.

(** The collected tokens as a set *)
Definition tokenSet (ms : MechanicState) : gset string := list_to_set (collected ms).

(** The three pairs of the specification, as sets *)
Definition validPairs : list (gset string) :=
  [ {[ "reversed-reflection"; "no-shadow" ]};
    {[ "salt-reaction"; "garlic-aversion" ]};
    {[ "extended-tongue"; "leathery-wings" ]} ].

End Inventory.

(** ** The level screen ([components/GameplayScreen.jsx]) *)

Module GameplayScreen.
Import Js.
Import Engine.

(** What a pending timeout of the riddle form does when it fires. *)
Inductive Callback : Type :=
| RevealHint      (* [() => setShowHint(true)], after 500 ms *)
| UnlockChoices.  (* [() => setRiddleSolved(true)], after 1500 ms *)

(** The state cells the riddle form uses, and the [mechanicState] the screen
    is rendered with. *)
Record View : Type := {
  riddleAnswer : string;
  showHint : bool;
  answerFeedback : string;
  riddleSolved : bool;
  riddleAttempts : nat;
  mechanics : MechanicState;
  pending : list Callback
}.

(** The screen as first rendered with [ms] *)
Definition initialView (ms : MechanicState) : View :=
  {| riddleAnswer := ""; showHint := false; answerFeedback := "";
     riddleSolved := false; riddleAttempts := 0;
     mechanics := ms; pending := [] |}.

(** [onChange={(e) => setRiddleAnswer(e.target.value)}] *)
Definition setRiddleAnswer (v : string) (w : View) : View :=
  {| riddleAnswer := v; showHint := showHint w; answerFeedback := answerFeedback w;
     riddleSolved := riddleSolved w; riddleAttempts := riddleAttempts w;
     mechanics := mechanics w; pending := pending w |}.

Section WithStrings.
Context {strings : StringMethods}.

(** [handleRiddleSubmit(e)] *)
Definition handleRiddleSubmit (levelData : Level) (w : View) : View :=
  let normalizedAnswer := toLowerCase (trim (riddleAnswer w)) in
  let normalizedKey :=
    match riddleData levelData with
    | Some riddle => toLowerCase (answerKey riddle)
    | None => ""
    end in
  if String.eqb normalizedAnswer normalizedKey then
    {| riddleAnswer := ""; showHint := showHint w;
       answerFeedback := "Correct! The witch is pleased. You may proceed.";
       riddleSolved := true; riddleAttempts := riddleAttempts w;
       mechanics := mechanics w; pending := pending w |}
  else
    let newAttempts := riddleAttempts w + 1 in
    if (newAttempts =? 1)%nat then
      {| riddleAnswer := ""; showHint := showHint w;
         answerFeedback := "Incorrect. The witch frowns.";
         riddleSolved := riddleSolved w; riddleAttempts := newAttempts;
         mechanics := mechanics w; pending := (pending w ++ [RevealHint])%list |}
    else if (2 <=? newAttempts)%nat then
      {| riddleAnswer := ""; showHint := showHint w;
         answerFeedback := "Incorrect again. The witch sighs and lets you pass anyway.";
         riddleSolved := riddleSolved w; riddleAttempts := newAttempts;
         mechanics := mechanics w; pending := (pending w ++ [UnlockChoices])%list |}
    else
      {| riddleAnswer := ""; showHint := showHint w;
         answerFeedback := answerFeedback w;
         riddleSolved := riddleSolved w; riddleAttempts := newAttempts;
         mechanics := mechanics w; pending := pending w |}.

End WithStrings.

Definition verdict (w : View) : bool := includes "Correct" (answerFeedback w).

End GameplayScreen.

(** ** The specification's reading of the riddle rule *)

Module Spec.
Import Js.

(** Modelled on the specification's words, to compare the handlers with:
    [submitAnswer(state, riddle, rawInput) -> (newState, verdict)] trims and
    lower-cases both the input and the answer key, and on a mismatch adds 1
    to [hintsRevealed], whatever was revealed before. *)
Definition submitAnswer {strings : StringMethods} (hintsRevealed : Z)
    (answerKey rawInput : string) : Z * bool :=
  if String.eqb (toLowerCase (trim rawInput)) (toLowerCase (trim answerKey))
  then (hintsRevealed, true)
  else ((hintsRevealed + 1)%Z, false).

End Spec.

(** ** The repository as the engine reads it

  The engine's records hold strings where the embedded content and the
  payloads of the tests have strings: ids, names, mechanics, texts and
  consequences.  This is the reading of such a repository, from the
  loader's values to the engine's records; a repository in which one of
  these fields is of another type (the validator accepts any truthy id and
  name) has no reading in these records, and [creatureData] gives [None]
  for it. *)

Module Content.
Import Js.
Import Engine.

Definition asString (v : value) : option string :=
  match v with
  | VStr s => Some s
  | _ => None
  end.

Definition asItems (v : value) : option (list value) :=
  match v with
  | VArr items => Some items
  | _ => None
  end.

Definition asChoice (v : value) : option Choice :=
  text ← asString (prop v "text");
  consequence ← asString (prop v "consequence");
  Some {| text := text; isCorrect := truthy (prop v "isCorrect");
          consequence := consequence |}.

Definition asRiddleData (v : value) : option RiddleData :=
  riddle ← asString (prop v "riddle");
  hint ← asString (prop v "hint");
  answerKey ← asString (prop v "answerKey");
  Some {| riddle := riddle; hint := hint; answerKey := answerKey |}.

Definition asLevel (v : value) : option Level :=
  sceneText ← asString (prop v "sceneText");
  items ← asItems (prop v "choices");
  choices ← mapM asChoice items;
  Some {| sceneText := sceneText; choices := choices;
          riddleData := asRiddleData (prop v "riddleData") |}.

Definition asCreature (v : value) : option Creature :=
  id ← asString (prop v "id");
  name ← asString (prop v "name");
  coreMechanic ← asString (prop v "coreMechanic");
  items ← asItems (prop v "levels");
  levels ← mapM asLevel items;
  Some {| id := id; name := name; coreMechanic := coreMechanic; levels := levels |}.

(** [creatureData.creatures], as [useGameEngine(creatureData)] receives
    them, when every creature has a reading *)
Definition creatureData (repository : value) : option (list Creature) :=
  items ← asItems (prop repository "creatures");
  mapM asCreature items.

(** The three creatures of the embedded content *)
Definition fallbackCreatures : option (list Creature) :=
  creatureData FallbackData.fallbackCreatureData.

Definition creatureNamed (creatureId : string) : option Creature :=
  creatures ← fallbackCreatures;
  findCreature creatures creatureId.

(** Stand-ins where a lookup into the embedded content would come back
    empty; the embedded content has all three creatures, so they are never
    used. *)
Definition nobody : Creature :=
  {| id := ""; name := ""; coreMechanic := "none"; levels := [] |}.
Definition nothing : Choice :=
  {| text := ""; isCorrect := false; consequence := "" |}.

Definition babaYaga : Creature := default nobody (creatureNamed "baba-yaga").
Definition banshee : Creature := default nobody (creatureNamed "banshee").
Definition aswang : Creature := default nobody (creatureNamed "aswang").

(** [creature.levels[levelIndex].choices[choiceIndex]] *)
Definition choiceOf (creature : Creature) (levelIndex : nat) (choiceIndex : Z) : Choice :=
  default nothing (chosen creature levelIndex choiceIndex).

End Content.

(** ** More of the loading pipeline *)

Module Loaded.
Import Js.
Import FallbackData.
Import DataLoader.

(** What the load makes of the partial payload of the integration test:
    the same creature with every missing field defaulted. *)
Definition partialDefaults : value :=
  match loadCreatureData (Response true (Parsed partialData)) with
  | Normal creatureData => creatureData
  | Throw _ => VUndefined
  end.

(** A payload in which a choice names the tool it asks for *)
Definition toolPayload : value :=
  VObj [("creatures", VArr [
    VObj [("id", VStr "aswang"); ("name", VStr "Aswang");
          ("coreMechanic", VStr "deduction");
          ("levels", VArr [VObj [("choices", VArr [
             VObj [("text", VStr "Throw salt"); ("isCorrect", VBool true);
                   ("correctItem", VStr "salt")]])]])]])].

(** [v] is [undefined] or [null] *)
Definition isNullish (v : value) : bool :=
  match v with
  | VUndefined | VNull => true
  | _ => false
  end.

(** The own property names of an object, in order *)
Definition ownKeys (v : value) : list string :=
  match v with
  | VObj fields => map fst fields
  | _ => []
  end.

(** The items of an array, none for any other value *)
Definition itemsOf (v : value) : list value :=
  default [] (arrayItems v).

(** *** The shape the defaults give an accepted payload *)

Definition populatedChoice (choice : value) : bool :=
  bool_decide (ownKeys choice = ["text"; "isCorrect"; "consequence"]) &&
  truthy (prop choice "text") &&
  negb (isNullish (prop choice "isCorrect")) &&
  negb (isNullish (prop choice "consequence")).

Definition populatedRiddle (riddleData : value) : bool :=
  match riddleData with
  | VUndefined => true
  | _ =>
      bool_decide (ownKeys riddleData = ["riddle"; "hint"; "answerKey"]) &&
      negb (isNullish (prop riddleData "riddle")) &&
      negb (isNullish (prop riddleData "hint")) &&
      negb (isNullish (prop riddleData "answerKey"))
  end.

Definition populatedLevel (level : value) : bool :=
  bool_decide (ownKeys level =
    ["levelIndex"; "sceneText"; "enrichedScene"; "choices"; "riddleData"]) &&
  negb (isNullish (prop level "levelIndex")) &&
  negb (isNullish (prop level "sceneText")) &&
  negb (isNullish (prop level "enrichedScene")) &&
  allItems populatedChoice (prop level "choices") &&
  populatedRiddle (prop level "riddleData").

Definition populatedCreature (creature : value) : bool :=
  bool_decide (ownKeys creature =
    ["id"; "name"; "enrichedIntro"; "coreMechanic"; "levels"; "victoryText"; "defeatText"]) &&
  truthy (prop creature "id") &&
  truthy (prop creature "name") &&
  negb (isNullish (prop creature "enrichedIntro")) &&
  truthy (prop creature "coreMechanic") &&
  allItems populatedLevel (prop creature "levels") &&
  truthy (prop creature "victoryText") &&
  truthy (prop creature "defeatText").

Definition populated (repository : value) : bool :=
  bool_decide (ownKeys repository = ["creatures"]) &&
  allItems populatedCreature (prop repository "creatures").

(** Every choice of every level of every creature of a repository *)
Definition allChoices (repository : value) : list value :=
  creature ← itemsOf (prop repository "creatures");
  level ← itemsOf (prop creature "levels");
  itemsOf (prop level "choices").

(** The object has no property [k] (reading it gives [undefined]). *)
Definition lacks (k : string) (v : value) : bool :=
  match prop v k with
  | VUndefined => true
  | _ => false
  end.

(** *** What the defaults keep of an accepted payload *)

Definition keptChoice (given served : value) : Prop :=
  truthy (prop served "isCorrect") = truthy (prop given "isCorrect") /\
  (truthy (prop given "text") = true -> prop served "text" = prop given "text") /\
  (truthy (prop given "consequence") = true ->
     prop served "consequence" = prop given "consequence").

Definition keptLevel (given served : value) : Prop :=
  (isArray (prop given "choices") = true \/ truthy (prop given "choices") = false) /\
  Forall2 keptChoice (itemsOf (prop given "choices")) (itemsOf (prop served "choices")).

Definition keptCreature (given served : value) : Prop :=
  prop served "id" = prop given "id" /\
  prop served "name" = prop given "name" /\
  Forall2 keptLevel (itemsOf (prop given "levels")) (itemsOf (prop served "levels")).

(** *** Payloads with a hole

    A creature, a level or a choice that is [null], or the choices of a
    level that are neither absent nor an array. *)
Definition holeInLevel (level : value) : Prop :=
  isNullish level = true \/
  (truthy (prop level "choices") = true /\ isArray (prop level "choices") = false) \/
  Exists (fun choice => isNullish choice = true) (itemsOf (prop level "choices")).

Definition holeInCreature (creature : value) : Prop :=
  isNullish creature = true \/
  Exists holeInLevel (itemsOf (prop creature "levels")).

Definition hasHole (data : value) : Prop :=
  Exists holeInCreature (itemsOf (prop data "creatures")).

(** The four tables [applySafeDefaultsToUIConfig] takes from the fallback
    when the payload lacks them *)
Definition optionalTables : list string :=
  ["soundCues"; "transitions"; "accessibility"; "performance"].

End Loaded.

(** ** Sequences of engine actions *)

Module Play.
Import Js.
Import Engine.

(** What the application and its components can ask of the hook, and the
    firing of a timeout [makeChoice] has scheduled.

    [MakeChoice] is a call of the [makeChoice] of the render on screen.
    [LateChoice age] is a call of the [makeChoice] of an earlier render,
    the one that was on screen before the last [age + 1] actions: the
    timeout of [GameplayScreen.handleChoice] calls the [onChoice] of the
    render that took the click, 4.2 s later, whatever has happened since.
    Where there is no such render the call does not happen. *)
Inductive Action : Type :=
| StartGame
| SelectCreature (creatureId : string)
| CompleteEntranceAnimation
| CompleteCloseUpAnimation
| AdvanceStoryBubble
| MakeChoice (choiceIndex : Z)
| LateChoice (age : nat) (choiceIndex : Z)
| Timeout
| CompleteLevelTransition
| RestartGame
| GoHome
| UpdateMechanicState (updates : MechanicState).

(** One action on the session [s]; [past] holds the sessions rendered before
    it, the latest first. *)
Definition perform (creatureData : option (list Creature)) (past : list Session)
    (a : Action) (s : Session) : Session :=
  match a with
  | StartGame => startGame s
  | SelectCreature creatureId => selectCreature creatureData creatureId s
  | CompleteEntranceAnimation => completeEntranceAnimation s
  | CompleteCloseUpAnimation => completeCloseUpAnimation s
  | AdvanceStoryBubble => advanceStoryBubble s
  | MakeChoice choiceIndex => makeChoice choiceIndex s
  | LateChoice age choiceIndex =>
      match past !! age with
      | Some render => makeChoiceFrom render choiceIndex s
      | None => s
      end
  | Timeout => fireTimeout s
  | CompleteLevelTransition => completeLevelTransition s
  | RestartGame => restartGame s
  | GoHome => goHome s
  | UpdateMechanicState updates => updateMechanicState updates s
  end.

(** The actions one after the other, each render joining the past. *)
Fixpoint run (creatureData : option (list Creature)) (actions : list Action)
    (past : list Session) (s : Session) : Session :=
  match actions with
  | [] => s
  | a :: rest => run creatureData rest (s :: past) (perform creatureData past a s)
  end.

Definition performAll (creatureData : option (list Creature))
    (actions : list Action) (s : Session) : Session :=
  run creatureData actions [] s.

(** The session agrees with [render] on what [makeChoice] closes over. *)
Definition sameDeps (render s : Session) : Prop :=
  selectedCreature render = selectedCreature s /\
  currentLevel render = currentLevel s /\
  gameState render = gameState s /\
  correctAnswers render = correctAnswers s.

(** A late choice is on time when the creature, the level, the phase and
    the count are still those of the render that took the click. *)
Definition onTime (past : list Session) (a : Action) (s : Session) : Prop :=
  match a with
  | LateChoice age _ => forall render, past !! age = Some render -> sameDeps render s
  | _ => True
  end.

(** Every late choice of the run is on time. *)
Fixpoint timely (creatureData : option (list Creature)) (actions : list Action)
    (past : list Session) (s : Session) : Prop :=
  match actions with
  | [] => True
  | a :: rest =>
      onTime past a s /\
      timely creatureData rest (s :: past) (perform creatureData past a s)
  end.

(** The action is a call on the render on screen. *)
Definition onScreen (a : Action) : Prop :=
  match a with
  | LateChoice _ _ => False
  | _ => True
  end.

(** The updates the components send carry [hintsRevealed],
    [tokensCollected] or [selectedItem], never [calmnessLevel]. *)
Definition leavesMeter (a : Action) : Prop :=
  match a with
  | UpdateMechanicState updates => calmnessLevel updates = None
  | _ => True
  end.

(** The meter, when it is a number, is within [0,100]. *)
Definition meterWithin (ms : MechanicState) : Prop :=
  forall z, calmnessLevel ms = Some (Int z) -> (0 <= z <= 100)%Z.

(** A session in phase [end] has an outcome to show. *)
Definition concluded (s : Session) : Prop :=
  gameState s = end_ -> outcome s <> None.

(** The meter, when the mechanic state has one, is a number of [0,100]. *)
Definition meterInRange (ms : MechanicState) : Prop :=
  match calmnessLevel ms with
  | None => True
  | Some NaN => False
  | Some (Int z) => (0 <= z <= 100)%Z
  end.

(** A session in phase [end] stands at level index 2 of a creature that has
    such a level, and shows the outcome its count decides. *)
Definition decided (s : Session) : Prop :=
  gameState s = end_ ->
  currentLevel s = 2 /\
  outcome s = Some (decide_outcome (correctAnswers s)) /\
  exists creature levelData,
    selectedCreature s = Some creature /\ levels creature !! 2 = Some levelData.

(** The meter is in range, and there is one while a calmness creature is
    selected. *)
Definition meterKept (s : Session) : Prop :=
  meterInRange (mechanicState s) /\
  (forall creature,
      selectedCreature s = Some creature ->
      coreMechanic creature = "calmness" ->
      calmnessLevel (mechanicState s) <> None).

(** No creature of the repository has a third level. *)
Definition shortOfLevels (creatureData : option (list Creature)) : Prop :=
  forall creatures,
    creatureData = Some creatures ->
    Forall (fun creature => length (levels creature) < 3) creatures.

(** Nothing is decided, and the selected creature has no third level. *)
Definition undecided (s : Session) : Prop :=
  gameState s <> end_ /\ outcome s = None /\
  (forall creature,
      selectedCreature s = Some creature -> length (levels creature) < 3).

(** The number of story bubbles [advanceStoryBubble] counts for a creature *)
Definition totalBubbles (creature : Creature) : nat :=
  if String.eqb (id creature) "aswang" then 5 else 4.

(** From level 0 through the story again, after a restart *)
Definition replay (s : Session) : Session :=
  match selectedCreature s with
  | Some creature =>
      Nat.iter (if String.eqb (id creature) "aswang" then 5 else 4) advanceStoryBubble
        (completeCloseUpAnimation (completeEntranceAnimation (restartGame s)))
  | None => s
  end.

End Play.

(** ** The calmness meter as the two components show it *)

Module Meter.
Import Js.
Import Engine.

Inductive Mood : Type :=
| Peaceful | Sorrowful | Anguished.

(** [mechanicState.calmnessLevel ?? 100] *)
Definition calmnessOf (ms : MechanicState) : number :=
  match calmnessLevel ms with
  | Some n => n
  | None => Int 100
  end.

(** [Math.min(100, n)]: [NaN] if [n] is. *)
Definition Math_min100 (n : number) : number :=
  match n with
  | Int z => Int (Z.min 100 z)
  | NaN => NaN
  end.

(** [n < k] for an integer literal [k]: false on [NaN]. *)
Definition lessThan (n : number) (k : Z) : bool :=
  match n with
  | Int z => (z <? k)%Z
  | NaN => false
  end.

(** [Inventory.jsx]: [Math.max(0, Math.min(100, calmnessLevel))], the value
    the meter is drawn and labelled with *)
Definition normalizedCalmness (ms : MechanicState) : number :=
  Math_max0 (Math_min100 (calmnessOf ms)).

(** [Inventory.jsx]: the mood, read off the normalized value *)
Definition moodText (ms : MechanicState) : Mood :=
  if lessThan (normalizedCalmness ms) 30 then Anguished
  else if lessThan (normalizedCalmness ms) 60 then Sorrowful
  else Peaceful.

(** [GameplayScreen.jsx]: the mood, read off the stored value *)
Definition mood (ms : MechanicState) : Mood :=
  if lessThan (calmnessOf ms) 30 then Anguished
  else if lessThan (calmnessOf ms) 60 then Sorrowful
  else Peaceful.

End Meter.

(** ** The token panel and the riddle panel of [Inventory.jsx], over time *)

Module Panel.
Import Js.
Import Engine.
Import Inventory.

(** The ids of [availableTokens], in the order of the buttons *)
Definition availableTokens : list string :=
  ["reversed-reflection"; "no-shadow"; "salt-reaction"; "garlic-aversion";
   "extended-tongue"; "leathery-wings"].

(** The token buttons clicked one after the other *)
Definition clickAll (tokenIds : list string) (ms : MechanicState) : MechanicState :=
  fold_left (fun ms tokenId => handleTokenClick tokenId ms) tokenIds ms.

(** What happens to the riddle panel between two changes of level: the
    player submits an answer, or the oldest pending hint timeout fires. *)
Inductive Event : Type :=
| Answer (input : string)
| HintTimeout.

Section WithStrings.
Context {strings : StringMethods}.

Definition handle (riddle : RiddleData) (e : Event) (w : View) : View :=
  match e with
  | Answer input => handleSubmitAnswer riddle (setRiddleAnswer input w)
  | HintTimeout => fireHintTimeout w
  end.

Definition handleAll (riddle : RiddleData) (events : list Event) (w : View) : View :=
  fold_left (fun w e => handle riddle e w) events w.

End WithStrings.

(** The panel has revealed no hint yet and counts [h]; or it shows the hint
    and counts [h + 1]; every pending timeout was scheduled at count [h]. *)
Definition hintState (h : Z) (w : View) : Prop :=
  hintsRevealed (mechanics w) = Some (Int (if showHint w then h + 1 else h)) /\
  Forall (fun seen => seen = Some (Int h)) (hintTimers w).

End Panel.

(** ** The riddle form and the choice buttons of [GameplayScreen.jsx], over time *)

Module Screen.
Import Js.
Import Engine.
Import GameplayScreen.

(** The oldest pending timeout of the riddle form fires. *)
Definition fire (w : View) : View :=
  match pending w with
  | [] => w
  | RevealHint :: rest =>
      {| riddleAnswer := riddleAnswer w; showHint := true;
         answerFeedback := answerFeedback w; riddleSolved := riddleSolved w;
         riddleAttempts := riddleAttempts w; mechanics := mechanics w;
         pending := rest |}
  | UnlockChoices :: rest =>
      {| riddleAnswer := riddleAnswer w; showHint := showHint w;
         answerFeedback := answerFeedback w; riddleSolved := true;
         riddleAttempts := riddleAttempts w; mechanics := mechanics w;
         pending := rest |}
  end.

Inductive Event : Type :=
| Answer (input : string)
| TimeoutFires.

Section WithStrings.
Context {strings : StringMethods}.

Definition handle (levelData : Level) (e : Event) (w : View) : View :=
  match e with
  | Answer input => handleRiddleSubmit levelData (setRiddleAnswer input w)
  | TimeoutFires => fire w
  end.

Definition handleAll (levelData : Level) (events : list Event) (w : View) : View :=
  fold_left (fun w e => handle levelData e w) events w.

(** The normalized input is the normalized answer key of the level. *)
Definition isRight (levelData : Level) (input : string) : bool :=
  String.eqb (toLowerCase (trim input))
    (match riddleData levelData with
     | Some riddle => toLowerCase (answerKey riddle)
     | None => ""
     end).

Definition isRightAnswer (levelData : Level) (e : Event) : bool :=
  match e with
  | Answer input => isRight levelData input
  | TimeoutFires => false
  end.

Definition isWrongAnswer (levelData : Level) (e : Event) : bool :=
  match e with
  | Answer input => negb (isRight levelData input)
  | TimeoutFires => false
  end.

(** The number of wrong answers among the events *)
Definition misses (levelData : Level) (events : list Event) : nat :=
  length (List.filter (isWrongAnswer levelData) events).

(** What holds of the riddle form after [events], from its first render *)
Definition formState (levelData : Level) (events : list Event) (w : View) : Prop :=
  riddleAttempts w = misses levelData events /\
  (riddleSolved w = true ->
     existsb (isRightAnswer levelData) events = true \/ 2 <= misses levelData events) /\
  (existsb (isRightAnswer levelData) events = true -> riddleSolved w = true) /\
  (2 <= misses levelData events ->
     riddleSolved w = true \/ In UnlockChoices (pending w)) /\
  (In UnlockChoices (pending w) -> 2 <= misses levelData events).

End WithStrings.

(** *** The choice buttons *)





Section HandleChoice.

(** [choice.correctItem] when it is a non-empty string: the tool the choice
    asks for.  The engine's record of a choice does not carry it. *)
Variable correctItem : Choice -> option string.



End HandleChoice.


End Screen.

(** * Statements about the loading pipeline *)

Section LoaderFacts.
Import Js.
Import FallbackData.
Import DataLoader.

(** ** The completion monad on lists *)

Lemma mapM_Normal (f : value -> completion value) items mapped :
  mapM f items = Normal mapped ->
  Forall2 (fun x y => f x = Normal y) items mapped.
Proof.
  revert mapped. induction items as [|x rest IH]; intros mapped; simpl.
  - intros H. injection H as <-. constructor.
  - destruct (f x) as [y|e] eqn:Ex; simpl; [|discriminate].
    destruct (mapM f rest) as [ys|e] eqn:Er; simpl; [|discriminate].
    intros H. injection H as <-. constructor; [exact Ex | apply IH; reflexivity].
Qed.

Lemma every_Normal_true (f : value -> completion bool) items :
  every f items = Normal true -> Forall (fun x => f x = Normal true) items.
Proof.
  induction items as [|x rest IH]; simpl; [constructor|].
  destruct (f x) as [[|]|e] eqn:Ex; simpl; try discriminate.
  intros H. constructor; [exact Ex | apply IH, H].
Qed.

Lemma get_Normal v k result :
  get v k = Normal result -> result = prop v k /\ v <> VUndefined /\ v <> VNull.
Proof.
  destruct v; simpl; try discriminate;
    intros H; injection H as <-; repeat split; discriminate.
Qed.

Lemma get_defined v k :
  v <> VUndefined -> v <> VNull -> get v k = Normal (prop v k).
Proof. destruct v; simpl; intros H1 H2; try reflexivity; contradiction. Qed.

(** ** What the defaults produce *)

Lemma js_map_Normal f v result :
  js_map f v = Normal result ->
  exists items mapped,
    v = VArr items /\ result = VArr mapped /\
    Forall2 (fun x y => f x = Normal y) items mapped.
Proof.
  destruct v; simpl; try discriminate.
  destruct (mapM f items) as [mapped|e] eqn:E; simpl; [|discriminate].
  intros H. injection H as <-. exists items, mapped.
  repeat split. apply mapM_Normal, E.
Qed.

Lemma defaultLevel_choices level level' :
  defaultLevel level = Normal level' -> isArray (prop level' "choices") = true.
Proof.
  unfold defaultLevel.
  destruct (get level "levelIndex") as [levelIndex|] eqn:E1; simpl; [|discriminate].
  destruct (get level "sceneText") as [sceneText|] eqn:E2; simpl; [|discriminate].
  destruct (get level "enrichedScene") as [enrichedScene|] eqn:E3; simpl; [|discriminate].
  destruct (get level "choices") as [choices|] eqn:E4; simpl; [|discriminate].
  destruct (js_map defaultChoice (or_else choices (VArr []))) as [choices'|] eqn:E5;
    simpl; [|discriminate].
  destruct (get level "riddleData") as [riddleData|] eqn:E6; simpl; [|discriminate].
  intros H. injection H as <-. simpl.
  apply js_map_Normal in E5. destruct E5 as (items & mapped & _ & -> & _). reflexivity.
Qed.

Lemma defaultCreature_playable creature creature' :
  hasRequiredFields creature = Normal true ->
  defaultCreature creature = Normal creature' ->
  playableCreature creature' = true.
Proof.
  unfold hasRequiredFields, defaultCreature.
  destruct (get creature "id") as [id|] eqn:E1; simpl; [|discriminate].
  apply get_Normal in E1. destruct E1 as (-> & Hu & Hn).
  rewrite !(get_defined creature) by assumption. simpl.
  destruct (truthy (prop creature "id")) eqn:Tid; simpl; [|discriminate].
  destruct (truthy (prop creature "name")) eqn:Tname; simpl; [|discriminate].
  destruct (prop creature "levels") as [| | | | |ls|] eqn:El; try discriminate.
  intros Hlen. injection Hlen as Hlen. apply Nat.ltb_lt in Hlen.
  unfold or_else at 3. simpl.
  destruct (mapM defaultLevel ls) as [ls'|] eqn:E5; simpl; [|discriminate].
  intros H. injection H as <-.
  unfold playableCreature. simpl. unfold or_else. rewrite Tid, Tname. simpl.
  apply mapM_Normal in E5.
  assert (Hall : Forall (fun y => isArray (prop y "choices") = true) ls').
  { clear -E5. induction E5 as [|a b l l' Hab _ IH]; constructor;
      [eapply defaultLevel_choices, Hab | exact IH]. }
  destruct E5 as [|level level' rest rest' Hl Hrest]; [simpl in Hlen; lia|].
  rewrite Tid, Tname. simpl.
  inversion Hall as [|? ? Hhead Htail]; subst. rewrite Hhead. simpl.
  apply forallb_forall. intros x Hx.
  rewrite Forall_forall in Htail. apply Htail. apply list_elem_of_In. exact Hx.
Qed.

Lemma applySafeDefaults_playable data result :
  validateCreatureData data = Normal true ->
  applySafeDefaultsToCreatureData data = Normal result ->
  playable result = true.
Proof.
  unfold validateCreatureData, applySafeDefaultsToCreatureData.
  destruct (truthy data) eqn:Tdata; simpl; [|discriminate].
  destruct (typeof_object data) eqn:Odata; simpl; [|discriminate].
  destruct (get data "creatures") as [creatures|] eqn:E1; simpl; [|discriminate].
  apply get_Normal in E1. destruct E1 as (-> & _ & _).
  destruct (prop data "creatures") as [| | | | |items|]; try discriminate.
  intros Hevery. simpl.
  destruct (mapM defaultCreature items) as [mapped|] eqn:E2; simpl; [|discriminate].
  intros H. injection H as <-.
  unfold playable, allItems. simpl.
  apply every_Normal_true in Hevery. apply mapM_Normal in E2.
  induction E2 as [|x y l l' Hxy _ IH]; simpl; [reflexivity|].
  inversion Hevery as [|? ? Hx Hl]; subst.
  rewrite (defaultCreature_playable _ _ Hx Hxy). simpl. apply IH, Hl.
Qed.

(** ** The loads never reject *)

(** The creature load resolves, to the fallback or to the defaulted payload
    of an accepted fetch. *)
Lemma loadCreatureData_cases outcome :
  loadCreatureData outcome = Normal fallbackCreatureData \/
  exists data result,
    delivered outcome = Some data /\
    validateCreatureData data = Normal true /\
    applySafeDefaultsToCreatureData data = Normal result /\
    loadCreatureData outcome = Normal result.
Proof.
  unfold loadCreatureData, loadCreatureData_try.
  destruct outcome as [e | [|] [|data]]; simpl; try (left; reflexivity).
  destruct (validateCreatureData data) as [[|]|e] eqn:Ev; simpl; try (left; reflexivity).
  destruct (applySafeDefaultsToCreatureData data) as [result|e] eqn:Ed; simpl;
    [|left; reflexivity].
  right. exists data, result. repeat split; assumption.
Qed.

Lemma loadCreatureData_fails outcome :
  creatureFetchFails outcome -> loadCreatureData outcome = Normal fallbackCreatureData.
Proof.
  unfold creatureFetchFails, loadCreatureData, loadCreatureData_try.
  destruct outcome as [e | [|] [|data]]; simpl; try reflexivity.
  destruct (validateCreatureData data) as [[|]|e]; simpl; try reflexivity.
  intros H. contradiction H. reflexivity.
Qed.

Lemma loadUIConfig_cases outcome :
  loadUIConfig outcome = Normal fallbackUIConfig \/
  exists config,
    delivered outcome = Some config /\
    validateUIConfig config = true /\
    loadUIConfig outcome = Normal (applySafeDefaultsToUIConfig config).
Proof.
  unfold loadUIConfig, loadUIConfig_try.
  destruct outcome as [e | [|] [|config]]; simpl; try (left; reflexivity).
  destruct (validateUIConfig config) eqn:Ev; simpl; [|left; reflexivity].
  right. exists config. repeat split; assumption.
Qed.

Lemma loadUIConfig_fails outcome :
  uiFetchFails outcome -> loadUIConfig outcome = Normal fallbackUIConfig.
Proof.
  unfold uiFetchFails, loadUIConfig, loadUIConfig_try.
  destruct outcome as [e | [|] [|config]]; simpl; try reflexivity.
  intros ->. reflexivity.
Qed.

Lemma loadCreatureData_resolves outcome :
  exists creatureData, loadCreatureData outcome = Normal creatureData.
Proof.
  destruct (loadCreatureData_cases outcome) as [H | (data & result & _ & _ & _ & H)];
    eexists; exact H.
Qed.

Lemma loadUIConfig_resolves outcome :
  exists uiConfig, loadUIConfig outcome = Normal uiConfig.
Proof.
  destruct (loadUIConfig_cases outcome) as [H | (config & _ & _ & H)];
    eexists; exact H.
Qed.

Lemma loadAllGameData_pair creatureFetch uiFetch creatureData uiConfig :
  loadCreatureData creatureFetch = Normal creatureData ->
  loadUIConfig uiFetch = Normal uiConfig ->
  loadAllGameData creatureFetch uiFetch = Normal (creatureData, uiConfig).
Proof. intros Hc Hu. unfold loadAllGameData. rewrite Hc, Hu. reflexivity. Qed.

Lemma fallback_structurallyValid : structurallyValid fallbackCreatureData = true.
Proof. vm_compute. reflexivity. Qed.

Lemma fallback_playable : playable fallbackCreatureData = true.
Proof. vm_compute. reflexivity. Qed.

Lemma fallbackUIConfig_valid : validateUIConfig fallbackUIConfig = true.
Proof. vm_compute. reflexivity. Qed.

(** C2, as the code has it.  Whatever the two fetches do, the load returns a
    repository and a UI configuration; in the repository every creature has
    an id, a name and at least one level, and every level an array of
    choices; and whenever the creature fetch fails (transport error,
    non-success status, unparseable body, payload rejected by the validator)
    the repository is the embedded one, in which every creature has exactly 3
    levels of exactly 2 choices. *)
Theorem loaded_repository_shape creatureFetch uiFetch :
  exists creatureData uiConfig,
    loadAllGameData creatureFetch uiFetch = Normal (creatureData, uiConfig) /\
    playable creatureData = true /\
    (creatureFetchFails creatureFetch -> structurallyValid creatureData = true).
Proof.
  destruct (loadUIConfig_resolves uiFetch) as [uiConfig Hu].
  destruct (loadCreatureData_cases creatureFetch)
    as [Hc | (data & result & Hdel & Hvalid & Hdefaults & Hc)].
  - exists fallbackCreatureData, uiConfig.
    split; [apply loadAllGameData_pair; assumption|].
    split; [apply fallback_playable | intros _; apply fallback_structurallyValid].
  - exists result, uiConfig.
    split; [apply loadAllGameData_pair; assumption|].
    split; [eapply applySafeDefaults_playable; eassumption|].
    unfold creatureFetchFails. rewrite Hdel. intros Hfail. contradiction.
Qed.

Lemma loaded_repository_shape_witness :
  exists creatureData uiConfig,
    loadAllGameData (Rejected (FetchError "Network error"))
                    (Rejected (FetchError "Network error"))
      = Normal (creatureData, uiConfig) /\
    structurallyValid creatureData = true.
Proof.
  destruct (loaded_repository_shape (Rejected (FetchError "Network error"))
                                    (Rejected (FetchError "Network error")))
    as (creatureData & uiConfig & Hload & _ & Hvalid).
  exists creatureData, uiConfig. split; [exact Hload|].
  apply Hvalid. exact I.
Defined.

(** C2, as the specification words it, fails: the payload of the repository's own
    integration test, one creature with one level of one choice, passes the
    validator and is what the load returns. *)
Lemma partial_payload_is_served :
  exists creatureData,
    loadAllGameData (Response true (Parsed partialData)) (Response false Unparseable)
      = Normal (creatureData, fallbackUIConfig) /\
    arrayLength (prop creatureData "creatures") = Some 1%nat /\
    structurallyValid creatureData = false.
Proof.
  eexists. split; [vm_compute; reflexivity|].
  split; vm_compute; reflexivity.
Qed.

(** C8. Whatever the two fetches do, the load returns: it never rejects.
    A failing creature fetch gives the embedded creature data and a failing
    UI fetch the embedded UI configuration, both complete; and what is
    loaded for one dataset is the same whatever the fetch of the other
    does. *)
Theorem loading_is_total creatureFetch uiFetch :
  exists creatureData uiConfig,
    loadAllGameData creatureFetch uiFetch = Normal (creatureData, uiConfig) /\
    (creatureFetchFails creatureFetch -> creatureData = fallbackCreatureData) /\
    (uiFetchFails uiFetch -> uiConfig = fallbackUIConfig) /\
    (forall otherUi, exists uiConfig',
        loadAllGameData creatureFetch otherUi = Normal (creatureData, uiConfig')) /\
    (forall otherCreature, exists creatureData',
        loadAllGameData otherCreature uiFetch = Normal (creatureData', uiConfig)) /\
    structurallyValid fallbackCreatureData = true /\
    validateUIConfig fallbackUIConfig = true.
Proof.
  destruct (loadCreatureData_resolves creatureFetch) as [creatureData Hc].
  destruct (loadUIConfig_resolves uiFetch) as [uiConfig Hu].
  exists creatureData, uiConfig.
  split; [apply loadAllGameData_pair; assumption|].
  split; [|split; [|split; [|split; [|split]]]].
  - intros Hfail. apply loadCreatureData_fails in Hfail. congruence.
  - intros Hfail. apply loadUIConfig_fails in Hfail. congruence.
  - intros otherUi. destruct (loadUIConfig_resolves otherUi) as [uiConfig' Hu'].
    exists uiConfig'. apply loadAllGameData_pair; assumption.
  - intros otherCreature.
    destruct (loadCreatureData_resolves otherCreature) as [creatureData' Hc'].
    exists creatureData'. apply loadAllGameData_pair; assumption.
  - apply fallback_structurallyValid.
  - apply fallbackUIConfig_valid.
Qed.

Lemma loading_is_total_witness :
  exists creatureData,
    loadAllGameData (Response true (Parsed partialData)) (Response false Unparseable)
      = Normal (creatureData, fallbackUIConfig).
Proof.
  destruct (loading_is_total (Response true (Parsed partialData))
                             (Response false Unparseable))
    as (creatureData & uiConfig & Hload & _ & Hui & _).
  exists creatureData. rewrite Hload, (Hui I). reflexivity.
Defined.

End LoaderFacts.

(** * Statements about the engine *)

Section EngineFacts.
Import Js.
Import Engine.

(** ** One level of play *)

Lemma chosen_picked creature n i s :
  selectedCreature s = Some creature -> currentLevel s = n ->
  picked i s = chosen creature n i.
Proof.
  intros Hc Hn. unfold picked, currentChoices, getCurrentLevelData, chosen.
  rewrite Hc, Hn. destruct (levels creature !! n); simpl; [reflexivity|].
  unfold at_index. destruct (i <? 0)%Z; reflexivity.
Qed.

Lemma chosen_inv creature n i c :
  chosen creature n i = Some c ->
  exists levelData,
    levels creature !! n = Some levelData /\
    at_index (choices levelData) i = Some c.
Proof.
  unfold chosen. destruct (levels creature !! n) as [levelData|]; simpl.
  - intros H. exists levelData. split; [reflexivity | exact H].
  - discriminate.
Qed.

(** A choice at level 0 or 1, the timeout and the transition screen lead to
    the next level; only the count and the calmness meter may have moved. *)
Lemma playLevel_step creature n i c s :
  ready creature n s -> n < 2 -> chosen creature n i = Some c ->
  ready creature (n + 1) (playLevel i s) /\
  correctAnswers (playLevel i s) = correctAnswers s + gain c /\
  mechanicState (playLevel i s) = afterChoice creature n c (mechanicState s) /\
  outcome (playLevel i s) = outcome s.
Proof.
  intros (Hphase & Hsel & Hlevel & Htimers) Hn Hc.
  destruct (chosen_inv _ _ _ _ Hc) as (levelData & Hl & Hi).
  unfold ready, playLevel, makeChoice, makeChoiceFrom, afterChoice, gain.
  rewrite Hsel, Hphase, Hlevel, Hl, Hi. simpl.
  assert (Hn2 : (n =? 2)%nat = false) by (apply Nat.eqb_neq; lia).
  rewrite Hn2.
  destruct (isCorrect c), (String.eqb (coreMechanic creature) "calmness");
    simpl; unfold fireTimeout; simpl; rewrite Htimers; simpl;
    rewrite ?Hsel, ?Hlevel, ?Nat.add_0_r; repeat split; reflexivity.
Qed.

(** The choice at level 2 ends the run and settles the outcome on the count. *)
Lemma makeChoice_final creature i c s :
  ready creature 2 s -> chosen creature 2 i = Some c ->
  gameState (makeChoice i s) = end_ /\
  correctAnswers (makeChoice i s) = correctAnswers s + gain c /\
  outcome (makeChoice i s) = Some (decide_outcome (correctAnswers s + gain c)) /\
  mechanicState (makeChoice i s) = afterChoice creature 2 c (mechanicState s).
Proof.
  intros (Hphase & Hsel & Hlevel & Htimers) Hc.
  destruct (chosen_inv _ _ _ _ Hc) as (levelData & Hl & Hi).
  unfold makeChoice, makeChoiceFrom, afterChoice, gain.
  rewrite Hsel, Hphase, Hlevel, Hl, Hi. simpl.
  destruct (isCorrect c), (String.eqb (coreMechanic creature) "calmness");
    simpl; rewrite ?Nat.add_0_r; repeat split; reflexivity.
Qed.

Lemma countCorrect_three c0 c1 c2 :
  countCorrect [c0; c1; c2] = gain c0 + gain c1 + gain c2.
Proof.
  unfold countCorrect, gain.
  rewrite !filter_cons, filter_nil.
  destruct (isCorrect c0), (isCorrect c1), (isCorrect c2); reflexivity.
Qed.

(** The whole run, in one statement. *)
Lemma playThrough_result creature s i0 i1 i2 c0 c1 c2 :
  ready creature 0 s ->
  chosen creature 0 i0 = Some c0 ->
  chosen creature 1 i1 = Some c1 ->
  chosen creature 2 i2 = Some c2 ->
  let final := playThrough i0 i1 i2 s in
  gameState final = end_ /\
  correctAnswers final = correctAnswers s + countCorrect [c0; c1; c2] /\
  outcome final =
    Some (decide_outcome (correctAnswers s + countCorrect [c0; c1; c2])) /\
  mechanicState final =
    afterChoice creature 2 c2
      (afterChoice creature 1 c1 (afterChoice creature 0 c0 (mechanicState s))).
Proof.
  intros Hready H0 H1 H2. simpl. unfold playThrough.
  destruct (playLevel_step _ _ _ _ _ Hready ltac:(lia) H0) as (R1 & A1 & M1 & _).
  destruct (playLevel_step _ _ _ _ _ R1 ltac:(lia) H1) as (R2 & A2 & M2 & _).
  destruct (makeChoice_final _ _ _ _ R2 H2) as (P & A3 & O & M3).
  rewrite countCorrect_three.
  rewrite P, A3, O, M3, A2, M2, A1, M1.
  rewrite !Nat.add_assoc. repeat split; reflexivity.
Qed.

(** ** From the selection screen to the first level *)

(** What advancing the story leaves alone *)
Lemma advanceStoryBubble_frame s :
  selectedCreature (advanceStoryBubble s) = selectedCreature s /\
  currentLevel (advanceStoryBubble s) = currentLevel s /\
  correctAnswers (advanceStoryBubble s) = correctAnswers s /\
  timers (advanceStoryBubble s) = timers s.
Proof.
  unfold advanceStoryBubble.
  destruct (selectedCreature s) as [creature|] eqn:E; [|repeat split; exact E].
  destruct (storyBubbleIndex s <? _)%nat; simpl; repeat split; exact E.
Qed.

Lemma advanceStoryBubble_index s creature :
  selectedCreature s = Some creature ->
  let totalBubbles := if String.eqb (id creature) "aswang" then 5 else 4 in
  (storyBubbleIndex s < totalBubbles - 1 ->
     storyBubbleIndex (advanceStoryBubble s) = storyBubbleIndex s + 1) /\
  (totalBubbles - 1 <= storyBubbleIndex s ->
     gameState (advanceStoryBubble s) = level).
Proof.
  intros Hsel totalBubbles. unfold advanceStoryBubble. rewrite Hsel.
  fold totalBubbles.
  destruct (storyBubbleIndex s <? totalBubbles - 1)%nat eqn:E.
  - apply Nat.ltb_lt in E. split; [reflexivity | lia].
  - apply Nat.ltb_ge in E. split; [lia | reflexivity].
Qed.

Lemma advanceStoryBubble_iter k s creature :
  selectedCreature s = Some creature ->
  storyBubbleIndex s = 0 ->
  k <= (if String.eqb (id creature) "aswang" then 5 else 4) - 1 ->
  storyBubbleIndex (Nat.iter k advanceStoryBubble s) = k /\
  selectedCreature (Nat.iter k advanceStoryBubble s) = Some creature /\
  currentLevel (Nat.iter k advanceStoryBubble s) = currentLevel s /\
  correctAnswers (Nat.iter k advanceStoryBubble s) = correctAnswers s /\
  timers (Nat.iter k advanceStoryBubble s) = timers s.
Proof.
  intros Hsel Hzero. induction k as [|k IH]; intros Hk.
  - simpl. repeat split; assumption.
  - destruct (IH ltac:(lia)) as (Hi & Hs & Hl & Hc & Ht).
    change (Nat.iter (S k) advanceStoryBubble s)
      with (advanceStoryBubble (Nat.iter k advanceStoryBubble s)).
    destruct (advanceStoryBubble_frame (Nat.iter k advanceStoryBubble s))
      as (Fs & Fl & Fc & Ft).
    destruct (advanceStoryBubble_index _ _ Hs) as [Hnext _].
    rewrite Fs, Fl, Fc, Ft, Hs, Hl, Hc, Ht, Hnext by lia.
    repeat split. lia.
Qed.

(** The application's way to the first level leaves the session ready for
    a run, with a zero count. *)
Lemma reachFirstLevel_ready creatures creatureId creature :
  findCreature creatures creatureId = Some creature ->
  ready creature 0 (reachFirstLevel (Some creatures) creatureId) /\
  correctAnswers (reachFirstLevel (Some creatures) creatureId) = 0.
Proof.
  intros Hfind.
  assert (Hid : id creature = creatureId).
  { unfold findCreature in Hfind. apply find_some in Hfind.
    destruct Hfind as [_ Heq]. apply String.eqb_eq in Heq. exact Heq. }
  subst creatureId. unfold reachFirstLevel.
  set (s := completeCloseUpAnimation
              (completeEntranceAnimation
                (selectCreature (Some creatures) (id creature) (startGame initialSession)))).
  assert (Hs : selectedCreature s = Some creature /\ storyBubbleIndex s = 0 /\
               currentLevel s = 0 /\ correctAnswers s = 0 /\ timers s = []).
  { unfold s, selectCreature. rewrite Hfind.
    destruct (String.eqb (coreMechanic creature) "riddle");
      [|destruct (String.eqb (coreMechanic creature) "calmness");
        [|destruct (String.eqb (coreMechanic creature) "deduction")]];
      repeat split. }
  destruct Hs as (Hsel & Hzero & Hl & Hc & Ht).
  set (totalBubbles := if String.eqb (id creature) "aswang" then 5 else 4).
  assert (Htotal : totalBubbles = S (totalBubbles - 1))
    by (unfold totalBubbles; destruct (String.eqb (id creature) "aswang"); reflexivity).
  rewrite Htotal.
  change (Nat.iter (S (totalBubbles - 1)) advanceStoryBubble s)
    with (advanceStoryBubble (Nat.iter (totalBubbles - 1) advanceStoryBubble s)).
  destruct (advanceStoryBubble_iter (totalBubbles - 1) s creature Hsel Hzero ltac:(reflexivity))
    as (Hi & Hs' & Hl' & Hc' & Ht').
  destruct (advanceStoryBubble_frame (Nat.iter (totalBubbles - 1) advanceStoryBubble s))
    as (Fs & Fl & Fc & Ft).
  destruct (advanceStoryBubble_index _ _ Hs') as [_ Hlast].
  unfold ready. rewrite Fs, Fl, Fc, Ft, Hs', Hl', Hc', Ht', Hl, Hc, Ht.
  repeat split. apply Hlast. fold totalBubbles. rewrite Hi. lia.
Qed.

Lemma decide_outcome_victory n : decide_outcome n = victory <-> 2 <= n.
Proof.
  unfold decide_outcome. destruct (2 <=? n)%nat eqn:E.
  - apply Nat.leb_le in E. split; [intros _; exact E | reflexivity].
  - apply Nat.leb_gt in E. split; [discriminate | lia].
Qed.

Lemma decide_outcome_defeat n : decide_outcome n = defeat <-> n < 2.
Proof.
  unfold decide_outcome. destruct (2 <=? n)%nat eqn:E.
  - apply Nat.leb_le in E. split; [discriminate | lia].
  - apply Nat.leb_gt in E. split; [intros _; exact E | reflexivity].
Qed.

(** C1. A complete run of three submitted choices, one per level, ends in
    phase [end]; its outcome is victory exactly when at least 2 of the 3
    chosen choices are correct and defeat otherwise; and any other complete
    run (of any creature, with any indices, in any order) with the same number
    of correct choices has the same outcome. *)
Theorem outcome_by_correct_count creature s i0 i1 i2 c0 c1 c2 :
  ready creature 0 s -> correctAnswers s = 0 ->
  chosen creature 0 i0 = Some c0 ->
  chosen creature 1 i1 = Some c1 ->
  chosen creature 2 i2 = Some c2 ->
  let final := playThrough i0 i1 i2 s in
  gameState final = end_ /\
  (outcome final = Some victory <-> 2 <= countCorrect [c0; c1; c2]) /\
  (outcome final = Some defeat <-> countCorrect [c0; c1; c2] < 2) /\
  (forall creature' s' j0 j1 j2 d0 d1 d2,
      ready creature' 0 s' -> correctAnswers s' = 0 ->
      chosen creature' 0 j0 = Some d0 ->
      chosen creature' 1 j1 = Some d1 ->
      chosen creature' 2 j2 = Some d2 ->
      countCorrect [d0; d1; d2] = countCorrect [c0; c1; c2] ->
      outcome (playThrough j0 j1 j2 s') = outcome final).
Proof.
  intros Hready Hzero H0 H1 H2 final.
  destruct (playThrough_result _ _ _ _ _ _ _ _ Hready H0 H1 H2) as (P & _ & O & _).
  fold final in P, O. rewrite Hzero in O. simpl in O.
  split; [exact P|]. rewrite O.
  split; [|split].
  - rewrite <- decide_outcome_victory. split; congruence.
  - rewrite <- decide_outcome_defeat. split; congruence.
  - intros creature' s' j0 j1 j2 d0 d1 d2 Hready' Hzero' J0 J1 J2 Hcount.
    destruct (playThrough_result _ _ _ _ _ _ _ _ Hready' J0 J1 J2) as (_ & _ & O' & _).
    rewrite O', Hzero', Hcount. reflexivity.
Qed.

Lemma outcome_by_correct_count_witness :
  let s := reachFirstLevel Content.fallbackCreatures "baba-yaga" in
  gameState (playThrough 0 1 0 s) = end_ /\
  outcome (playThrough 0 1 0 s) = Some victory.
Proof.
  intros s.
  assert (Hready : ready Content.babaYaga 0 s) by (vm_compute; repeat split; reflexivity).
  assert (Hzero : correctAnswers s = 0) by reflexivity.
  assert (H0 : chosen Content.babaYaga 0 0 = Some (Content.choiceOf Content.babaYaga 0 0))
    by reflexivity.
  assert (H1 : chosen Content.babaYaga 1 1 = Some (Content.choiceOf Content.babaYaga 1 1))
    by reflexivity.
  assert (H2 : chosen Content.babaYaga 2 0 = Some (Content.choiceOf Content.babaYaga 2 0))
    by reflexivity.
  destruct (outcome_by_correct_count _ _ _ _ _ _ _ _ Hready Hzero H0 H1 H2) as (P & V & _).
  split; [exact P|]. apply V. vm_compute. lia.
Defined.

Lemma afterChoice_calmness creature n c ms :
  coreMechanic creature = "calmness" ->
  afterChoice creature n c ms =
    if isCorrect c then ms else decreaseCalmness (decreaseAmount n) ms.
Proof.
  intros H. unfold afterChoice. rewrite H. simpl. destruct (isCorrect c); reflexivity.
Qed.

Lemma makeChoice_correct_keeps_mechanics i s c :
  picked i s = Some c -> isCorrect c = true ->
  mechanicState (makeChoice i s) = mechanicState s.
Proof.
  unfold picked, currentChoices, getCurrentLevelData, makeChoice, makeChoiceFrom.
  destruct (selectedCreature s) as [creature|]; [|reflexivity].
  destruct (bool_decide (gameState s = level)); [|reflexivity]. simpl.
  destruct (levels creature !! currentLevel s) as [levelData|]; [|reflexivity].
  intros Hi Hc. rewrite Hi, Hc. rewrite andb_false_r.
  destruct (currentLevel s =? 2)%nat; reflexivity.
Qed.

(** C3. For a calmness creature and a meter starting anywhere in [0,100], the
    meter after the three choices of a run is in [0,100] and is
    [max(0, start - 25*[incorrect at 0] - 30*[incorrect at 1] - 35*[incorrect at 2])];
    and in any session a correct choice leaves the mechanic state, the meter
    included, as it was. *)
Theorem calmness_after_run creature s start i0 i1 i2 c0 c1 c2 :
  coreMechanic creature = "calmness" ->
  ready creature 0 s ->
  calmnessLevel (mechanicState s) = Some (Int start) ->
  (0 <= start <= 100)%Z ->
  chosen creature 0 i0 = Some c0 ->
  chosen creature 1 i1 = Some c1 ->
  chosen creature 2 i2 = Some c2 ->
  (exists result,
      calmnessLevel (mechanicState (playThrough i0 i1 i2 s)) = Some (Int result) /\
      (0 <= result <= 100)%Z /\
      result = Z.max 0 (start - 25 * missed c0 - 30 * missed c1 - 35 * missed c2)) /\
  (forall s' i c, picked i s' = Some c -> isCorrect c = true ->
      mechanicState (makeChoice i s') = mechanicState s').
Proof.
  intros Hmech Hready Hstart Hrange H0 H1 H2.
  split; [|intros s' i c; apply makeChoice_correct_keeps_mechanics].
  destruct (playThrough_result _ _ _ _ _ _ _ _ Hready H0 H1 H2) as (_ & _ & _ & M).
  simpl in M. rewrite M, !afterChoice_calmness by exact Hmech.
  unfold missed.
  destruct (isCorrect c0), (isCorrect c1), (isCorrect c2); simpl; rewrite Hstart; simpl;
    eexists; (split; [reflexivity|]); lia.
Qed.

Lemma calmness_after_run_witness :
  let s := reachFirstLevel Content.fallbackCreatures "banshee" in
  calmnessLevel (mechanicState (playThrough 1 0 1 s)) = Some (Int 40).
Proof.
  intros s.
  assert (Hmech : coreMechanic Content.banshee = "calmness") by reflexivity.
  assert (Hready : ready Content.banshee 0 s) by (vm_compute; repeat split; reflexivity).
  assert (Hstart : calmnessLevel (mechanicState s) = Some (Int 100)) by reflexivity.
  assert (Hrange : (0 <= 100 <= 100)%Z) by lia.
  assert (H0 : chosen Content.banshee 0 1 = Some (Content.choiceOf Content.banshee 0 1))
    by reflexivity.
  assert (H1 : chosen Content.banshee 1 0 = Some (Content.choiceOf Content.banshee 1 0))
    by reflexivity.
  assert (H2 : chosen Content.banshee 2 1 = Some (Content.choiceOf Content.banshee 2 1))
    by reflexivity.
  destruct (calmness_after_run _ _ _ _ _ _ _ _ _ Hmech Hready Hstart Hrange H0 H1 H2)
    as ((result & Hresult & _ & Heq) & _).
  rewrite Hresult, Heq. reflexivity.
Defined.

(** ** Invalid operations *)

Lemma at_index_out_of_range {A} (items : list A) (i : Z) :
  (i < 0 \/ Z.of_nat (length items) <= i)%Z -> at_index items i = None.
Proof.
  intros H. unfold at_index. destruct (i <? 0)%Z eqn:E; [reflexivity|].
  apply Z.ltb_ge in E. apply lookup_ge_None. lia.
Qed.

Lemma findCreature_unknown creatures creatureId :
  Forall (fun c => id c <> creatureId) creatures ->
  findCreature creatures creatureId = None.
Proof.
  unfold findCreature. induction 1 as [|c rest Hc _ IH]; simpl; [reflexivity|].
  apply String.eqb_neq in Hc. rewrite Hc. exact IH.
Qed.

(** X24. Called on the render on screen, [makeChoice] in a phase other than
    [level], or with a choice index out of range, and [selectCreature] with
    an id that no creature of the repository has (or before the repository
    is there), return the session they were given, every field as it
    was. *)
Theorem invalid_operations_change_nothing :
  (forall i s, gameState s <> level -> makeChoice i s = s) /\
  (forall i s, (i < 0 \/ Z.of_nat (length (currentChoices s)) <= i)%Z ->
               makeChoice i s = s) /\
  (forall creatures creatureId s,
      Forall (fun c => id c <> creatureId) creatures ->
      selectCreature (Some creatures) creatureId s = s) /\
  (forall creatureId s, selectCreature None creatureId s = s).
Proof.
  repeat split.
  - intros i s Hphase. unfold makeChoice, makeChoiceFrom.
    destruct (selectedCreature s); [|reflexivity].
    rewrite bool_decide_eq_false_2 by exact Hphase. reflexivity.
  - intros i s Hrange. unfold makeChoice, makeChoiceFrom.
    unfold currentChoices, getCurrentLevelData in Hrange.
    destruct (selectedCreature s) as [creature|]; [|reflexivity].
    destruct (bool_decide (gameState s = level)); [|reflexivity]. simpl.
    destruct (levels creature !! currentLevel s) as [levelData|]; [|reflexivity].
    rewrite at_index_out_of_range by exact Hrange. reflexivity.
  - intros creatures creatureId s Hunknown. unfold selectCreature.
    rewrite findCreature_unknown by exact Hunknown. reflexivity.
Qed.

Lemma invalid_operations_change_nothing_witness :
  let s := reachFirstLevel Content.fallbackCreatures "aswang" in
  makeChoice 0 (restartGame s) = restartGame s /\
  makeChoice 2 s = s /\ makeChoice (-1) s = s /\
  selectCreature Content.fallbackCreatures "leshy" s = s.
Proof.
  intros s.
  destruct invalid_operations_change_nothing as (Hphase & Hindex & Hid & _).
  split; [|split; [|split]].
  - apply Hphase. vm_compute. discriminate.
  - apply Hindex. right. vm_compute. discriminate.
  - apply Hindex. left. lia.
  - apply (Hid (default [] Content.fallbackCreatures)).
    vm_compute. repeat constructor; discriminate.
Defined.

(** C7. The guard of [makeChoice] tests the phase and the creature of the
    render that created the function, not those of the session it writes
    to.  With the Banshee's first level on screen, a choice clicked and Back
    pressed before the 4.2 s of [GameplayScreen.handleChoice] are over, the
    timeout calls the [makeChoice] of the level render on the session of
    the selection screen.  That session is in phase [select] with no
    creature, and a call on the render on screen leaves it as it is; the
    late call writes the consequence text and the count and schedules a
    level transition.  At the third level the late call decides the game:
    phase [end] and a victory, with no creature selected and a count of
    0. *)
Theorem late_choice_changes_idle_session :
  let shown := reachFirstLevel Content.fallbackCreatures "banshee" in
  let home := goHome shown in
  let late := makeChoiceFrom shown 0 home in
  let third := playLevel 0 (playLevel 0 shown) in
  let late3 := makeChoiceFrom third 1 (goHome third) in
  (gameState shown = level /\ gameState home = select /\
   selectedCreature home = None /\ consequenceText home = "" /\
   correctAnswers home = 0 /\ timers home = []) /\
  makeChoice 0 home = home /\
  (late <> home /\ gameState late = select /\
   consequenceText late = consequence (Content.choiceOf Content.banshee 0 0) /\
   consequenceText late <> "" /\
   correctAnswers late = 1 /\ timers late = [0]) /\
  late = Play.performAll Content.fallbackCreatures
           [Play.StartGame; Play.SelectCreature "banshee";
            Play.CompleteEntranceAnimation; Play.CompleteCloseUpAnimation;
            Play.AdvanceStoryBubble; Play.AdvanceStoryBubble;
            Play.AdvanceStoryBubble; Play.AdvanceStoryBubble;
            Play.GoHome; Play.LateChoice 0 0] initialSession /\
  (gameState third = level /\ currentLevel third = 2 /\
   gameState (goHome third) = select /\ outcome (goHome third) = None) /\
  makeChoice 1 (goHome third) = goHome third /\
  (gameState late3 = end_ /\ outcome late3 = Some victory /\
   selectedCreature late3 = None /\ currentLevel late3 = 0 /\
   correctAnswers late3 = 0).
Proof.
  vm_compute. repeat split; try reflexivity; discriminate.
Qed.

(** ** Restart and return home *)

(** C9, as the code has it. [restartGame] moves to [characterReveal], keeps
    the selected creature and resets level index, correct count, consequence
    text and outcome as [selectCreature] does; the mechanic state it installs
    is the hook's initial three-field state, not the one-field default
    [selectCreature] installs: the session after [restartGame] is the session
    after [selectCreature] of the same id with that mechanic state put in,
    and for a riddle, calmness or deduction creature the two agree on the
    field of the creature's own mechanic.  [goHome] is the same reset with
    the creature cleared and the phase [select]. *)
Theorem restart_resets_like_select creatures creature s :
  selectedCreature s = Some creature ->
  findCreature creatures (id creature) = Some creature ->
  let fresh := selectCreature (Some creatures) (id creature) s in
  restartGame s = setMechanicState (fun _ => initialMechanicState) fresh /\
  gameState (restartGame s) = characterReveal /\
  selectedCreature (restartGame s) = Some creature /\
  currentLevel (restartGame s) = 0 /\
  correctAnswers (restartGame s) = 0 /\
  consequenceText (restartGame s) = "" /\
  outcome (restartGame s) = None /\
  mechanicState (restartGame s) = initialMechanicState /\
  (coreMechanic creature = "riddle" ->
     hintsRevealed (mechanicState fresh) = hintsRevealed (mechanicState (restartGame s))) /\
  (coreMechanic creature = "calmness" ->
     calmnessLevel (mechanicState fresh) = calmnessLevel (mechanicState (restartGame s))) /\
  (coreMechanic creature = "deduction" ->
     tokensCollected (mechanicState fresh) = tokensCollected (mechanicState (restartGame s))) /\
  goHome s = setGameState select (setSelectedCreature None (restartGame s)).
Proof.
  intros Hsel Hfind fresh. unfold fresh, selectCreature. rewrite Hfind.
  repeat split; try exact Hsel.
  - unfold restartGame. destruct s; simpl in *; subst.
    destruct (String.eqb (coreMechanic creature) "riddle");
      [|destruct (String.eqb (coreMechanic creature) "calmness");
        [|destruct (String.eqb (coreMechanic creature) "deduction")]];
      reflexivity.
  - intros ->. reflexivity.
  - intros ->. reflexivity.
  - intros ->. reflexivity.
Qed.

Lemma restart_resets_like_select_witness :
  let s := playThrough 0 0 0 (reachFirstLevel Content.fallbackCreatures "banshee") in
  gameState s = end_ /\
  gameState (restartGame s) = characterReveal /\
  selectedCreature (restartGame s) = Some Content.banshee /\
  mechanicState (restartGame s) = initialMechanicState.
Proof.
  intros s.
  assert (Hsel : selectedCreature s = Some Content.banshee) by reflexivity.
  assert (Hfind : findCreature (default [] Content.fallbackCreatures) (id Content.banshee)
                  = Some Content.banshee) by reflexivity.
  destruct (restart_resets_like_select _ _ _ Hsel Hfind)
    as (_ & P & C & _ & _ & _ & _ & M & _).
  split; [reflexivity|]. split; [exact P|]. split; [exact C | exact M].
Defined.

(** C9, as the specification words it, fails: after a run with Baba Yaga, a riddle
    creature, [restartGame] leaves a calmness meter and a token list in the
    mechanic state, which [selectCreature] of the same id does not. *)
Lemma restart_differs_from_select :
  let s := playThrough 0 0 0 (reachFirstLevel Content.fallbackCreatures "baba-yaga") in
  gameState s = end_ /\
  selectedCreature s = Some Content.babaYaga /\
  mechanicState (restartGame s) = initialMechanicState /\
  mechanicState (selectCreature Content.fallbackCreatures "baba-yaga" s) = riddleDefault /\
  restartGame s <> selectCreature Content.fallbackCreatures "baba-yaga" s.
Proof.
  intros s. repeat split.
  intros H. apply (f_equal (fun x => calmnessLevel (mechanicState x))) in H.
  vm_compute in H. discriminate.
Qed.

(** ** The level transition *)

Lemma completeLevelTransition_iter n s :
  currentLevel (Nat.iter n completeLevelTransition s) = currentLevel s + n /\
  (0 < n -> gameState (Nat.iter n completeLevelTransition s) = level).
Proof.
  induction n as [|n [IHl IHp]]; simpl.
  - split; [lia | lia].
  - rewrite IHl. split; [lia | reflexivity].
Qed.

(** C10. [completeLevelTransition] checks nothing: from any session, in any
    phase, it sets the phase to [level] and adds exactly 1 to the level
    index, and leaves the selected creature, the correct count, the outcome,
    the consequence text, the mechanic state and every other cell as they
    were; [n] calls add [n], so three calls from a fresh hook give a level
    index of 3, above 2. *)
Theorem completeLevelTransition_checks_nothing :
  (forall s,
      gameState (completeLevelTransition s) = level /\
      currentLevel (completeLevelTransition s) = currentLevel s + 1 /\
      selectedCreature (completeLevelTransition s) = selectedCreature s /\
      correctAnswers (completeLevelTransition s) = correctAnswers s /\
      outcome (completeLevelTransition s) = outcome s /\
      consequenceText (completeLevelTransition s) = consequenceText s /\
      mechanicState (completeLevelTransition s) = mechanicState s /\
      transitionFrom (completeLevelTransition s) = transitionFrom s /\
      animationState (completeLevelTransition s) = animationState s /\
      storyBubbleIndex (completeLevelTransition s) = storyBubbleIndex s /\
      timers (completeLevelTransition s) = timers s) /\
  (forall n s, currentLevel (Nat.iter n completeLevelTransition s) = currentLevel s + n) /\
  gameState initialSession = intro /\
  currentLevel (Nat.iter 3 completeLevelTransition initialSession) = 3.
Proof.
  split; [|split; [|split]].
  - intros s. repeat split.
  - intros n s. apply completeLevelTransition_iter.
  - reflexivity.
  - reflexivity.
Qed.

End EngineFacts.

(** * Statements about the mechanics panel *)

Section DeductionFacts.
Import Js.
Import Engine.
Import Inventory.

Lemma collected_handleTokenClick tokenId ms :
  collected (handleTokenClick tokenId ms) =
    if bool_decide (tokenId ∈ collected ms)
    then filter (fun id => id ≠ tokenId) (collected ms)
    else (collected ms ++ [tokenId])%list.
Proof.
  unfold handleTokenClick, collected at 1, merge. simpl.
  destruct (tokensCollected ms); reflexivity.
Qed.

Lemma handleTokenClick_frame tokenId ms :
  hintsRevealed (handleTokenClick tokenId ms) = hintsRevealed ms /\
  calmnessLevel (handleTokenClick tokenId ms) = calmnessLevel ms /\
  selectedItem (handleTokenClick tokenId ms) = selectedItem ms.
Proof.
  unfold handleTokenClick, merge. simpl.
  destruct (hintsRevealed ms), (calmnessLevel ms), (selectedItem ms); repeat split.
Qed.

(** Membership after one click *)
Lemma elem_of_handleTokenClick x tokenId ms :
  x ∈ collected (handleTokenClick tokenId ms) <->
  (x = tokenId /\ tokenId ∉ collected ms) \/ (x ≠ tokenId /\ x ∈ collected ms).
Proof.
  rewrite collected_handleTokenClick. case_bool_decide as Hin.
  - rewrite list_elem_of_filter. split.
    + intros [Hne Hx]. right. split; assumption.
    + intros [[-> Hnot] | [Hne Hx]]; [contradiction | split; assumption].
  - rewrite elem_of_app, list_elem_of_singleton. split.
    + intros [Hx | ->].
      * right. split; [intros ->; contradiction | assumption].
      * left. split; [reflexivity | assumption].
    + intros [[-> _] | [_ Hx]]; [right; reflexivity | left; assumption].
Qed.

Lemma NoDup_handleTokenClick tokenId ms :
  NoDup (collected ms) -> NoDup (collected (handleTokenClick tokenId ms)).
Proof.
  intros Hnd. rewrite collected_handleTokenClick. case_bool_decide as Hin.
  - apply NoDup_filter. exact Hnd.
  - apply NoDup_app. split; [exact Hnd|]. split; [|apply NoDup_singleton].
    intros x Hx Hx'. apply list_elem_of_singleton in Hx'. subst. contradiction.
Qed.

Lemma elem_of_toggle_twice x tokenId ms :
  x ∈ collected (handleTokenClick tokenId (handleTokenClick tokenId ms)) <->
  x ∈ collected ms.
Proof.
  rewrite elem_of_handleTokenClick. rewrite !elem_of_handleTokenClick.
  destruct (decide (x = tokenId)) as [-> | Hne];
    destruct (decide (tokenId ∈ collected ms)); tauto.
Qed.

(** C4. On a duplicate-free token collection, a click on a token adds it if
    it is absent and removes it if it is present, touches no other token and
    no other field, and keeps the collection duplicate-free; two clicks on
    the same token give back the original mechanic state up to the set (and,
    the collection being duplicate-free, up to the order) of the collected
    tokens. *)
Theorem token_toggle tokenId ms :
  NoDup (collected ms) ->
  let once := handleTokenClick tokenId ms in
  let twice := handleTokenClick tokenId once in
  (tokenId ∉ collected ms -> tokenId ∈ collected once) /\
  (tokenId ∈ collected ms -> tokenId ∉ collected once) /\
  (forall other, other ≠ tokenId -> (other ∈ collected once <-> other ∈ collected ms)) /\
  NoDup (collected once) /\
  tokenSet twice = tokenSet ms /\
  collected twice ≡ₚ collected ms /\
  hintsRevealed twice = hintsRevealed ms /\
  calmnessLevel twice = calmnessLevel ms /\
  selectedItem twice = selectedItem ms.
Proof.
  intros Hnd. cbv zeta.
  split; [|split; [|split; [|split; [|split; [|split]]]]].
  - intros Hnot. apply elem_of_handleTokenClick. left. split; [reflexivity | exact Hnot].
  - intros Hin Hin'. apply elem_of_handleTokenClick in Hin'.
    destruct Hin' as [[_ Hnot] | [Hne _]]; [contradiction | apply Hne; reflexivity].
  - intros other Hne. rewrite elem_of_handleTokenClick. tauto.
  - apply NoDup_handleTokenClick. exact Hnd.
  - unfold tokenSet. apply set_eq. intros x.
    rewrite !elem_of_list_to_set. apply elem_of_toggle_twice.
  - apply NoDup_Permutation.
    + apply NoDup_handleTokenClick, NoDup_handleTokenClick. exact Hnd.
    + exact Hnd.
    + intros x. apply elem_of_toggle_twice.
  - destruct (handleTokenClick_frame tokenId (handleTokenClick tokenId ms)) as (H1 & H2 & H3).
    destruct (handleTokenClick_frame tokenId ms) as (K1 & K2 & K3).
    rewrite H1, H2, H3, K1, K2, K3. repeat split.
Qed.

Lemma token_toggle_witness :
  let ms := handleTokenClick "no-shadow" deductionDefault in
  collected (handleTokenClick "salt-reaction" ms) = ["no-shadow"; "salt-reaction"] /\
  ("no-shadow" ∉ collected (handleTokenClick "no-shadow" ms)) /\
  tokenSet (handleTokenClick "no-shadow" (handleTokenClick "no-shadow" ms)) = tokenSet ms.
Proof.
  intros ms.
  assert (Hnd : NoDup (collected ms)) by (vm_compute; repeat constructor; set_solver).
  destruct (token_toggle "no-shadow" ms Hnd) as (_ & Hremove & _ & _ & Hset & _).
  split; [reflexivity|]. split; [|exact Hset].
  apply Hremove. vm_compute. repeat constructor.
Defined.

Lemma validateCombination_iff ms :
  validateCombination ms = true <->
  exists pair, pair ∈ validPairs /\ pair ⊆ tokenSet ms.
Proof.
  unfold validateCombination, validCombinations, validPairs, tokenSet. simpl.
  rewrite !orb_true_iff, !andb_true_iff, !bool_decide_eq_true. split.
  - intros [[H1 [H2 _]] | [[H1 [H2 _]] | [[H1 [H2 _]] | H]]]; [| | |discriminate].
    + exists {[ "reversed-reflection"; "no-shadow" ]}. split; [set_solver|].
      intros x Hx. rewrite elem_of_list_to_set.
      apply elem_of_union in Hx as [Hx | Hx]; apply elem_of_singleton in Hx;
        subst; assumption.
    + exists {[ "salt-reaction"; "garlic-aversion" ]}. split; [set_solver|].
      intros x Hx. rewrite elem_of_list_to_set.
      apply elem_of_union in Hx as [Hx | Hx]; apply elem_of_singleton in Hx;
        subst; assumption.
    + exists {[ "extended-tongue"; "leathery-wings" ]}. split; [set_solver|].
      intros x Hx. rewrite elem_of_list_to_set.
      apply elem_of_union in Hx as [Hx | Hx]; apply elem_of_singleton in Hx;
        subst; assumption.
  - intros (pair & Hpair & Hsub).
    assert (Hin : forall x, x ∈ pair -> x ∈ collected ms).
    { intros x Hx. rewrite <- (elem_of_list_to_set (C:=gset string)). apply Hsub. exact Hx. }
    repeat (apply elem_of_cons in Hpair; destruct Hpair as [-> | Hpair]).
    + left. repeat split; apply Hin; set_solver.
    + right. left. repeat split; apply Hin; set_solver.
    + right. right. left. repeat split; apply Hin; set_solver.
    + apply elem_of_nil in Hpair. contradiction.
Qed.

(** C5. The reveal test holds exactly when the collected tokens include one
    of the three valid pairs.  It is a function of the tokens collected now:
    when one pair only is included, clicking one of its tokens (which removes
    it) makes the test fail again. *)
Theorem revealed_iff_valid_pair ms :
  (validateCombination ms = true <->
     exists pair, pair ∈ validPairs /\ pair ⊆ tokenSet ms) /\
  (forall tokenId pair,
      pair ∈ validPairs -> tokenId ∈ pair -> pair ⊆ tokenSet ms ->
      (forall other, other ∈ validPairs -> other ⊆ tokenSet ms -> other = pair) ->
      validateCombination ms = true /\
      validateCombination (handleTokenClick tokenId ms) = false).
Proof.
  split; [apply validateCombination_iff|].
  intros tokenId pair Hpair Htoken Hsub Honly. split.
  - apply validateCombination_iff. exists pair. split; assumption.
  - apply not_true_is_false. intros Htrue.
    apply validateCombination_iff in Htrue. destruct Htrue as (other & Hother & Hsub').
    assert (Hin : tokenId ∈ collected ms).
    { rewrite <- (elem_of_list_to_set (C:=gset string)). apply Hsub. exact Htoken. }
    assert (Hless : forall x, x ∈ tokenSet (handleTokenClick tokenId ms) ->
                              x ≠ tokenId /\ x ∈ tokenSet ms).
    { intros x Hx. unfold tokenSet in *. rewrite elem_of_list_to_set in Hx.
      apply elem_of_handleTokenClick in Hx.
      destruct Hx as [[_ Hnot] | [Hne Hx]]; [contradiction|].
      split; [exact Hne | rewrite elem_of_list_to_set; exact Hx]. }
    assert (Heq : other = pair).
    { apply Honly; [exact Hother|]. intros x Hx. apply Hless, Hsub'. exact Hx. }
    subst other. destruct (Hless tokenId (Hsub' _ Htoken)) as [Hne _].
    apply Hne. reflexivity.
Qed.

Lemma revealed_iff_valid_pair_witness :
  let ms := handleTokenClick "garlic-aversion"
              (handleTokenClick "no-shadow"
                (handleTokenClick "salt-reaction" deductionDefault)) in
  validateCombination ms = true /\
  validateCombination (handleTokenClick "salt-reaction" ms) = false.
Proof.
  intros ms.
  destruct (revealed_iff_valid_pair ms) as [_ Hrevert].
  apply (Hrevert "salt-reaction" {[ "salt-reaction"; "garlic-aversion" ]}).
  - unfold validPairs. repeat constructor.
  - apply elem_of_union_l, elem_of_singleton. reflexivity.
  - intros x Hx. unfold tokenSet. rewrite elem_of_list_to_set.
    apply elem_of_union in Hx as [Hx | Hx]; apply elem_of_singleton in Hx; subst;
      vm_compute; repeat constructor.
  - intros other Hother Hsub.
    assert (Hin : forall x, x ∈ other -> x ∈ collected ms).
    { intros x Hx. rewrite <- (elem_of_list_to_set (C:=gset string)). apply Hsub, Hx. }
    repeat (apply elem_of_cons in Hother; destruct Hother as [-> | Hother]).
    + exfalso. assert (H : "reversed-reflection" ∈ collected ms)
        by (apply Hin, elem_of_union_l, elem_of_singleton; reflexivity).
      vm_compute in H.
      repeat (apply elem_of_cons in H; destruct H as [H | H]; [discriminate|]).
      apply elem_of_nil in H. exact H.
    + reflexivity.
    + exfalso. assert (H : "extended-tongue" ∈ collected ms)
        by (apply Hin, elem_of_union_l, elem_of_singleton; reflexivity).
      vm_compute in H.
      repeat (apply elem_of_cons in H; destruct H as [H | H]; [discriminate|]).
      apply elem_of_nil in H. exact H.
    + apply elem_of_nil in Hother. contradiction.
Defined.

End DeductionFacts.

Section RiddleFacts.
Import Js.
Import Engine.

Context {strings : StringMethods}.

(** The feedback strings, as the verdict reads them *)
Lemma includes_Correct :
  includes "Correct" "Correct! The witch is pleased." = true /\
  includes "Correct" "Incorrect. The witch frowns." = false /\
  includes "Correct" "Correct! The witch is pleased. You may proceed." = true /\
  includes "Correct" "Incorrect again. The witch sighs and lets you pass anyway." = false.
Proof. repeat split. Qed.

Lemma plus_one_after_or_zero h :
  plus (or_zero (Some (Int h))) 1 = Int (h + 1).
Proof. reflexivity. Qed.


End RiddleFacts.

(** The riddle forms on ASCII answers, where [trim] and [toLowerCase] are the
  same in every runtime. *)
Section RiddleFactsOnAscii.
Import Js.
Import Engine.

#[local] Existing Instance asciiStrings.



End RiddleFactsOnAscii.

(** * More about the engine: invariants of every reachable session *)

Section ReachableFacts.
Import Js.
Import Engine.
Import Play.

(** What holds of every render and is kept by every action holds after any
    run. *)
Lemma run_invariant (P : Session -> Prop) (Q : Action -> Prop) data :
  (forall past a s, Q a -> Forall P past -> P s -> P (perform data past a s)) ->
  forall actions past s,
    Forall Q actions -> Forall P past -> P s -> P (run data actions past s).
Proof.
  intros Hstep actions. induction actions as [|a rest IH]; intros past s HQ Hpast HP.
  - exact HP.
  - inversion HQ as [|? ? Ha Hrest]; subst. simpl. apply IH.
    + exact Hrest.
    + constructor; assumption.
    + apply Hstep; assumption.
Qed.

Lemma performAll_invariant (P : Session -> Prop) (Q : Action -> Prop) data :
  (forall past a s, Q a -> Forall P past -> P s -> P (perform data past a s)) ->
  forall actions s, Forall Q actions -> P s -> P (performAll data actions s).
Proof.
  intros Hstep actions s HQ HP. unfold performAll.
  apply (run_invariant P Q data Hstep); [exact HQ | constructor | exact HP].
Qed.

(** A late choice that is on time is a choice on the render on screen. *)
Lemma makeChoiceFrom_sameDeps render i s :
  sameDeps render s -> makeChoiceFrom render i s = makeChoice i s.
Proof.
  intros (Hsel & Hlevel & Hphase & Hcount). unfold makeChoice, makeChoiceFrom.
  rewrite Hsel, Hlevel, Hphase, Hcount. reflexivity.
Qed.

(** What is kept by the actions on the render on screen holds after any
    timely run. *)
Lemma timely_invariant (P : Session -> Prop) (Q : Action -> Prop) data :
  (forall i, Q (MakeChoice i)) ->
  (forall past a s, Q a -> onScreen a -> P s -> P (perform data past a s)) ->
  forall actions past s,
    Forall Q actions -> timely data actions past s -> P s -> P (run data actions past s).
Proof.
  intros HQ Hstep actions. induction actions as [|a rest IH]; intros past s Hall Ht HP.
  - exact HP.
  - inversion Hall as [|? ? Ha Hrest]; subst. destruct Ht as [Hon Ht]. simpl.
    apply IH; [exact Hrest | exact Ht |].
    destruct a; try (apply Hstep; [exact Ha | exact I | exact HP]).
    simpl in *. destruct (past !! age) as [render|] eqn:E; [|exact HP].
    rewrite (makeChoiceFrom_sameDeps render choiceIndex s (Hon render eq_refl)).
    exact (Hstep past (MakeChoice choiceIndex) s (HQ choiceIndex) I HP).
Qed.

(** What a call of [makeChoice] does to the session, whichever render made
    the function: nothing, or the writes of one choice of that render's
    level. *)
Lemma makeChoiceFrom_cases render i s :
  makeChoiceFrom render i s = s \/
  exists creature levelData choice,
    selectedCreature render = Some creature /\
    gameState render = level /\
    levels creature !! currentLevel render = Some levelData /\
    at_index (choices levelData) i = Some choice /\
    selectedCreature (makeChoiceFrom render i s) = selectedCreature s /\
    currentLevel (makeChoiceFrom render i s) = currentLevel s /\
    consequenceText (makeChoiceFrom render i s) = consequence choice /\
    mechanicState (makeChoiceFrom render i s) =
      (if String.eqb (coreMechanic creature) "calmness" && negb (isCorrect choice)
       then decreaseCalmness (decreaseAmount (currentLevel render)) (mechanicState s)
       else mechanicState s) /\
    correctAnswers (makeChoiceFrom render i s) =
      (if isCorrect choice then correctAnswers render + 1 else correctAnswers s) /\
    (currentLevel render = 2 ->
       gameState (makeChoiceFrom render i s) = end_ /\
       outcome (makeChoiceFrom render i s) =
         Some (decide_outcome (if isCorrect choice then correctAnswers render + 1
                               else correctAnswers render)) /\
       timers (makeChoiceFrom render i s) = timers s) /\
    (currentLevel render <> 2 ->
       gameState (makeChoiceFrom render i s) = gameState s /\
       outcome (makeChoiceFrom render i s) = outcome s /\
       timers (makeChoiceFrom render i s) = (timers s ++ [currentLevel render])%list).
Proof.
  unfold makeChoiceFrom.
  destruct (selectedCreature render) as [creature|] eqn:Hsel; [|left; reflexivity].
  destruct (bool_decide (gameState render = level)) eqn:Hphase; simpl;
    [|left; reflexivity].
  apply bool_decide_eq_true in Hphase.
  destruct (levels creature !! currentLevel render) as [levelData|] eqn:Hl;
    [|left; reflexivity].
  destruct (at_index (choices levelData) i) as [choice|] eqn:Hat; [|left; reflexivity].
  right. exists creature, levelData, choice.
  do 4 (split; [first [reflexivity | assumption]|]).
  destruct (currentLevel render =? 2)%nat eqn:E;
    [apply Nat.eqb_eq in E | apply Nat.eqb_neq in E];
    destruct (isCorrect choice), (String.eqb (coreMechanic creature) "calmness");
    simpl; repeat split; intros; first [reflexivity | contradiction].
Qed.

(** *** Phase [end] *)

Lemma makeChoiceFrom_concluded render i s :
  concluded s -> concluded (makeChoiceFrom render i s).
Proof.
  intros H.
  destruct (makeChoiceFrom_cases render i s)
    as [-> | (creature & levelData & choice & _ & _ & _ & _ & _ & _ & _ & _ & _ & H2 & Hn2)];
    [exact H|].
  unfold concluded. destruct (Nat.eq_dec (currentLevel render) 2) as [E | E].
  - destruct (H2 E) as (_ & -> & _). discriminate.
  - destruct (Hn2 E) as (-> & -> & _). exact H.
Qed.

Lemma perform_concluded data past a s : concluded s -> concluded (perform data past a s).
Proof.
  destruct a; simpl.
  - intros _. unfold concluded. simpl. discriminate.
  - unfold selectCreature. destruct data as [creatures|]; [|tauto].
    destruct (findCreature creatures creatureId) as [creature|]; [|tauto].
    intros _. unfold concluded.
    destruct (String.eqb (coreMechanic creature) "riddle");
      [|destruct (String.eqb (coreMechanic creature) "calmness");
        [|destruct (String.eqb (coreMechanic creature) "deduction")]];
      simpl; discriminate.
  - unfold concluded. simpl. tauto.
  - intros _. unfold concluded. simpl. discriminate.
  - unfold concluded, advanceStoryBubble.
    destruct (selectedCreature s) as [creature|]; [|tauto].
    destruct (storyBubbleIndex s <? _)%nat; simpl; [tauto | discriminate].
  - apply makeChoiceFrom_concluded.
  - destruct (past !! age) as [render|]; [apply makeChoiceFrom_concluded | tauto].
  - unfold concluded, fireTimeout. destruct (timers s); [tauto|]. simpl. discriminate.
  - intros _. unfold concluded. simpl. discriminate.
  - intros _. unfold concluded. simpl. discriminate.
  - intros _. unfold concluded. simpl. discriminate.
  - unfold concluded. simpl. tauto.
Qed.

Lemma makeChoice_decided i s : decided s -> decided (makeChoice i s).
Proof.
  unfold decided, makeChoice, makeChoiceFrom. intros H.
  destruct (selectedCreature s) as [creature|] eqn:Hsel; [|rewrite ?Hsel; exact H].
  destruct (bool_decide (gameState s = level)) eqn:Hphase; simpl;
    [|rewrite ?Hsel; exact H].
  apply bool_decide_eq_true in Hphase.
  destruct (levels creature !! currentLevel s) as [levelData|] eqn:Hl;
    [|rewrite ?Hsel; exact H].
  destruct (at_index (choices levelData) i) as [choice|]; [|rewrite ?Hsel; exact H].
  destruct (currentLevel s =? 2)%nat eqn:E.
  - apply Nat.eqb_eq in E. rewrite E in Hl.
    destruct (isCorrect choice), (String.eqb (coreMechanic creature) "calmness");
      simpl; intros _; (split; [exact E|]); (split; [reflexivity|]);
      exists creature, levelData; (split; [exact Hsel | exact Hl]).
  - destruct (isCorrect choice), (String.eqb (coreMechanic creature) "calmness");
      simpl; rewrite Hphase; discriminate.
Qed.

Lemma perform_decided data past a s :
  onScreen a -> decided s -> decided (perform data past a s).
Proof.
  intros Hon. destruct a; simpl.
  - intros _. unfold decided. simpl. discriminate.
  - unfold selectCreature. destruct data as [creatures|]; [|tauto].
    destruct (findCreature creatures creatureId) as [creature|]; [|tauto].
    intros _. unfold decided.
    destruct (String.eqb (coreMechanic creature) "riddle");
      [|destruct (String.eqb (coreMechanic creature) "calmness");
        [|destruct (String.eqb (coreMechanic creature) "deduction")]];
      simpl; discriminate.
  - unfold decided. simpl. tauto.
  - intros _. unfold decided. simpl. discriminate.
  - unfold decided, advanceStoryBubble.
    destruct (selectedCreature s) as [creature|] eqn:Hsel; [|rewrite Hsel; tauto].
    destruct (storyBubbleIndex s <? _)%nat; simpl; [rewrite Hsel; tauto | discriminate].
  - apply makeChoice_decided.
  - destruct Hon.
  - unfold decided, fireTimeout. destruct (timers s); [tauto|]. simpl. discriminate.
  - intros _. unfold decided. simpl. discriminate.
  - intros _. unfold decided. simpl. discriminate.
  - intros _. unfold decided. simpl. discriminate.
  - unfold decided. simpl. tauto.
Qed.

(** X1. After any run, choices that arrive late included, a session in
    phase [end] has an outcome to show.  When every late choice was on time
    (the creature, level, phase and count still those of the render that
    took the click), the session moreover stands at level index 2 of a
    creature that has a third level, and the outcome is the one its correct
    count decides: victory exactly from 2 correct answers on. *)
Theorem end_is_decided data actions :
  let s := performAll data actions initialSession in
  gameState s = end_ ->
  outcome s <> None /\
  (timely data actions [] initialSession ->
     currentLevel s = 2 /\
     outcome s = Some (decide_outcome (correctAnswers s)) /\
     exists creature levelData,
       selectedCreature s = Some creature /\ levels creature !! 2 = Some levelData).
Proof.
  intros s Hend. split.
  - revert Hend. fold (concluded s). unfold s.
    apply (performAll_invariant concluded (fun _ => True) data).
    + intros past a s' _ _. apply perform_concluded.
    + apply Forall_forall. intros; exact I.
    + unfold concluded. simpl. discriminate.
  - intros Htimely. revert Hend. fold (decided s). unfold s, performAll.
    apply (timely_invariant decided (fun _ => True) data).
    + intros; exact I.
    + intros past a s' _. apply perform_decided.
    + apply Forall_forall. intros; exact I.
    + exact Htimely.
    + unfold decided. simpl. discriminate.
Qed.

Lemma end_is_decided_witness :
  let seen := {| hintsRevealed := None; calmnessLevel := None; tokensCollected := None;
                 selectedItem := Some "candle" |} in
  let actions :=
    [StartGame; SelectCreature "banshee"; CompleteEntranceAnimation;
     CompleteCloseUpAnimation; AdvanceStoryBubble; AdvanceStoryBubble;
     AdvanceStoryBubble; AdvanceStoryBubble;
     UpdateMechanicState seen; LateChoice 0 0; Timeout; CompleteLevelTransition;
     MakeChoice 0; Timeout; CompleteLevelTransition; MakeChoice 1] in
  let s := performAll Content.fallbackCreatures actions initialSession in
  gameState s = end_ /\ correctAnswers s = 2 /\ outcome s = Some victory.
Proof.
  intros seen actions s.
  assert (Hend : gameState s = end_) by reflexivity.
  assert (Htimely : timely Content.fallbackCreatures actions [] initialSession).
  { simpl.
    repeat (split; [first [exact I | intros render [= <-]; repeat split]|]).
    exact I. }
  destruct (end_is_decided Content.fallbackCreatures actions Hend) as (_ & Hdecided).
  destruct (Hdecided Htimely) as (_ & Hout & _).
  split; [exact Hend|]. split; [reflexivity|]. exact Hout.
Defined.

(** *** The calmness meter *)

Lemma decreaseCalmness_within amount ms :
  (0 <= amount)%Z -> meterWithin ms -> meterWithin (decreaseCalmness amount ms).
Proof.
  unfold meterWithin, decreaseCalmness. simpl. intros Hamount H z.
  destruct (calmnessLevel ms) as [[|z0]|]; simpl; try discriminate.
  intros [= <-]. specialize (H z0 eq_refl). lia.
Qed.

Lemma decreaseAmount_nonneg n : (0 <= decreaseAmount n)%Z.
Proof. destruct n as [|[|n]]; simpl; lia. Qed.

Lemma perform_meterWithin data past a s :
  leavesMeter a ->
  meterWithin (mechanicState s) -> meterWithin (mechanicState (perform data past a s)).
Proof.
  assert (Hchoice : forall render i,
             meterWithin (mechanicState s) ->
             meterWithin (mechanicState (makeChoiceFrom render i s))).
  { intros render i H.
    destruct (makeChoiceFrom_cases render i s)
      as [-> | (creature & levelData & choice & _ & _ & _ & _ & _ & _ & _ & -> & _)];
      [exact H|].
    destruct (_ && _); [|exact H].
    apply decreaseCalmness_within; [apply decreaseAmount_nonneg | exact H]. }
  intros Ha H. destruct a; simpl; try exact H.
  - unfold selectCreature. destruct data as [creatures|]; [|exact H].
    destruct (findCreature creatures creatureId) as [creature|]; [|exact H].
    unfold meterWithin.
    destruct (String.eqb (coreMechanic creature) "riddle");
      [|destruct (String.eqb (coreMechanic creature) "calmness");
        [|destruct (String.eqb (coreMechanic creature) "deduction")]];
      simpl; try exact H; intros z; try discriminate; intros [= <-]; lia.
  - unfold advanceStoryBubble. destruct (selectedCreature s); [|exact H].
    destruct (storyBubbleIndex s <? _)%nat; exact H.
  - apply Hchoice, H.
  - destruct (past !! age) as [render|]; [apply Hchoice, H | exact H].
  - unfold fireTimeout. destruct (timers s); exact H.
  - unfold meterWithin. simpl. intros z [= <-]. lia.
  - unfold meterWithin. simpl. intros z [= <-]. lia.
  - simpl in Ha. unfold meterWithin, updateMechanicState, merge. simpl.
    rewrite Ha. simpl. destruct (calmnessLevel (mechanicState s)) eqn:E; simpl.
    + intros z Hz. apply H. rewrite E. exact Hz.
    + discriminate.
Qed.

Lemma decreaseCalmness_in_range n ms :
  meterInRange ms -> calmnessLevel ms <> None ->
  meterInRange (decreaseCalmness (decreaseAmount n) ms) /\
  calmnessLevel (decreaseCalmness (decreaseAmount n) ms) <> None.
Proof.
  unfold meterInRange, decreaseCalmness. simpl.
  destruct (calmnessLevel ms) as [[|z]|]; simpl; try tauto.
  intros Hz _. split; [|discriminate].
  destruct n as [|[|n]]; simpl; lia.
Qed.

Lemma makeChoice_meterKept i s : meterKept s -> meterKept (makeChoice i s).
Proof.
  unfold meterKept, makeChoice, makeChoiceFrom. intros [Hrange Hcalm].
  destruct (selectedCreature s) as [creature|] eqn:Hsel;
    [|rewrite Hsel; split; [exact Hrange | exact Hcalm]].
  destruct (bool_decide (gameState s = level)); simpl;
    [|rewrite Hsel; split; [exact Hrange | exact Hcalm]].
  destruct (levels creature !! currentLevel s) as [levelData|];
    [|rewrite Hsel; split; [exact Hrange | exact Hcalm]].
  destruct (at_index (choices levelData) i) as [choice|];
    [|rewrite Hsel; split; [exact Hrange | exact Hcalm]].
  destruct (String.eqb (coreMechanic creature) "calmness") eqn:Hmech.
  - apply String.eqb_eq in Hmech.
    destruct (decreaseCalmness_in_range (currentLevel s) (mechanicState s) Hrange
                (Hcalm creature eq_refl Hmech)) as [Hrange' Hsome].
    destruct (isCorrect choice), (currentLevel s =? 2)%nat; simpl;
      rewrite ?Hsel;
      (split; [assumption | intros c Hc Hm; first [exact Hsome | exact (Hcalm c Hc Hm)]]).
  - destruct (isCorrect choice), (currentLevel s =? 2)%nat; simpl;
      rewrite ?Hsel; (split; [exact Hrange | exact Hcalm]).
Qed.

Lemma perform_meterKept data past a s :
  leavesMeter a -> onScreen a -> meterKept s -> meterKept (perform data past a s).
Proof.
  intros Ha Hon [Hrange Hcalm]. destruct a; simpl.
  - split; [exact Hrange | exact Hcalm].
  - unfold selectCreature. destruct data as [creatures|]; [|split; assumption].
    destruct (findCreature creatures creatureId) as [creature|]; [|split; assumption].
    unfold meterKept, meterInRange.
    destruct (String.eqb (coreMechanic creature) "riddle") eqn:E1;
      [|destruct (String.eqb (coreMechanic creature) "calmness") eqn:E2;
        [|destruct (String.eqb (coreMechanic creature) "deduction") eqn:E3]]; simpl.
    + split; [exact I|]. intros c [= <-] Hc. rewrite Hc in E1. discriminate.
    + split; [lia|]. intros; discriminate.
    + split; [exact I|]. intros c [= <-] Hc. rewrite Hc in E2. discriminate.
    + split; [exact Hrange|]. intros c [= <-] Hc. rewrite Hc in E2. discriminate.
  - split; [exact Hrange | exact Hcalm].
  - split; [exact Hrange | exact Hcalm].
  - unfold meterKept, advanceStoryBubble.
    destruct (selectedCreature s) as [creature|] eqn:Hsel;
      [|rewrite Hsel; split; assumption].
    destruct (storyBubbleIndex s <? _)%nat; simpl; rewrite Hsel; split; assumption.
  - apply makeChoice_meterKept. split; assumption.
  - destruct Hon.
  - unfold meterKept, fireTimeout. destruct (timers s); simpl; split; assumption.
  - split; [exact Hrange | exact Hcalm].
  - unfold meterKept, meterInRange. simpl. split; [lia | intros; discriminate].
  - unfold meterKept, meterInRange. simpl. split; [lia | intros; discriminate].
  - simpl in Ha. unfold meterKept, meterInRange, updateMechanicState, merge. simpl.
    rewrite Ha. unfold meterInRange in Hrange.
    destruct (calmnessLevel (mechanicState s)) eqn:E; simpl.
    + split; [exact Hrange | intros; discriminate].
    + split; [exact I|]. intros c Hc Hm. exact (Hcalm c Hc Hm).
Qed.

(** X2. After any run, choices that arrive late included (mechanic updates
    carrying no [calmnessLevel], as those of the components), the calmness
    meter, when it is a number, is within [0,100].  When every late choice
    was on time, the meter is moreover never [NaN], and while a calmness
    creature is selected the mechanic state does hold a meter. *)
Theorem meter_stays_in_range data actions :
  Forall leavesMeter actions ->
  let s := performAll data actions initialSession in
  (forall z, calmnessLevel (mechanicState s) = Some (Int z) -> (0 <= z <= 100)%Z) /\
  (timely data actions [] initialSession ->
     calmnessLevel (mechanicState s) <> Some NaN /\
     (forall creature,
         selectedCreature s = Some creature ->
         coreMechanic creature = "calmness" ->
         exists z, calmnessLevel (mechanicState s) = Some (Int z) /\ (0 <= z <= 100)%Z)).
Proof.
  intros Hactions s. split.
  - fold (meterWithin (mechanicState s)). unfold s.
    apply (performAll_invariant (fun s => meterWithin (mechanicState s)) leavesMeter data).
    + intros past a s' Ha _. apply perform_meterWithin. exact Ha.
    + exact Hactions.
    + unfold meterWithin. simpl. intros z [= <-]. lia.
  - intros Htimely.
    assert (Hkept : meterKept s).
    { unfold s, performAll. apply (timely_invariant meterKept leavesMeter data).
      - intros; exact I.
      - intros past a s'. apply perform_meterKept.
      - exact Hactions.
      - exact Htimely.
      - unfold meterKept, meterInRange. simpl. split; [lia | intros; discriminate]. }
    destruct Hkept as [Hrange Hcalm]. unfold meterInRange in Hrange. split.
    + intros E. rewrite E in Hrange. exact Hrange.
    + intros creature Hsel Hmech. specialize (Hcalm creature Hsel Hmech).
      destruct (calmnessLevel (mechanicState s)) as [[|z]|]; try contradiction.
      exists z. split; [reflexivity | exact Hrange].
Qed.

Lemma meter_stays_in_range_witness :
  let seen := {| hintsRevealed := None; calmnessLevel := None; tokensCollected := None;
                 selectedItem := Some "candle" |} in
  let actions :=
    [StartGame; SelectCreature "banshee"; CompleteEntranceAnimation;
     CompleteCloseUpAnimation; AdvanceStoryBubble; AdvanceStoryBubble;
     AdvanceStoryBubble; AdvanceStoryBubble;
     UpdateMechanicState seen; LateChoice 0 1;
     MakeChoice 1; MakeChoice 1; MakeChoice 1; MakeChoice 1] in
  let s := performAll Content.fallbackCreatures actions initialSession in
  let tooLate :=
    [StartGame; SelectCreature "banshee"; CompleteEntranceAnimation;
     CompleteCloseUpAnimation; AdvanceStoryBubble; AdvanceStoryBubble;
     AdvanceStoryBubble; AdvanceStoryBubble;
     GoHome; SelectCreature "baba-yaga"; LateChoice 1 1] in
  calmnessLevel (mechanicState s) = Some (Int 0) /\
  calmnessLevel
    (mechanicState (performAll Content.fallbackCreatures tooLate initialSession))
    = Some NaN.
Proof.
  intros seen actions s tooLate. split; [|reflexivity].
  assert (Hactions : Forall leavesMeter actions) by (repeat constructor).
  assert (Htimely : timely Content.fallbackCreatures actions [] initialSession).
  { simpl.
    repeat (split; [first [exact I | intros render [= <-]; repeat split]|]).
    exact I. }
  destruct (meter_stays_in_range Content.fallbackCreatures actions Hactions)
    as [_ Hmeter].
  destruct (Hmeter Htimely) as [_ Hheld].
  destruct (Hheld Content.banshee eq_refl eq_refl) as (z & Hz & _).
  reflexivity.
Defined.

(** *** Creatures without a third level *)

Lemma makeChoiceFrom_undecided render i s :
  undecided render -> undecided s -> undecided (makeChoiceFrom render i s).
Proof.
  intros (_ & _ & Hshort) (Hphase & Hout & Hsel).
  destruct (makeChoiceFrom_cases render i s)
    as [-> | (creature & levelData & choice & Hc & _ & Hl & _ & Hsel' & _ & _ & _ & _
              & _ & Hn2)];
    [repeat split; assumption|].
  assert (E : currentLevel render <> 2).
  { intros E. rewrite E in Hl. apply lookup_lt_Some in Hl.
    specialize (Hshort creature Hc). lia. }
  destruct (Hn2 E) as (Hg & Ho & _). unfold undecided.
  rewrite Hg, Ho, Hsel'. repeat split; assumption.
Qed.

Lemma perform_undecided data past a s :
  shortOfLevels data ->
  Forall undecided past -> undecided s -> undecided (perform data past a s).
Proof.
  intros Hshort Hpast Hs. pose proof Hs as (Hphase & Hout & Hsel). destruct a; simpl.
  - repeat split; [discriminate | exact Hout | exact Hsel].
  - unfold selectCreature. destruct data as [creatures|];
      [|repeat split; assumption].
    destruct (findCreature creatures creatureId) as [creature|] eqn:Hfind;
      [|repeat split; assumption].
    assert (Hlen : length (levels creature) < 3).
    { specialize (Hshort creatures eq_refl). rewrite Forall_forall in Hshort.
      apply Hshort. unfold findCreature in Hfind. apply find_some in Hfind.
      apply list_elem_of_In. tauto. }
    unfold undecided.
    destruct (String.eqb (coreMechanic creature) "riddle");
      [|destruct (String.eqb (coreMechanic creature) "calmness");
        [|destruct (String.eqb (coreMechanic creature) "deduction")]];
      simpl; (split; [discriminate|]); (split; [reflexivity|]);
      intros c [= <-]; exact Hlen.
  - repeat split; assumption.
  - repeat split; [discriminate | exact Hout | exact Hsel].
  - unfold undecided, advanceStoryBubble.
    destruct (selectedCreature s) as [creature|] eqn:Hc;
      [|rewrite ?Hc; repeat split; assumption].
    destruct (storyBubbleIndex s <? _)%nat; simpl; rewrite ?Hc;
      repeat split; try assumption; discriminate.
  - apply makeChoiceFrom_undecided; exact Hs.
  - destruct (past !! age) as [render|] eqn:E; [|exact Hs].
    apply makeChoiceFrom_undecided; [|exact Hs].
    rewrite Forall_forall in Hpast. apply Hpast.
    apply list_elem_of_lookup_2 in E. exact E.
  - unfold undecided, fireTimeout. destruct (timers s); simpl;
      repeat split; try assumption; discriminate.
  - repeat split; [discriminate | exact Hout | exact Hsel].
  - repeat split; [discriminate | exact Hsel].
  - repeat split; [discriminate | discriminate].
  - repeat split; assumption.
Qed.

(** X3. The outcome is only ever set by a choice at level index 2.  When no
    creature of the repository has a third level (the validator asks for one
    level only), no sequence of actions reaches phase [end] or sets an
    outcome: such a game cannot be won or lost. *)
Theorem short_creatures_never_end data actions :
  shortOfLevels data ->
  let s := performAll data actions initialSession in
  gameState s <> end_ /\ outcome s = None.
Proof.
  intros Hshort s.
  assert (H : undecided s).
  { unfold s. apply (performAll_invariant undecided (fun _ => True) data).
    - intros past a s' _. apply perform_undecided. exact Hshort.
    - apply Forall_forall. intros; exact I.
    - unfold undecided. simpl. repeat split; discriminate. }
  destruct H as (Hphase & Hout & _). split; assumption.
Qed.

Lemma short_creatures_never_end_witness :
  let data := Content.creatureData Loaded.partialDefaults in
  let actions :=
    [StartGame; SelectCreature "test"; CompleteEntranceAnimation;
     CompleteCloseUpAnimation; AdvanceStoryBubble; AdvanceStoryBubble;
     AdvanceStoryBubble; AdvanceStoryBubble;
     MakeChoice 0; Timeout; CompleteLevelTransition; MakeChoice 0] in
  let s := performAll data actions initialSession in
  gameState s = level /\ currentLevel s = 1 /\ correctAnswers s = 1 /\
  getCurrentLevelData s = None /\ outcome s = None.
Proof.
  intros data actions s.
  assert (Hshort : shortOfLevels data).
  { intros creatures [= <-]. repeat constructor. }
  destruct (short_creatures_never_end data actions Hshort) as [_ Hout].
  do 4 (split; [reflexivity|]). exact Hout.
Defined.

End ReachableFacts.

Section StoryFacts.
Import Js.
Import Engine.
Import Play.

Lemma advanceStoryBubble_cases s creature :
  selectedCreature s = Some creature ->
  (storyBubbleIndex s < totalBubbles creature - 1 ->
     gameState (advanceStoryBubble s) = gameState s /\
     storyBubbleIndex (advanceStoryBubble s) = storyBubbleIndex s + 1) /\
  (totalBubbles creature - 1 <= storyBubbleIndex s ->
     gameState (advanceStoryBubble s) = level /\
     storyBubbleIndex (advanceStoryBubble s) = storyBubbleIndex s /\
     storyComplete (animationState (advanceStoryBubble s)) = true).
Proof.
  intros Hsel. unfold advanceStoryBubble, totalBubbles. rewrite Hsel.
  destruct (storyBubbleIndex s <? _)%nat eqn:E.
  - apply Nat.ltb_lt in E. split; [intros _; split; reflexivity | lia].
  - apply Nat.ltb_ge in E. split; [lia | intros _; repeat split].
Qed.

Lemma advanceStoryBubble_keeps s :
  selectedCreature (advanceStoryBubble s) = selectedCreature s /\
  currentLevel (advanceStoryBubble s) = currentLevel s /\
  correctAnswers (advanceStoryBubble s) = correctAnswers s /\
  timers (advanceStoryBubble s) = timers s /\
  mechanicState (advanceStoryBubble s) = mechanicState s /\
  outcome (advanceStoryBubble s) = outcome s /\
  consequenceText (advanceStoryBubble s) = consequenceText s.
Proof.
  unfold advanceStoryBubble.
  destruct (selectedCreature s) as [creature|] eqn:E; [|repeat split; exact E].
  destruct (storyBubbleIndex s <? _)%nat; simpl; repeat split; exact E.
Qed.

Lemma advanceStoryBubble_iter_keeps k s :
  selectedCreature (Nat.iter k advanceStoryBubble s) = selectedCreature s /\
  currentLevel (Nat.iter k advanceStoryBubble s) = currentLevel s /\
  correctAnswers (Nat.iter k advanceStoryBubble s) = correctAnswers s /\
  timers (Nat.iter k advanceStoryBubble s) = timers s /\
  mechanicState (Nat.iter k advanceStoryBubble s) = mechanicState s /\
  outcome (Nat.iter k advanceStoryBubble s) = outcome s /\
  consequenceText (Nat.iter k advanceStoryBubble s) = consequenceText s.
Proof.
  induction k as [|k IH]; [repeat split|].
  change (Nat.iter (S k) advanceStoryBubble s)
    with (advanceStoryBubble (Nat.iter k advanceStoryBubble s)).
  destruct IH as (I1 & I2 & I3 & I4 & I5 & I6 & I7).
  destruct (advanceStoryBubble_keeps (Nat.iter k advanceStoryBubble s))
    as (K1 & K2 & K3 & K4 & K5 & K6 & K7).
  rewrite K1, K2, K3, K4, K5, K6, K7. repeat split; assumption.
Qed.

Lemma story_before s creature k :
  selectedCreature s = Some creature -> storyBubbleIndex s = 0 ->
  k < totalBubbles creature ->
  gameState (Nat.iter k advanceStoryBubble s) = gameState s /\
  storyBubbleIndex (Nat.iter k advanceStoryBubble s) = k.
Proof.
  intros Hsel Hzero. induction k as [|k IH]; intros Hk.
  - split; [reflexivity | exact Hzero].
  - destruct (IH ltac:(lia)) as [Hphase Hindex].
    change (Nat.iter (S k) advanceStoryBubble s)
      with (advanceStoryBubble (Nat.iter k advanceStoryBubble s)).
    destruct (advanceStoryBubble_iter_keeps k s) as (Hsel' & _).
    rewrite Hsel in Hsel'.
    destruct (advanceStoryBubble_cases _ _ Hsel') as [Hnext _].
    destruct (Hnext ltac:(lia)) as [P I]. rewrite P, I, Hphase, Hindex.
    split; [reflexivity | lia].
Qed.

Lemma story_after s creature k :
  selectedCreature s = Some creature -> storyBubbleIndex s = 0 ->
  totalBubbles creature <= k ->
  gameState (Nat.iter k advanceStoryBubble s) = level /\
  storyBubbleIndex (Nat.iter k advanceStoryBubble s) = totalBubbles creature - 1 /\
  storyComplete (animationState (Nat.iter k advanceStoryBubble s)) = true.
Proof.
  intros Hsel Hzero.
  assert (Hpos : 0 < totalBubbles creature)
    by (unfold totalBubbles; destruct (String.eqb _ _); lia).
  induction k as [|k IH]; intros Hk; [lia|].
  change (Nat.iter (S k) advanceStoryBubble s)
    with (advanceStoryBubble (Nat.iter k advanceStoryBubble s)).
  destruct (advanceStoryBubble_iter_keeps k s) as (Hsel' & _).
  rewrite Hsel in Hsel'.
  destruct (advanceStoryBubble_cases _ _ Hsel') as [_ Hlast].
  destruct (decide (k = totalBubbles creature - 1)) as [-> | Hne].
  - destruct (story_before s creature (totalBubbles creature - 1) Hsel Hzero ltac:(lia))
      as [_ Hindex].
    destruct (Hlast ltac:(lia)) as (P & I & C). rewrite P, I, C, Hindex. repeat split.
  - destruct (IH ltac:(lia)) as (_ & Hindex & _).
    destruct (Hlast ltac:(lia)) as (P & I & C). rewrite P, I, C, Hindex. repeat split.
Qed.

(** X4. With a creature selected and the story at its first bubble,
    [advanceStoryBubble] has to be called 4 times (5 for the Aswang) to
    leave the story: fewer calls leave the phase as it was and count the
    bubbles; from that many calls on the phase is [level], the index rests at
    the last bubble and the story is marked complete. *)
Theorem story_takes_all_bubbles s creature :
  selectedCreature s = Some creature ->
  storyBubbleIndex s = 0 ->
  gameState s = story ->
  forall k,
    (k < totalBubbles creature ->
       gameState (Nat.iter k advanceStoryBubble s) = story /\
       storyBubbleIndex (Nat.iter k advanceStoryBubble s) = k) /\
    (totalBubbles creature <= k ->
       gameState (Nat.iter k advanceStoryBubble s) = level /\
       storyBubbleIndex (Nat.iter k advanceStoryBubble s) = totalBubbles creature - 1 /\
       storyComplete (animationState (Nat.iter k advanceStoryBubble s)) = true).
Proof.
  intros Hsel Hzero Hstory k. split.
  - intros Hk. destruct (story_before s creature k Hsel Hzero Hk) as [P I].
    rewrite P, I. split; [exact Hstory | reflexivity].
  - intros Hk. apply (story_after s creature k Hsel Hzero Hk).
Qed.

Lemma story_takes_all_bubbles_witness :
  let s := completeCloseUpAnimation
             (selectCreature Content.fallbackCreatures "aswang" (startGame initialSession)) in
  gameState (Nat.iter 4 advanceStoryBubble s) = story /\
  gameState (Nat.iter 5 advanceStoryBubble s) = level.
Proof.
  intros s.
  assert (Hsel : selectedCreature s = Some Content.aswang) by reflexivity.
  assert (Hzero : storyBubbleIndex s = 0) by reflexivity.
  assert (Hstory : gameState s = story) by reflexivity.
  split.
  - destruct (story_takes_all_bubbles s Content.aswang Hsel Hzero Hstory 4) as [Hbefore _].
    apply Hbefore. vm_compute. lia.
  - destruct (story_takes_all_bubbles s Content.aswang Hsel Hzero Hstory 5) as [_ Hafter].
    apply Hafter. vm_compute. lia.
Defined.

End StoryFacts.

Section TimingFacts.
Import Js.
Import Engine.
Import Play.

(** A valid choice before the last level, whatever timeouts are pending *)
Lemma makeChoice_before_last creature n i c s :
  gameState s = level -> selectedCreature s = Some creature ->
  currentLevel s = n -> n <> 2 -> chosen creature n i = Some c ->
  gameState (makeChoice i s) = level /\
  selectedCreature (makeChoice i s) = Some creature /\
  currentLevel (makeChoice i s) = n /\
  correctAnswers (makeChoice i s) = correctAnswers s + gain c /\
  timers (makeChoice i s) = (timers s ++ [n])%list /\
  mechanicState (makeChoice i s) = afterChoice creature n c (mechanicState s) /\
  outcome (makeChoice i s) = outcome s.
Proof.
  intros Hphase Hsel Hlevel Hn Hc.
  destruct (chosen_inv _ _ _ _ Hc) as (levelData & Hl & Hi).
  unfold makeChoice, makeChoiceFrom, afterChoice, gain.
  rewrite Hsel, Hphase, Hlevel, Hl, Hi. simpl.
  apply Nat.eqb_neq in Hn. rewrite Hn.
  destruct (isCorrect c), (String.eqb (coreMechanic creature) "calmness");
    simpl; rewrite ?Hsel, ?Hlevel, ?Hphase, ?Nat.add_0_r; repeat split; reflexivity.
Qed.

(** X5. The engine takes a second choice while the timeout of the first is
    pending: both count, both move the calmness meter, both schedule a
    timeout; and when the two timeouts and their transitions have run, the
    level index has moved by 2, past a level that was never shown. *)
Theorem second_submission_counts creature n i j ci cj s :
  ready creature n s -> n < 2 ->
  chosen creature n i = Some ci ->
  chosen creature n j = Some cj ->
  let twice := makeChoice j (makeChoice i s) in
  let settled :=
    completeLevelTransition (fireTimeout (completeLevelTransition (fireTimeout twice))) in
  gameState twice = level /\
  correctAnswers twice = correctAnswers s + gain ci + gain cj /\
  mechanicState twice =
    afterChoice creature n cj (afterChoice creature n ci (mechanicState s)) /\
  timers twice = [n; n] /\
  gameState settled = level /\
  currentLevel settled = n + 2 /\
  timers settled = [].
Proof.
  intros (Hphase & Hsel & Hlevel & Htimers) Hn Hi Hj. cbv zeta.
  destruct (makeChoice_before_last creature n i ci s Hphase Hsel Hlevel ltac:(lia) Hi)
    as (P1 & S1 & L1 & A1 & T1 & M1 & _).
  destruct (makeChoice_before_last creature n j cj _ P1 S1 L1 ltac:(lia) Hj)
    as (P2 & S2 & L2 & A2 & T2 & M2 & _).
  rewrite Htimers in T1. rewrite T1 in T2. simpl in T2.
  rewrite P2, A2, A1, M2, M1, T2.
  do 4 (split; [reflexivity|]).
  generalize dependent (makeChoice j (makeChoice i s)). intros twice _ _ L2 _ T2 _.
  assert (F : fireTimeout twice =
              setConsequenceText ""
                (setGameState levelTransition
                  (setTransitionFrom n (setTimers (fun _ => [n]) twice))))
    by (unfold fireTimeout; rewrite T2; reflexivity).
  rewrite F. unfold fireTimeout. simpl. rewrite L2. repeat split. lia.
Qed.

Lemma second_submission_counts_witness :
  let s := reachFirstLevel Content.fallbackCreatures "baba-yaga" in
  correctAnswers (makeChoice 0 (makeChoice 0 s)) = 2 /\
  timers (makeChoice 0 (makeChoice 0 s)) = [0; 0].
Proof.
  intros s.
  assert (Hready : ready Content.babaYaga 0 s) by (vm_compute; repeat split; reflexivity).
  assert (H0 : chosen Content.babaYaga 0 0 = Some (Content.choiceOf Content.babaYaga 0 0))
    by reflexivity.
  destruct (second_submission_counts _ _ _ _ _ _ _ Hready ltac:(lia) H0 H0)
    as (_ & Hcount & _ & Htimers & _).
  split; [rewrite Hcount; reflexivity | exact Htimers].
Defined.

(** X6. [goHome] does not cancel a pending timeout.  After a choice at level
    0 or 1 and a return home before the two seconds are over, the session is
    at the selection screen with no creature; when the timeout fires it moves
    that session to [levelTransition], and the transition that follows to
    phase [level] at index 1, still without a creature: there is no level to
    show there, and every choice is ignored. *)
Theorem timeout_survives_goHome creature n i c s :
  ready creature n s -> n < 2 ->
  chosen creature n i = Some c ->
  let left := goHome (makeChoice i s) in
  let fired := fireTimeout left in
  let resumed := completeLevelTransition fired in
  gameState left = select /\ selectedCreature left = None /\ timers left = [n] /\
  gameState fired = levelTransition /\ selectedCreature fired = None /\
  transitionFrom fired = n /\
  gameState resumed = level /\ currentLevel resumed = 1 /\
  selectedCreature resumed = None /\ getCurrentLevelData resumed = None /\
  (forall j, makeChoice j resumed = resumed).
Proof.
  intros (Hphase & Hsel & Hlevel & Htimers) Hn Hc. cbv zeta.
  destruct (makeChoice_before_last creature n i c s Hphase Hsel Hlevel ltac:(lia) Hc)
    as (_ & _ & _ & _ & T & _).
  rewrite Htimers in T. simpl in T.
  generalize dependent (makeChoice i s). intros chose T.
  unfold fireTimeout, goHome. simpl. rewrite T. simpl.
  do 10 (split; [reflexivity|]).
  intros j. unfold makeChoice, makeChoiceFrom. simpl. reflexivity.
Qed.

Lemma timeout_survives_goHome_witness :
  let s := reachFirstLevel Content.fallbackCreatures "banshee" in
  gameState (goHome (makeChoice 1 s)) = select /\
  gameState (fireTimeout (goHome (makeChoice 1 s))) = levelTransition.
Proof.
  intros s.
  assert (Hready : ready Content.banshee 0 s) by (vm_compute; repeat split; reflexivity).
  assert (H1 : chosen Content.banshee 0 1 = Some (Content.choiceOf Content.banshee 0 1))
    by reflexivity.
  destruct (timeout_survives_goHome _ _ _ _ _ Hready ltac:(lia) H1)
    as (Hleft & _ & _ & Hfired & _).
  split; [exact Hleft | exact Hfired].
Defined.

Lemma merge_assoc prev u1 u2 :
  merge (merge prev u1) u2 = merge prev (merge u1 u2).
Proof.
  unfold merge. simpl.
  destruct (hintsRevealed prev), (hintsRevealed u1), (hintsRevealed u2),
    (calmnessLevel prev), (calmnessLevel u1), (calmnessLevel u2),
    (tokensCollected prev), (tokensCollected u1), (tokensCollected u2),
    (selectedItem prev), (selectedItem u1), (selectedItem u2); reflexivity.
Qed.

(** X7. Mechanic updates merge key by key: a key of the update replaces the
    stored one and an absent key keeps it, so an update of one mechanic never
    disturbs the fields of another; two updates in a row are one update with
    their merge, the later winning on the keys both carry. *)
Theorem mechanic_updates_merge updates s :
  hintsRevealed (mechanicState (updateMechanicState updates s))
    = from_option Some (hintsRevealed (mechanicState s)) (hintsRevealed updates) /\
  calmnessLevel (mechanicState (updateMechanicState updates s))
    = from_option Some (calmnessLevel (mechanicState s)) (calmnessLevel updates) /\
  tokensCollected (mechanicState (updateMechanicState updates s))
    = from_option Some (tokensCollected (mechanicState s)) (tokensCollected updates) /\
  selectedItem (mechanicState (updateMechanicState updates s))
    = from_option Some (selectedItem (mechanicState s)) (selectedItem updates) /\
  (forall later,
      updateMechanicState later (updateMechanicState updates s)
      = updateMechanicState (merge updates later) s).
Proof.
  unfold updateMechanicState. simpl.
  split; [|split; [|split; [|split]]].
  - destruct (hintsRevealed updates), (hintsRevealed (mechanicState s)); reflexivity.
  - destruct (calmnessLevel updates), (calmnessLevel (mechanicState s)); reflexivity.
  - destruct (tokensCollected updates), (tokensCollected (mechanicState s)); reflexivity.
  - destruct (selectedItem updates), (selectedItem (mechanicState s)); reflexivity.
  - intros later. unfold setMechanicState. simpl. rewrite merge_assoc. reflexivity.
Qed.

(** X8. A restart followed by the reveal and the story leads, for any
    session with a creature and no pending timeout, to level 0 of the same
    creature with a zero count, no outcome, no consequence text and the
    initial mechanic state: the outcome of the run that follows is decided by
    the choices of that run alone. *)
Theorem replay_starts_afresh creature s :
  selectedCreature s = Some creature -> timers s = [] ->
  ready creature 0 (replay s) /\
  correctAnswers (replay s) = 0 /\
  outcome (replay s) = None /\
  consequenceText (replay s) = "" /\
  mechanicState (replay s) = initialMechanicState /\
  (forall i0 i1 i2 c0 c1 c2,
      chosen creature 0 i0 = Some c0 ->
      chosen creature 1 i1 = Some c1 ->
      chosen creature 2 i2 = Some c2 ->
      outcome (playThrough i0 i1 i2 (replay s))
      = Some (decide_outcome (countCorrect [c0; c1; c2]))).
Proof.
  intros Hsel Htimers. unfold replay. rewrite Hsel.
  change (if String.eqb (id creature) "aswang" then 5 else 4) with (totalBubbles creature).
  set (s1 := completeCloseUpAnimation (completeEntranceAnimation (restartGame s))).
  assert (Hsel1 : selectedCreature s1 = Some creature) by exact Hsel.
  assert (Hzero : storyBubbleIndex s1 = 0) by reflexivity.
  destruct (story_after s1 creature (totalBubbles creature) Hsel1 Hzero ltac:(lia))
    as (Hphase & _ & _).
  destruct (advanceStoryBubble_iter_keeps (totalBubbles creature) s1)
    as (K1 & K2 & K3 & K4 & K5 & K6 & K7).
  assert (Hready : ready creature 0 (Nat.iter (totalBubbles creature) advanceStoryBubble s1)).
  { unfold ready. rewrite Hphase, K1, K2, K4. repeat split; assumption. }
  split; [exact Hready|].
  split; [rewrite K3; reflexivity|].
  split; [rewrite K6; reflexivity|].
  split; [rewrite K7; reflexivity|].
  split; [rewrite K5; reflexivity|].
  intros i0 i1 i2 c0 c1 c2 H0 H1 H2.
  destruct (playThrough_result _ _ _ _ _ _ _ _ Hready H0 H1 H2) as (_ & _ & O & _).
  rewrite O, K3. reflexivity.
Qed.

Lemma replay_starts_afresh_witness :
  let s := playThrough 1 1 1 (reachFirstLevel Content.fallbackCreatures "banshee") in
  outcome s = Some defeat /\
  calmnessLevel (mechanicState s) = Some (Int 10) /\
  calmnessLevel (mechanicState (replay s)) = Some (Int 100) /\
  outcome (playThrough 0 0 0 (replay s)) = Some victory.
Proof.
  intros s.
  assert (Hsel : selectedCreature s = Some Content.banshee) by reflexivity.
  assert (Htimers : timers s = []) by reflexivity.
  destruct (replay_starts_afresh Content.banshee s Hsel Htimers)
    as (_ & _ & _ & _ & Hmech & Hrun).
  split; [reflexivity|]. split; [reflexivity|].
  split; [rewrite Hmech; reflexivity|].
  rewrite (Hrun 0%Z 0%Z 0%Z _ _ _ eq_refl eq_refl eq_refl). reflexivity.
Defined.

End TimingFacts.

(** * More about the loading pipeline *)

Section DefaultsFacts.
Import Js.
Import FallbackData.
Import DataLoader.
Import Loaded.

(** ** The operators *)

Lemma or_else_idem a d : or_else (or_else a d) d = or_else a d.
Proof.
  unfold or_else. destruct (truthy a) eqn:Ta; [rewrite Ta; reflexivity|].
  destruct (truthy d); reflexivity.
Qed.

Lemma nullish_idem a d : nullish (nullish a d) d = nullish a d.
Proof. destruct a; simpl; try reflexivity; destruct d; reflexivity. Qed.

Lemma truthy_or_else a d : truthy d = true -> truthy (or_else a d) = true.
Proof. unfold or_else. destruct (truthy a) eqn:Ta; [intros _; exact Ta | tauto]. Qed.

Lemma truthy_defined v : truthy v = true -> isNullish v = false.
Proof. destruct v; simpl; try reflexivity; discriminate. Qed.

Lemma or_else_defined a d : isNullish d = false -> isNullish (or_else a d) = false.
Proof.
  unfold or_else. destruct (truthy a) eqn:Ta; [intros _; apply truthy_defined, Ta | tauto].
Qed.

Lemma nullish_defined a d : isNullish d = false -> isNullish (nullish a d) = false.
Proof. destruct a; simpl; tauto. Qed.

Lemma or_else_truthy a d : truthy a = true -> or_else a d = a.
Proof. unfold or_else. intros ->. reflexivity. Qed.

Lemma truthy_nullish_false a : truthy (nullish a (VBool false)) = truthy a.
Proof. destruct a; reflexivity. Qed.

Lemma get_cases v :
  (isNullish v = true /\ forall k, exists e, get v k = Throw e) \/
  (isNullish v = false /\ forall k, get v k = Normal (prop v k)).
Proof.
  destruct v; simpl;
    try (right; split; [reflexivity | intros; reflexivity]);
    left; (split; [reflexivity | intros k; eexists; reflexivity]).
Qed.

(** ** The three maps, as equations *)

Lemma defaultChoice_Normal choice served :
  defaultChoice choice = Normal served ->
  isNullish choice = false /\
  served = VObj [
    ("text", or_else (prop choice "text") (VStr "Continue"));
    ("isCorrect", nullish (prop choice "isCorrect") (VBool false));
    ("consequence", or_else (prop choice "consequence") (VStr ""))].
Proof.
  unfold defaultChoice.
  destruct (get_cases choice) as [[_ Hthrow] | [Hdef Hget]].
  - destruct (Hthrow "text") as [e ->]. discriminate.
  - rewrite !Hget. simpl. intros [= <-]. split; [exact Hdef | reflexivity].
Qed.

Lemma defaultLevel_Normal level served :
  defaultLevel level = Normal served ->
  isNullish level = false /\
  exists choices,
    js_map defaultChoice (or_else (prop level "choices") (VArr [])) = Normal choices /\
    served = VObj [
      ("levelIndex", nullish (prop level "levelIndex") (VNum 0));
      ("sceneText", or_else (prop level "sceneText") (VStr ""));
      ("enrichedScene",
        or_else (or_else (prop level "enrichedScene") (prop level "sceneText")) (VStr ""));
      ("choices", choices);
      ("riddleData", defaultRiddleData (prop level "riddleData"))].
Proof.
  unfold defaultLevel.
  destruct (get_cases level) as [[_ Hthrow] | [Hdef Hget]].
  - destruct (Hthrow "levelIndex") as [e ->]. discriminate.
  - rewrite !Hget. simpl.
    destruct (js_map defaultChoice (or_else (prop level "choices") (VArr [])))
      as [choices|] eqn:E; simpl; [|discriminate].
    intros [= <-]. split; [exact Hdef|]. exists choices. split; reflexivity.
Qed.

Lemma defaultCreature_Normal creature served :
  defaultCreature creature = Normal served ->
  isNullish creature = false /\
  exists levels,
    js_map defaultLevel (or_else (prop creature "levels") (VArr [])) = Normal levels /\
    served = VObj [
      ("id", or_else (prop creature "id") (VStr "unknown"));
      ("name", or_else (prop creature "name") (VStr "Unknown Creature"));
      ("enrichedIntro", or_else (prop creature "enrichedIntro") (VStr ""));
      ("coreMechanic", or_else (prop creature "coreMechanic") (VStr "none"));
      ("levels", levels);
      ("victoryText", or_else (prop creature "victoryText") (VStr "You have succeeded."));
      ("defeatText", or_else (prop creature "defeatText") (VStr "You have failed."))].
Proof.
  unfold defaultCreature.
  destruct (get_cases creature) as [[_ Hthrow] | [Hdef Hget]].
  - destruct (Hthrow "id") as [e ->]. discriminate.
  - rewrite !Hget. simpl.
    destruct (js_map defaultLevel (or_else (prop creature "levels") (VArr [])))
      as [levels|] eqn:E; simpl; [|discriminate].
    intros [= <-]. split; [exact Hdef|]. exists levels. split; reflexivity.
Qed.

(** An accepted payload, opened up *)
Lemma accepted_inv data result :
  validateCreatureData data = Normal true ->
  applySafeDefaultsToCreatureData data = Normal result ->
  exists given served,
    prop data "creatures" = VArr given /\
    result = VObj [("creatures", VArr served)] /\
    Forall (fun creature => hasRequiredFields creature = Normal true) given /\
    Forall2 (fun creature creature' => defaultCreature creature = Normal creature')
      given served.
Proof.
  unfold validateCreatureData, applySafeDefaultsToCreatureData.
  destruct (truthy data) eqn:Tdata; simpl; [|discriminate].
  destruct (typeof_object data) eqn:Odata; simpl; [|discriminate].
  destruct (get data "creatures") as [creatures|] eqn:E1; simpl; [|discriminate].
  apply get_Normal in E1. destruct E1 as (-> & _ & _).
  destruct (prop data "creatures") as [| | | | |items|]; try discriminate.
  intros Hevery. simpl.
  destruct (mapM defaultCreature items) as [mapped|] eqn:E2; simpl; [|discriminate].
  intros [= <-]. exists items, mapped.
  split; [reflexivity|]. split; [reflexivity|].
  split; [apply every_Normal_true, Hevery | apply mapM_Normal, E2].
Qed.

Lemma hasRequiredFields_inv creature :
  hasRequiredFields creature = Normal true ->
  truthy (prop creature "id") = true /\
  truthy (prop creature "name") = true /\
  exists level levels, prop creature "levels" = VArr (level :: levels).
Proof.
  unfold hasRequiredFields.
  destruct (get_cases creature) as [[_ Hthrow] | [_ Hget]].
  - destruct (Hthrow "id") as [e ->]. discriminate.
  - rewrite !Hget. simpl.
    destruct (truthy (prop creature "id")); simpl; [|discriminate].
    destruct (truthy (prop creature "name")); simpl; [|discriminate].
    destruct (prop creature "levels") as [| | | | |[|level levels]|]; try discriminate.
    intros _. repeat split. exists level, levels. reflexivity.
Qed.

Lemma Forall2_forallb {A B} (R : A -> B -> Prop) (p : B -> bool) xs ys :
  (forall x y, R x y -> p y = true) -> Forall2 R xs ys -> forallb p ys = true.
Proof.
  intros Hp H. induction H as [|x y xs ys Hxy _ IH]; simpl; [reflexivity|].
  rewrite (Hp x y Hxy), IH. reflexivity.
Qed.

Lemma Forall2_impl2 {A B} (R S : A -> B -> Prop) (P : A -> Prop) xs ys :
  (forall x y, P x -> R x y -> S x y) -> Forall P xs -> Forall2 R xs ys -> Forall2 S xs ys.
Proof.
  intros Himp HP H. induction H as [|x y xs ys Hxy _ IH]; [constructor|].
  inversion HP; subst. constructor; [apply Himp; assumption | apply IH; assumption].
Qed.

(** ** Fully populated, and nothing else *)

Lemma defaultChoice_populated choice served :
  defaultChoice choice = Normal served -> populatedChoice served = true.
Proof.
  intros H. apply defaultChoice_Normal in H. destruct H as [_ ->].
  unfold populatedChoice. simpl.
  rewrite truthy_or_else by reflexivity.
  rewrite nullish_defined by reflexivity.
  rewrite or_else_defined by reflexivity. reflexivity.
Qed.

Lemma defaultRiddleData_populated riddleData :
  populatedRiddle (defaultRiddleData riddleData) = true.
Proof.
  unfold defaultRiddleData. destruct (truthy riddleData); [|reflexivity].
  unfold populatedRiddle. simpl.
  rewrite !or_else_defined by reflexivity. reflexivity.
Qed.

Lemma defaultLevel_populated level served :
  defaultLevel level = Normal served -> populatedLevel served = true.
Proof.
  intros H. apply defaultLevel_Normal in H. destruct H as (_ & choices & Hmap & ->).
  apply js_map_Normal in Hmap. destruct Hmap as (items & mapped & _ & -> & Hall).
  unfold populatedLevel. simpl.
  rewrite nullish_defined by reflexivity.
  rewrite !or_else_defined by reflexivity.
  rewrite defaultRiddleData_populated. simpl.
  unfold allItems. simpl.
  rewrite (Forall2_forallb _ populatedChoice _ _ defaultChoice_populated Hall).
  reflexivity.
Qed.

Lemma defaultCreature_populated creature served :
  hasRequiredFields creature = Normal true ->
  defaultCreature creature = Normal served -> populatedCreature served = true.
Proof.
  intros Hreq H. apply defaultCreature_Normal in H.
  destruct H as (_ & levels & Hmap & ->).
  apply hasRequiredFields_inv in Hreq. destruct Hreq as (Tid & Tname & _).
  apply js_map_Normal in Hmap. destruct Hmap as (items & mapped & _ & -> & Hall).
  unfold populatedCreature. simpl.
  rewrite !truthy_or_else by reflexivity.
  rewrite or_else_defined by reflexivity. simpl.
  unfold allItems. simpl.
  rewrite (Forall2_forallb _ populatedLevel _ _ defaultLevel_populated Hall).
  reflexivity.
Qed.

Lemma assoc_absent k fields :
  k ∉ map fst fields -> assoc k fields = VUndefined.
Proof.
  induction fields as [|[k' v] rest IH]; simpl; [reflexivity|].
  intros Hnot. destruct (String.eqb_spec k k') as [-> | Hne].
  - exfalso. apply Hnot. left.
  - apply IH. intros Hin. apply Hnot. right. exact Hin.
Qed.

Lemma prop_absent v k : k ∉ ownKeys v -> prop v k = VUndefined.
Proof. destruct v; simpl; try reflexivity. apply assoc_absent. Qed.

Lemma Forall2_Exists_l {A B} (R : A -> B -> Prop) (P : A -> Prop) xs ys :
  Forall2 R xs ys -> Exists P xs -> exists x y, P x /\ R x y.
Proof.
  intros H. induction H as [|x y xs ys Hxy _ IH]; intros HE.
  - inversion HE.
  - inversion HE as [? ? Hx | ? ? Hrest]; subst.
    + exists x, y. split; assumption.
    + apply IH, Hrest.
Qed.

Lemma defaults_populate data result :
  validateCreatureData data = Normal true ->
  applySafeDefaultsToCreatureData data = Normal result ->
  populated result = true.
Proof.
  intros Hvalid Hdefaults.
  destruct (accepted_inv data result Hvalid Hdefaults)
    as (given & served & _ & -> & Hreq & Hmap).
  unfold populated, allItems. simpl.
  apply (Forall2_forallb (fun x y => hasRequiredFields x = Normal true /\
                                     defaultCreature x = Normal y) populatedCreature given).
  - intros x y [Hx Hxy]. eapply defaultCreature_populated; eassumption.
  - eapply Forall2_impl2; [|exact Hreq|exact Hmap]. intros x y Hx Hxy. split; assumption.
Qed.

(** X9. The defaults give an accepted payload one fixed shape: the
    repository has the key [creatures] only, every creature exactly the seven
    keys of the defaults with a truthy id, name, mechanic, victory and defeat
    text, every level exactly its five keys, every choice exactly [text],
    [isCorrect] and [consequence] with a truthy text and an [isCorrect] that
    is never [undefined] or [null]; any other key of the payload is gone. *)
Theorem accepted_payload_is_populated data result :
  validateCreatureData data = Normal true ->
  applySafeDefaultsToCreatureData data = Normal result ->
  populated result = true.
Proof. exact (defaults_populate data result). Qed.

Lemma accepted_payload_is_populated_witness :
  populated partialDefaults = true /\
  lacks "victoryTexts"
    (VObj [("id", VStr "x"); ("name", VStr "X"); ("victoryTexts", VArr [VStr "won"])])
    = false /\
  exists result,
    applySafeDefaultsToCreatureData
      (VObj [("creatures", VArr [
         VObj [("id", VStr "x"); ("name", VStr "X"); ("victoryTexts", VArr [VStr "won"]);
               ("levels", VArr [VObj []])]])]) = Normal result /\
    populated result = true /\
    forallb (lacks "victoryTexts") (itemsOf (prop result "creatures")) = true.
Proof.
  split.
  - apply (accepted_payload_is_populated partialData); reflexivity.
  - split; [reflexivity|]. eexists. split; [reflexivity|]. split.
    + eapply (accepted_payload_is_populated
                (VObj [("creatures", VArr [
                   VObj [("id", VStr "x"); ("name", VStr "X");
                         ("victoryTexts", VArr [VStr "won"]);
                         ("levels", VArr [VObj []])]])])); reflexivity.
    + reflexivity.
Defined.

(** ** Passing what was loaded through the loader again *)

Lemma mapM_fixed (f : value -> completion value) items mapped :
  (forall x y, f x = Normal y -> f y = Normal y) ->
  Forall2 (fun x y => f x = Normal y) items mapped ->
  mapM f mapped = Normal mapped.
Proof.
  intros Hf H. induction H as [|x y xs ys Hxy _ IH]; simpl; [reflexivity|].
  rewrite (Hf x y Hxy). simpl. rewrite IH. reflexivity.
Qed.

Lemma defaultChoice_fixed choice served :
  defaultChoice choice = Normal served -> defaultChoice served = Normal served.
Proof.
  intros H. apply defaultChoice_Normal in H. destruct H as [_ ->].
  unfold defaultChoice. simpl. rewrite !or_else_idem, nullish_idem. reflexivity.
Qed.

Lemma defaultRiddleData_fixed riddleData :
  defaultRiddleData (defaultRiddleData riddleData) = defaultRiddleData riddleData.
Proof.
  unfold defaultRiddleData at 2 3. destruct (truthy riddleData); [|reflexivity].
  unfold defaultRiddleData. simpl. rewrite !or_else_idem. reflexivity.
Qed.

Lemma enrichedScene_fixed enrichedScene sceneText :
  or_else
    (or_else (or_else (or_else enrichedScene sceneText) (VStr ""))
             (or_else sceneText (VStr "")))
    (VStr "")
  = or_else (or_else enrichedScene sceneText) (VStr "").
Proof.
  unfold or_else.
  destruct (truthy enrichedScene) eqn:Te; [rewrite !Te; reflexivity|].
  destruct (truthy sceneText) eqn:Ts; [rewrite !Ts; reflexivity|]. reflexivity.
Qed.

Lemma defaultLevel_fixed level served :
  defaultLevel level = Normal served -> defaultLevel served = Normal served.
Proof.
  intros H. apply defaultLevel_Normal in H. destruct H as (_ & choices & Hmap & ->).
  apply js_map_Normal in Hmap. destruct Hmap as (items & mapped & _ & -> & Hall).
  unfold defaultLevel. simpl.
  rewrite (mapM_fixed defaultChoice items mapped defaultChoice_fixed Hall). simpl.
  rewrite nullish_idem, or_else_idem, enrichedScene_fixed, defaultRiddleData_fixed.
  reflexivity.
Qed.

Lemma defaultCreature_fixed creature served :
  defaultCreature creature = Normal served -> defaultCreature served = Normal served.
Proof.
  intros H. apply defaultCreature_Normal in H. destruct H as (_ & levels & Hmap & ->).
  apply js_map_Normal in Hmap. destruct Hmap as (items & mapped & _ & -> & Hall).
  unfold defaultCreature. simpl.
  rewrite (mapM_fixed defaultLevel items mapped defaultLevel_fixed Hall). simpl.
  rewrite !or_else_idem. reflexivity.
Qed.

Lemma defaultCreature_hasRequiredFields creature served :
  hasRequiredFields creature = Normal true ->
  defaultCreature creature = Normal served ->
  hasRequiredFields served = Normal true.
Proof.
  intros Hreq H. apply defaultCreature_Normal in H.
  destruct H as (_ & levels & Hmap & ->).
  apply hasRequiredFields_inv in Hreq.
  destruct Hreq as (Tid & Tname & level & rest & Hlevels).
  rewrite Hlevels in Hmap. rewrite or_else_truthy in Hmap by reflexivity.
  apply js_map_Normal in Hmap. destruct Hmap as (items & mapped & Hitems & -> & Hall).
  injection Hitems as <-.
  unfold hasRequiredFields. simpl.
  rewrite !truthy_or_else by reflexivity. simpl.
  inversion Hall; subst. reflexivity.
Qed.

Lemma every_of_Forall (f : value -> completion bool) items :
  Forall (fun x => f x = Normal true) items -> every f items = Normal true.
Proof.
  induction 1 as [|x rest Hx _ IH]; simpl; [reflexivity|].
  rewrite Hx. simpl. exact IH.
Qed.

Lemma Forall2_Forall_r {A B} (R : A -> B -> Prop) (P : A -> Prop) (Q : B -> Prop) xs ys :
  (forall x y, P x -> R x y -> Q y) -> Forall P xs -> Forall2 R xs ys -> Forall Q ys.
Proof.
  intros Himp HP H. induction H as [|x y xs ys Hxy _ IH]; [constructor|].
  inversion HP; subst. constructor; [eapply Himp; eassumption | apply IH; assumption].
Qed.

Lemma defaults_revalidate data result :
  validateCreatureData data = Normal true ->
  applySafeDefaultsToCreatureData data = Normal result ->
  validateCreatureData result = Normal true.
Proof.
  intros Hvalid Hdefaults.
  destruct (accepted_inv data result Hvalid Hdefaults)
    as (given & served & _ & -> & Hreq & Hmap).
  unfold validateCreatureData. simpl. apply every_of_Forall.
  eapply Forall2_Forall_r; [|exact Hreq|exact Hmap].
  intros x y Hx Hxy. cbv beta in *.
  exact (defaultCreature_hasRequiredFields x y Hx Hxy).
Qed.

(** X10. What the loader made of an accepted payload is a fixed point of
    the loader: it passes the validator again, the defaults leave it as it
    is, and a fetch that delivers it loads exactly it. *)
Theorem loaded_payload_reloads_unchanged data result :
  validateCreatureData data = Normal true ->
  applySafeDefaultsToCreatureData data = Normal result ->
  validateCreatureData result = Normal true /\
  applySafeDefaultsToCreatureData result = Normal result /\
  loadCreatureData (Response true (Parsed result)) = Normal result.
Proof.
  intros Hvalid Hdefaults.
  destruct (accepted_inv data result Hvalid Hdefaults)
    as (given & served & _ & -> & Hreq & Hmap).
  pose proof (defaults_revalidate _ _ Hvalid Hdefaults) as Hv.
  assert (Hd : applySafeDefaultsToCreatureData (VObj [("creatures", VArr served)])
               = Normal (VObj [("creatures", VArr served)])).
  { unfold applySafeDefaultsToCreatureData. simpl.
    rewrite (mapM_fixed defaultCreature given served defaultCreature_fixed Hmap).
    reflexivity. }
  split; [exact Hv|]. split; [exact Hd|].
  unfold loadCreatureData, loadCreatureData_try. simpl. rewrite Hv. simpl.
  rewrite Hd. reflexivity.
Qed.

Lemma loaded_payload_reloads_unchanged_witness :
  loadCreatureData (Response true (Parsed partialDefaults)) = Normal partialDefaults /\
  loadCreatureData (Response true (Parsed partialData)) = Normal partialDefaults /\
  partialDefaults <> partialData.
Proof.
  destruct (loaded_payload_reloads_unchanged partialData partialDefaults eq_refl eq_refl)
    as (_ & _ & Hload).
  split; [exact Hload|]. split; [reflexivity|].
  intros H. apply (f_equal (fun v => length (ownKeys (hd VNull (itemsOf (prop v "creatures"))))))
    in H. vm_compute in H. discriminate.
Defined.

End DefaultsFacts.

Section PayloadFacts.
Import Js.
Import FallbackData.
Import DataLoader.
Import Loaded.

Lemma itemsOf_VArr items : itemsOf (VArr items) = items.
Proof. reflexivity. Qed.

Lemma itemsOf_falsy v : truthy v = false -> itemsOf v = [].
Proof. destruct v; simpl; try reflexivity. discriminate. Qed.

(** The choices the defaults map over: those of the level, none when the
    level has no truthy [choices]. *)
Lemma choices_mapped level choices :
  js_map defaultChoice (or_else (prop level "choices") (VArr [])) = Normal choices ->
  (isArray (prop level "choices") = true \/ truthy (prop level "choices") = false) /\
  Forall2 (fun x y => defaultChoice x = Normal y)
    (itemsOf (prop level "choices")) (itemsOf choices).
Proof.
  intros H. apply js_map_Normal in H. destruct H as (items & mapped & Hitems & -> & Hall).
  unfold or_else in Hitems. destruct (truthy (prop level "choices")) eqn:T.
  - rewrite Hitems. split; [left; reflexivity | exact Hall].
  - injection Hitems as <-. rewrite (itemsOf_falsy _ T).
    split; [right; reflexivity | exact Hall].
Qed.

Lemma defaultChoice_kept choice served :
  defaultChoice choice = Normal served -> keptChoice choice served.
Proof.
  intros H. apply defaultChoice_Normal in H. destruct H as [_ ->].
  unfold keptChoice. simpl. split; [apply truthy_nullish_false|].
  split; intros T; apply or_else_truthy, T.
Qed.

Lemma defaultLevel_kept level served :
  defaultLevel level = Normal served -> keptLevel level served.
Proof.
  intros H. apply defaultLevel_Normal in H. destruct H as (_ & choices & Hmap & ->).
  apply choices_mapped in Hmap. destruct Hmap as [Hshape Hall].
  unfold keptLevel. simpl. split; [exact Hshape|].
  eapply Forall2_impl; [exact Hall|]. intros x y Hxy. apply defaultChoice_kept, Hxy.
Qed.

Lemma defaultCreature_kept creature served :
  hasRequiredFields creature = Normal true ->
  defaultCreature creature = Normal served -> keptCreature creature served.
Proof.
  intros Hreq H. apply defaultCreature_Normal in H.
  destruct H as (_ & levels & Hmap & ->).
  apply hasRequiredFields_inv in Hreq.
  destruct Hreq as (Tid & Tname & level & rest & Hlevels).
  rewrite Hlevels in Hmap. rewrite or_else_truthy in Hmap by reflexivity.
  apply js_map_Normal in Hmap. destruct Hmap as (items & mapped & Hitems & -> & Hall).
  injection Hitems as <-.
  unfold keptCreature. simpl. rewrite Hlevels, !or_else_truthy by assumption.
  split; [reflexivity|]. split; [reflexivity|]. simpl.
  eapply Forall2_impl; [exact Hall|]. intros x y Hxy. apply defaultLevel_kept, Hxy.
Qed.

(** X11. The defaults keep what an accepted payload says: the served
    creatures are the given ones in the same order, each with its id and name
    unchanged and as many levels; each level has as many choices as given
    (none when its [choices] are absent); and each choice keeps its text and
    consequence when it has them, and is correct exactly when the given one
    is. *)
Theorem accepted_payload_is_kept data result :
  validateCreatureData data = Normal true ->
  applySafeDefaultsToCreatureData data = Normal result ->
  Forall2 keptCreature (itemsOf (prop data "creatures")) (itemsOf (prop result "creatures")).
Proof.
  intros Hvalid Hdefaults.
  destruct (accepted_inv data result Hvalid Hdefaults)
    as (given & served & -> & -> & Hreq & Hmap).
  simpl. eapply Forall2_impl2; [|exact Hreq|exact Hmap].
  intros x y Hx Hxy. cbv beta in *. exact (defaultCreature_kept x y Hx Hxy).
Qed.

Lemma accepted_payload_is_kept_witness :
  Forall2 keptCreature (itemsOf (prop partialData "creatures"))
                       (itemsOf (prop partialDefaults "creatures")).
Proof. apply (accepted_payload_is_kept partialData partialDefaults); reflexivity. Defined.

Lemma no_hole_in_level level served :
  defaultLevel level = Normal served -> ~ holeInLevel level.
Proof.
  intros H. apply defaultLevel_Normal in H. destruct H as (Hdef & choices & Hmap & _).
  apply choices_mapped in Hmap. destruct Hmap as [Hshape Hall].
  intros [Hnull | [[Ht Ha] | Hex]].
  - congruence.
  - destruct Hshape; congruence.
  - destruct (Forall2_Exists_l _ _ _ _ Hall Hex) as (x & y & Hx & Hxy).
    apply defaultChoice_Normal in Hxy. destruct Hxy as [Hdefx _]. congruence.
Qed.

Lemma no_hole_in_creature creature served :
  defaultCreature creature = Normal served -> ~ holeInCreature creature.
Proof.
  intros H. apply defaultCreature_Normal in H. destruct H as (Hdef & levels & Hmap & _).
  intros [Hnull | Hex]; [congruence|].
  apply js_map_Normal in Hmap. destruct Hmap as (items & mapped & Hitems & _ & Hall).
  unfold or_else in Hitems. destruct (truthy (prop creature "levels")) eqn:T.
  - rewrite Hitems in Hex. simpl in Hex.
    destruct (Forall2_Exists_l _ _ _ _ Hall Hex) as (x & y & Hx & Hxy).
    exact (no_hole_in_level x y Hxy Hx).
  - rewrite (itemsOf_falsy _ T) in Hex. inversion Hex.
Qed.

(** X12. The payload is taken whole or not at all: one creature, one level
    or one choice that is [null], or one level whose [choices] are neither
    absent nor an array, anywhere in a delivered payload, and the load
    returns the embedded fallback, however good the rest of the payload
    is. *)
Theorem payload_with_a_hole_is_discarded outcome data :
  delivered outcome = Some data ->
  hasHole data ->
  loadCreatureData outcome = Normal fallbackCreatureData.
Proof.
  intros Hdel Hhole.
  destruct (loadCreatureData_cases outcome)
    as [H | (data' & result & Hdel' & Hvalid & Hdefaults & _)]; [exact H|].
  exfalso. rewrite Hdel in Hdel'. injection Hdel' as <-.
  destruct (accepted_inv data result Hvalid Hdefaults)
    as (given & served & Hgiven & _ & _ & Hmap).
  unfold hasHole in Hhole. rewrite Hgiven in Hhole. simpl in Hhole.
  destruct (Forall2_Exists_l _ _ _ _ Hmap Hhole) as (x & y & Hx & Hxy).
  exact (no_hole_in_creature x y Hxy Hx).
Qed.

Lemma payload_with_a_hole_is_discarded_witness :
  loadCreatureData
    (Response true (Parsed (VObj [("creatures", VArr [
       VObj [("id", VStr "a"); ("name", VStr "A");
             ("levels", VArr [VObj [("choices", VArr [])]])];
       VObj [("id", VStr "b"); ("name", VStr "B");
             ("levels", VArr [VObj [("choices", VArr [VNull])]])]])])))
  = Normal fallbackCreatureData.
Proof.
  eapply payload_with_a_hole_is_discarded; [reflexivity|].
  unfold hasHole. simpl. right. left. right. left. right. right. left. reflexivity.
Defined.

(** X13. Whatever the two fetches do, what the load returns passes the
    loader's own validators: the creature data passes [validateCreatureData]
    and the UI configuration [validateUIConfig]. *)
Theorem loaded_data_passes_validators creatureFetch uiFetch creatureData uiConfig :
  loadAllGameData creatureFetch uiFetch = Normal (creatureData, uiConfig) ->
  validateCreatureData creatureData = Normal true /\
  validateUIConfig uiConfig = true.
Proof.
  intros Hload.
  destruct (loadCreatureData_resolves creatureFetch) as [cd Hc].
  destruct (loadUIConfig_resolves uiFetch) as [ui Hu].
  rewrite (loadAllGameData_pair _ _ _ _ Hc Hu) in Hload. injection Hload as <- <-.
  split.
  - destruct (loadCreatureData_cases creatureFetch)
      as [H | (data & result & _ & Hvalid & Hdefaults & H)];
      rewrite H in Hc; injection Hc as <-.
    + vm_compute. reflexivity.
    + exact (defaults_revalidate data result Hvalid Hdefaults).
  - destruct (loadUIConfig_cases uiFetch) as [H | (config & _ & Hvalid & H)];
      rewrite H in Hu; injection Hu as <-.
    + vm_compute. reflexivity.
    + unfold validateUIConfig in *.
      destruct (truthy config) eqn:Tc; simpl in *; [|discriminate].
      destruct (typeof_object config); simpl in *; [|discriminate].
      unfold applySafeDefaultsToUIConfig. rewrite Tc. simpl.
      destruct (truthy (prop config "creatures")) eqn:T1; simpl in *; [|discriminate].
      destruct (truthy (prop config "gameStates")) eqn:T2; simpl in *; [|discriminate].
      rewrite !or_else_truthy by assumption. rewrite T1, T2. simpl. exact Hvalid.
Qed.

Lemma loaded_data_passes_validators_witness :
  validateCreatureData partialDefaults = Normal true /\
  validateUIConfig fallbackUIConfig = true.
Proof.
  apply (loaded_data_passes_validators
           (Response true (Parsed partialData)) (Response false Unparseable)).
  reflexivity.
Defined.

Lemma allItems_elem p v x :
  allItems p v = true -> x ∈ itemsOf v -> p x = true.
Proof.
  unfold allItems, itemsOf. destruct (arrayItems v) as [items|]; simpl.
  - intros H Hin. rewrite forallb_forall in H. apply H, list_elem_of_In, Hin.
  - intros _ Hin. inversion Hin.
Qed.

Lemma allChoices_populated repository :
  populated repository = true ->
  Forall (fun choice => populatedChoice choice = true) (allChoices repository).
Proof.
  unfold populated, allChoices. intros H.
  apply andb_true_iff in H. destruct H as [_ H].
  apply Forall_forall. intros choice Hin.
  apply list_elem_of_bind in Hin. destruct Hin as (creature & Hin & Hc).
  apply list_elem_of_bind in Hin. destruct Hin as (level & Hin & Hl).
  pose proof (allItems_elem _ _ _ H Hc) as Hpc.
  unfold populatedCreature in Hpc. rewrite !andb_true_iff in Hpc.
  destruct Hpc as [[[_ Hls] _] _].
  pose proof (allItems_elem _ _ _ Hls Hl) as Hpl.
  unfold populatedLevel in Hpl. rewrite !andb_true_iff in Hpl.
  destruct Hpl as [[_ Hcs] _].
  exact (allItems_elem _ _ _ Hcs Hin).
Qed.

(** X14. No choice of a loaded repository carries a [correctItem]: the
    embedded content has none and the defaults drop the key from a payload.
    (The level screen compares the selected tool with [choice.correctItem];
    on loaded content that comparison never applies.) *)
Theorem loaded_choices_have_no_correctItem outcome creatureData :
  loadCreatureData outcome = Normal creatureData ->
  Forall (fun choice => prop choice "correctItem" = VUndefined) (allChoices creatureData).
Proof.
  intros Hload.
  destruct (loadCreatureData_cases outcome)
    as [H | (data & result & _ & Hvalid & Hdefaults & H)];
    rewrite H in Hload; injection Hload as <-.
  - assert (Hb : forallb (lacks "correctItem") (allChoices fallbackCreatureData) = true)
      by (vm_compute; reflexivity).
    rewrite forallb_forall in Hb. apply Forall_forall. intros choice Hin.
    specialize (Hb choice (proj1 (list_elem_of_In _ _) Hin)).
    unfold lacks in Hb. destruct (prop choice "correctItem"); try discriminate. reflexivity.
  - pose proof (allChoices_populated result
                  (defaults_populate data result Hvalid Hdefaults)) as Hall.
    eapply Forall_impl; [exact Hall|]. intros choice Hp.
    unfold populatedChoice in Hp. rewrite !andb_true_iff in Hp.
    destruct Hp as [[[Hkeys _] _] _]. apply bool_decide_eq_true in Hkeys.
    apply prop_absent. rewrite Hkeys. intros Hin.
    repeat (apply elem_of_cons in Hin; destruct Hin as [Hin | Hin]; [discriminate|]).
    apply elem_of_nil in Hin. exact Hin.
Qed.

Lemma loaded_choices_have_no_correctItem_witness :
  exists creatureData,
    loadCreatureData (Response true (Parsed toolPayload)) = Normal creatureData /\
    length (allChoices toolPayload) = 1%nat /\
    forallb (lacks "correctItem") (allChoices toolPayload) = false /\
    length (allChoices creatureData) = 1%nat /\
    Forall (fun choice => prop choice "correctItem" = VUndefined) (allChoices creatureData).
Proof.
  eexists. split; [vm_compute; reflexivity|].
  split; [reflexivity|]. split; [reflexivity|]. split; [reflexivity|].
  apply (loaded_choices_have_no_correctItem (Response true (Parsed toolPayload))).
  vm_compute. reflexivity.
Defined.

End PayloadFacts.

Section RepositoryFacts.
Import Js.
Import FallbackData.
Import DataLoader.
Import Loaded.

Lemma perform_without_creatures past a s :
  Engine.selectedCreature s = None ->
  Engine.selectedCreature (Play.perform (Some []) past a s) = None.
Proof.
  assert (Hchoice : forall render i,
             Engine.selectedCreature s = None ->
             Engine.selectedCreature (Engine.makeChoiceFrom render i s) = None).
  { intros render i H.
    destruct (makeChoiceFrom_cases render i s)
      as [-> | (creature & levelData & choice & _ & _ & _ & _ & -> & _)]; exact H. }
  intros H. destruct a; simpl; try exact H; try reflexivity.
  - unfold Engine.advanceStoryBubble. rewrite H. exact H.
  - apply Hchoice, H.
  - destruct (past !! age) as [render|]; [apply Hchoice, H | exact H].
  - unfold Engine.fireTimeout. destruct (Engine.timers s); [exact H | exact H].
Qed.

(** X15. A payload whose [creatures] array is empty passes the validator and
    is served as it is, in place of the embedded content; the engine then has
    no creature to offer: whatever actions follow, none is ever selected. *)
Theorem empty_repository_is_served fields :
  assoc "creatures" fields = VArr [] ->
  loadCreatureData (Response true (Parsed (VObj fields)))
    = Normal (VObj [("creatures", VArr [])]) /\
  Content.creatureData (VObj [("creatures", VArr [])]) = Some [] /\
  (forall actions,
      Engine.selectedCreature
        (Play.performAll (Some []) actions Engine.initialSession) = None).
Proof.
  intros Hempty. split; [|split].
  - unfold loadCreatureData, loadCreatureData_try, validateCreatureData,
      applySafeDefaultsToCreatureData. simpl. rewrite Hempty. reflexivity.
  - reflexivity.
  - intros actions.
    apply (performAll_invariant (fun s => Engine.selectedCreature s = None)
             (fun _ => True) (Some [])).
    + intros past a s _ _. apply perform_without_creatures.
    + apply Forall_forall. intros; exact I.
    + reflexivity.
Qed.

Lemma empty_repository_is_served_witness :
  loadCreatureData (Response true (Parsed (VObj [("creatures", VArr [])])))
    = Normal (VObj [("creatures", VArr [])]) /\
  Engine.gameState
    (Play.performAll (Some []) [Play.StartGame; Play.SelectCreature "banshee"]
       Engine.initialSession) = Engine.select.
Proof.
  destruct (empty_repository_is_served [("creatures", VArr [])] eq_refl) as (Hload & _ & _).
  split; [exact Hload | reflexivity].
Defined.

Lemma or_else_absorb a d1 d2 :
  truthy d1 = true -> or_else (or_else a d1) d2 = or_else a d1.
Proof. intros H. apply or_else_truthy, truthy_or_else, H. Qed.

(** X16. An accepted UI configuration is served with exactly six tables: its
    own [creatures] and [gameStates], and each of [soundCues], [transitions],
    [accessibility] and [performance] from the payload when it has one and
    from the embedded configuration otherwise; none of the six is ever
    missing. *)
Theorem ui_defaults_fill_tables outcome config :
  delivered outcome = Some config ->
  validateUIConfig config = true ->
  exists uiConfig,
    loadUIConfig outcome = Normal uiConfig /\
    ownKeys uiConfig =
      ["creatures"; "gameStates"; "soundCues"; "transitions"; "accessibility";
       "performance"] /\
    prop uiConfig "creatures" = prop config "creatures" /\
    prop uiConfig "gameStates" = prop config "gameStates" /\
    Forall (fun table =>
              prop uiConfig table
                = or_else (prop config table) (prop fallbackUIConfig table) /\
              truthy (prop uiConfig table) = true)
           optionalTables.
Proof.
  intros Hdel Hvalid.
  destruct outcome as [e | [|] [|data]]; try discriminate.
  injection Hdel as ->.
  exists (applySafeDefaultsToUIConfig config). split.
  { unfold loadUIConfig, loadUIConfig_try. simpl. rewrite Hvalid. reflexivity. }
  unfold validateUIConfig in Hvalid.
  destruct (truthy config) eqn:Tc; simpl in Hvalid; [|discriminate].
  destruct (typeof_object config); simpl in Hvalid; [|discriminate].
  destruct (truthy (prop config "creatures")) eqn:T1; simpl in Hvalid; [|discriminate].
  destruct (truthy (prop config "gameStates")) eqn:T2; simpl in Hvalid; [|discriminate].
  unfold applySafeDefaultsToUIConfig. rewrite Tc. simpl.
  rewrite !or_else_absorb by reflexivity.
  rewrite !(or_else_truthy (prop config "creatures")),
          !(or_else_truthy (prop config "gameStates")) by assumption.
  split; [reflexivity|]. split; [reflexivity|]. split; [reflexivity|].
  unfold optionalTables.
  repeat constructor; simpl; apply truthy_or_else; reflexivity.
Qed.

Lemma ui_defaults_fill_tables_witness :
  exists uiConfig,
    loadUIConfig (Response true (Parsed
      (VObj [("creatures", VObj []); ("gameStates", VObj []);
             ("transitions", VObj [("stateChange", VStr "1s")])])))
      = Normal uiConfig /\
    prop uiConfig "transitions" = VObj [("stateChange", VStr "1s")] /\
    prop uiConfig "soundCues" = prop fallbackUIConfig "soundCues".
Proof.
  destruct (ui_defaults_fill_tables
              (Response true (Parsed
                (VObj [("creatures", VObj []); ("gameStates", VObj []);
                       ("transitions", VObj [("stateChange", VStr "1s")])])))
              _ eq_refl eq_refl)
    as (uiConfig & Hload & _ & _ & _ & Htables).
  exists uiConfig. split; [exact Hload|].
  inversion Htables as [|? ? [Hsound _] Hrest]; subst.
  inversion Hrest as [|? ? [Htrans _] _]; subst.
  split; [rewrite Htrans; reflexivity | rewrite Hsound; reflexivity].
Defined.

End RepositoryFacts.

(** * More about the mechanics: the meter, the tokens and the riddle forms *)

Section MeterFacts.
Import Js.
Import Engine.
Import Meter.

(** X17. The two components read the same mood off every mechanic state,
    though one clamps the meter before and the other does not: below 30
    anguished, from 30 below 60 sorrowful, from 60 on (and when the meter is
    not a number) peaceful; and the value the panel draws is within
    [0,100]. *)
Theorem moods_agree ms :
  moodText ms = mood ms /\
  match normalizedCalmness ms with
  | Int z => (0 <= z <= 100)%Z
  | NaN => calmnessOf ms = NaN
  end /\
  (forall z, calmnessOf ms = Int z ->
     normalizedCalmness ms = Int (Z.max 0 (Z.min 100 z)) /\
     (mood ms = Anguished <-> (z < 30)%Z) /\
     (mood ms = Sorrowful <-> (30 <= z < 60)%Z) /\
     (mood ms = Peaceful <-> (60 <= z)%Z)).
Proof.
  unfold moodText, mood, normalizedCalmness.
  destruct (calmnessOf ms) as [|z]; simpl.
  - split; [reflexivity|]. split; [reflexivity|]. intros z; discriminate.
  - split; [|split; [lia|]].
    + destruct (Z.max 0 (Z.min 100 z) <? 30)%Z eqn:A, (z <? 30)%Z eqn:B;
        try reflexivity; try lia.
      destruct (Z.max 0 (Z.min 100 z) <? 60)%Z eqn:C, (z <? 60)%Z eqn:D;
        try reflexivity; lia.
    + intros z' [= <-]. split; [reflexivity|].
      destruct (z <? 30)%Z eqn:B; [|destruct (z <? 60)%Z eqn:D];
        repeat split; intros; try discriminate; try reflexivity; lia.
Qed.

Lemma moods_agree_witness :
  mood calmnessDefault = Peaceful /\
  moodText (decreaseCalmness 35 (decreaseCalmness 30 calmnessDefault)) = Sorrowful.
Proof.
  split.
  - destruct (moods_agree calmnessDefault) as (_ & _ & H).
    destruct (H 100%Z eq_refl) as (_ & _ & _ & Hp). apply Hp. lia.
  - destruct (moods_agree (decreaseCalmness 35 (decreaseCalmness 30 calmnessDefault)))
      as (Hsame & _ & H).
    rewrite Hsame. destruct (H 35%Z eq_refl) as (_ & _ & Hs & _). apply Hs. lia.
Defined.

(** X18. For a calmness creature entering level 0 with a full meter, the
    mood at the end of a run tells the result: peaceful exactly on a victory,
    sorrowful exactly when one choice only was correct, anguished exactly
    when none was. *)
Theorem banshee_mood_follows_outcome creature s i0 i1 i2 c0 c1 c2 :
  coreMechanic creature = "calmness" ->
  ready creature 0 s -> correctAnswers s = 0 ->
  calmnessLevel (mechanicState s) = Some (Int 100) ->
  chosen creature 0 i0 = Some c0 ->
  chosen creature 1 i1 = Some c1 ->
  chosen creature 2 i2 = Some c2 ->
  let final := playThrough i0 i1 i2 s in
  (mood (mechanicState final) = Peaceful <-> outcome final = Some victory) /\
  (mood (mechanicState final) = Sorrowful <-> countCorrect [c0; c1; c2] = 1) /\
  (mood (mechanicState final) = Anguished <-> countCorrect [c0; c1; c2] = 0).
Proof.
  intros Hmech Hready Hzero Hfull H0 H1 H2 final.
  destruct (playThrough_result _ _ _ _ _ _ _ _ Hready H0 H1 H2) as (_ & _ & O & M).
  fold final in O, M. rewrite O, M, Hzero, !afterChoice_calmness by exact Hmech.
  rewrite countCorrect_three. unfold gain, mood, calmnessOf.
  destruct (isCorrect c0), (isCorrect c1), (isCorrect c2); simpl; rewrite Hfull; simpl;
    repeat split; intros; try discriminate; try reflexivity; try lia.
Qed.

Lemma banshee_mood_follows_outcome_witness :
  let s := reachFirstLevel Content.fallbackCreatures "banshee" in
  mood (mechanicState (playThrough 0 1 0 s)) = Peaceful /\
  mood (mechanicState (playThrough 1 1 1 s)) = Anguished.
Proof.
  intros s.
  assert (Hmech : coreMechanic Content.banshee = "calmness") by reflexivity.
  assert (Hready : ready Content.banshee 0 s) by (vm_compute; repeat split; reflexivity).
  assert (Hzero : correctAnswers s = 0) by reflexivity.
  assert (Hfull : calmnessLevel (mechanicState s) = Some (Int 100)) by reflexivity.
  split.
  - destruct (banshee_mood_follows_outcome Content.banshee s 0 1 0 _ _ _
                Hmech Hready Hzero Hfull eq_refl eq_refl eq_refl) as (Hp & _).
    apply Hp. reflexivity.
  - destruct (banshee_mood_follows_outcome Content.banshee s 1 1 1 _ _ _
                Hmech Hready Hzero Hfull eq_refl eq_refl eq_refl) as (_ & _ & Ha).
    apply Ha. reflexivity.
Defined.

End MeterFacts.

Section TokenFacts.
Import Js.
Import Engine.
Import Inventory.
Import Panel.

Lemma two_distinct_elements (l : list string) a b :
  a ∈ l -> b ∈ l -> a ≠ b -> 2 <= length l.
Proof.
  intros Ha Hb Hne. destruct l as [|x [|y rest]]; simpl; try lia.
  - inversion Ha.
  - apply list_elem_of_singleton in Ha, Hb. congruence.
Qed.

(** X19. The reveal test needs two tokens: with fewer than two collected it
    fails (the panel shows its verdict from two tokens on, so a valid
    combination is never hidden); and collecting one more token never undoes
    a valid combination. *)
Theorem reveal_needs_two_tokens ms :
  (validateCombination ms = true -> 2 <= length (collected ms)) /\
  (forall tokenId,
      tokenId ∉ collected ms ->
      validateCombination ms = true ->
      validateCombination (handleTokenClick tokenId ms) = true).
Proof.
  split.
  - intros H. apply validateCombination_iff in H. destruct H as (pair & Hpair & Hsub).
    assert (Hin : forall x, x ∈ pair -> x ∈ collected ms).
    { intros x Hx. rewrite <- (elem_of_list_to_set (C:=gset string)). apply Hsub, Hx. }
    unfold validPairs in Hpair.
    repeat (apply elem_of_cons in Hpair; destruct Hpair as [-> | Hpair]);
      [| | |apply elem_of_nil in Hpair; contradiction].
    + apply (two_distinct_elements _ "reversed-reflection" "no-shadow");
        [apply Hin, elem_of_union_l, elem_of_singleton; reflexivity
        |apply Hin, elem_of_union_r, elem_of_singleton; reflexivity
        |discriminate].
    + apply (two_distinct_elements _ "salt-reaction" "garlic-aversion");
        [apply Hin, elem_of_union_l, elem_of_singleton; reflexivity
        |apply Hin, elem_of_union_r, elem_of_singleton; reflexivity
        |discriminate].
    + apply (two_distinct_elements _ "extended-tongue" "leathery-wings");
        [apply Hin, elem_of_union_l, elem_of_singleton; reflexivity
        |apply Hin, elem_of_union_r, elem_of_singleton; reflexivity
        |discriminate].
  - intros tokenId Hnot H. apply validateCombination_iff in H.
    destruct H as (pair & Hpair & Hsub).
    apply validateCombination_iff. exists pair. split; [exact Hpair|].
    intros x Hx. unfold tokenSet. rewrite elem_of_list_to_set.
    apply elem_of_handleTokenClick.
    assert (Hin : x ∈ collected ms).
    { rewrite <- (elem_of_list_to_set (C:=gset string)). apply Hsub, Hx. }
    right. split; [intros ->; contradiction | exact Hin].
Qed.

Lemma reveal_needs_two_tokens_witness :
  let ms := handleTokenClick "no-shadow"
              (handleTokenClick "reversed-reflection" deductionDefault) in
  length (collected ms) = 2 /\
  validateCombination (handleTokenClick "leathery-wings" ms) = true.
Proof.
  intros ms. split; [reflexivity|].
  destruct (reveal_needs_two_tokens ms) as [_ Hmore].
  apply Hmore; [|reflexivity].
  intros Hin. vm_compute in Hin.
  repeat (apply elem_of_cons in Hin; destruct Hin as [Hin | Hin]; [discriminate|]).
  apply elem_of_nil in Hin. exact Hin.
Defined.

Lemma clickAll_snoc tokenIds tokenId ms :
  clickAll (tokenIds ++ [tokenId])%list ms = handleTokenClick tokenId (clickAll tokenIds ms).
Proof. unfold clickAll. rewrite fold_left_app. reflexivity. Qed.

Lemma count_occ_snoc (l : list string) x y :
  count_occ String.string_dec (l ++ [y])%list x =
  count_occ String.string_dec l x + (if String.string_dec y x then 1 else 0).
Proof.
  rewrite count_occ_app. simpl. destruct (String.string_dec y x); reflexivity.
Qed.

(** X20. Clicks on the six token buttons, in any number and order, keep the
    collection duplicate-free and within the six tokens, so it never holds
    more than six; and a token is collected afterwards exactly when it was
    collected before and clicked an even number of times, or was not and
    clicked an odd number of times. *)
Theorem clicks_toggle_by_parity tokenIds ms :
  NoDup (collected ms) ->
  Forall (fun tokenId => tokenId ∈ availableTokens) (collected ms) ->
  Forall (fun tokenId => tokenId ∈ availableTokens) tokenIds ->
  NoDup (collected (clickAll tokenIds ms)) /\
  Forall (fun tokenId => tokenId ∈ availableTokens) (collected (clickAll tokenIds ms)) /\
  length (collected (clickAll tokenIds ms)) <= 6 /\
  (forall tokenId,
      tokenId ∈ collected (clickAll tokenIds ms) <->
      (tokenId ∈ collected ms <->
       Nat.even (count_occ String.string_dec tokenIds tokenId) = true)).
Proof.
  intros Hnd Hsub Hclicks.
  assert (H : NoDup (collected (clickAll tokenIds ms)) /\
              Forall (fun tokenId => tokenId ∈ availableTokens)
                     (collected (clickAll tokenIds ms)) /\
              (forall tokenId,
                  tokenId ∈ collected (clickAll tokenIds ms) <->
                  (tokenId ∈ collected ms <->
                   Nat.even (count_occ String.string_dec tokenIds tokenId) = true))).
  { induction tokenIds as [|t rest IH] using rev_ind.
    - simpl. split; [exact Hnd|]. split; [exact Hsub|]. intros tokenId. simpl. tauto.
    - apply Forall_app in Hclicks. destruct Hclicks as [Hrest Ht].
      inversion Ht as [|? ? Htin _]; subst.
      destruct (IH Hrest) as (IHnd & IHsub & IHpar).
      rewrite clickAll_snoc. split; [apply NoDup_handleTokenClick, IHnd|]. split.
      + apply Forall_forall. intros x Hx. apply elem_of_handleTokenClick in Hx.
        destruct Hx as [[-> _] | [_ Hx]]; [exact Htin|].
        rewrite Forall_forall in IHsub. apply IHsub, Hx.
      + intros x. rewrite elem_of_handleTokenClick, count_occ_snoc.
        destruct (String.string_dec t x) as [-> | Hne].
        * rewrite Nat.add_1_r, Nat.even_succ, <- Nat.negb_even.
          specialize (IHpar x).
          destruct (Nat.even (count_occ String.string_dec rest x)); simpl;
            destruct (decide (x ∈ collected (clickAll rest ms)));
            destruct (decide (x ∈ collected ms)); split; intros; try tauto;
            try (exfalso; intuition congruence); intuition congruence.
        * rewrite Nat.add_0_r, <- IHpar. split.
          -- intros [[-> _] | [_ Hx]]; [contradiction Hne; reflexivity | exact Hx].
          -- intros Hx. right. split; [intros ->; contradiction Hne; reflexivity | exact Hx]. }
  destruct H as (H1 & H2 & H3). split; [exact H1|]. split; [exact H2|]. split; [|exact H3].
  change 6 with (length availableTokens).
  apply submseteq_length, NoDup_submseteq; [exact H1|].
  rewrite Forall_forall in H2. exact H2.
Qed.

Lemma clicks_toggle_by_parity_witness :
  collected (clickAll ["no-shadow"; "salt-reaction"; "no-shadow"; "no-shadow"] deductionDefault)
    = ["salt-reaction"; "no-shadow"] /\
  length (collected (clickAll availableTokens deductionDefault)) <= 6.
Proof.
  split; [reflexivity|].
  apply (clicks_toggle_by_parity availableTokens deductionDefault).
  - constructor.
  - constructor.
  - apply Forall_forall. intros x Hx. exact Hx.
Defined.

End TokenFacts.

Section HintFacts.
Import Js.
Import Engine.
Import Inventory.
Import Panel.

Context {strings : StringMethods}.

Lemma handle_hintState riddle h e w : hintState h w -> hintState h (handle riddle e w).
Proof.
  unfold hintState. intros [Hcount Htimers]. destruct e as [input|]; simpl.
  - unfold handleSubmitAnswer. simpl.
    destruct (String.eqb _ _); simpl; [split; assumption|].
    destruct (showHint w) eqn:Hshow; simpl; rewrite ?Hshow; [split; assumption|].
    split; [exact Hcount|].
    apply Forall_app. split; [exact Htimers|]. constructor; [exact Hcount | constructor].
  - unfold fireHintTimeout. destruct (hintTimers w) as [|seen rest] eqn:E; simpl.
    + rewrite E. split; assumption.
    + inversion Htimers as [|? ? Hseen Hrest]; subst. simpl.
      split; [|exact Hrest].
      unfold merge. simpl.
      destruct (hintsRevealed (mechanics w)); reflexivity.
Qed.

(** X21. Between two changes of level the riddle panel counts at most one
    hint, however many wrong answers are submitted and whenever the timeouts
    fire: starting with the hint hidden, no timeout pending and a count of
    [h], the count is [h] as long as the hint is hidden and [h + 1] once it
    is shown. *)
Theorem hint_is_counted_once riddle events h w :
  showHint w = false ->
  hintTimers w = [] ->
  hintsRevealed (mechanics w) = Some (Int h) ->
  let w' := handleAll riddle events w in
  hintsRevealed (mechanics w') = Some (Int (if showHint w' then h + 1 else h)).
Proof.
  intros Hhidden Htimers Hcount w'.
  assert (H : hintState h w').
  { unfold w', handleAll. clear w'.
    assert (H0 : hintState h w).
    { unfold hintState. rewrite Hhidden, Htimers. split; [exact Hcount | constructor]. }
    clear Hhidden Htimers Hcount. revert w H0.
    induction events as [|e rest IH]; intros w H0; simpl; [exact H0|].
    apply IH, handle_hintState, H0. }
  exact (proj1 H).
Qed.

End HintFacts.

Section HintFactsOnAscii.
Import Js.
Import Engine.
Import Inventory.
Import Panel.

#[local] Existing Instance asciiStrings.

Lemma hint_is_counted_once_witness :
  let riddle := {| riddle := "I have cities but no houses"; hint := "You hold me";
                   answerKey := "map" |} in
  let w := handleAll riddle
             [Answer "globe"; Answer "atlas"; HintTimeout; HintTimeout; Answer "chart"]
             (initialView riddleDefault) in
  showHint w = true /\ hintsRevealed (mechanics w) = Some (Int 1).
Proof.
  intros riddle w. split; [reflexivity|].
  exact (hint_is_counted_once riddle
           [Answer "globe"; Answer "atlas"; HintTimeout; HintTimeout; Answer "chart"]
           0%Z (initialView riddleDefault) eq_refl eq_refl eq_refl).
Defined.

End HintFactsOnAscii.

Section RiddleFormFacts.
Import Js.
Import Engine.
Import GameplayScreen.
Import Screen.

Context {strings : StringMethods}.

Lemma handleAll_snoc levelData events e w :
  handleAll levelData (events ++ [e])%list w = handle levelData e (handleAll levelData events w).
Proof. unfold handleAll. rewrite fold_left_app. reflexivity. Qed.

Lemma misses_snoc levelData events e :
  misses levelData (events ++ [e])%list =
  misses levelData events + (if isWrongAnswer levelData e then 1 else 0).
Proof.
  unfold misses. rewrite List.filter_app, length_app. simpl.
  destruct (isWrongAnswer levelData e); reflexivity.
Qed.

Lemma existsb_snoc levelData events e :
  existsb (isRightAnswer levelData) (events ++ [e])%list =
  existsb (isRightAnswer levelData) events || isRightAnswer levelData e.
Proof. rewrite existsb_app. simpl. rewrite orb_false_r. reflexivity. Qed.

Lemma handleRiddleSubmit_right levelData input w :
  isRight levelData input = true ->
  let w' := handleRiddleSubmit levelData (setRiddleAnswer input w) in
  riddleSolved w' = true /\ riddleAttempts w' = riddleAttempts w /\ pending w' = pending w.
Proof.
  unfold isRight, handleRiddleSubmit. simpl. intros ->. repeat split.
Qed.

Lemma handleRiddleSubmit_wrong levelData input w :
  isRight levelData input = false ->
  let w' := handleRiddleSubmit levelData (setRiddleAnswer input w) in
  riddleSolved w' = riddleSolved w /\ riddleAttempts w' = riddleAttempts w + 1 /\
  pending w' =
    (pending w ++ [if (riddleAttempts w =? 0)%nat then RevealHint else UnlockChoices])%list.
Proof.
  unfold isRight, handleRiddleSubmit. simpl. intros ->.
  rewrite !Nat.add_1_r. destruct (riddleAttempts w) as [|n]; simpl; repeat split.
Qed.

Lemma fire_cases w :
  riddleAttempts (fire w) = riddleAttempts w /\
  (riddleSolved w = true -> riddleSolved (fire w) = true) /\
  (riddleSolved (fire w) = true -> riddleSolved w = true \/ In UnlockChoices (pending w)) /\
  (In UnlockChoices (pending w) ->
     riddleSolved (fire w) = true \/ In UnlockChoices (pending (fire w))) /\
  (In UnlockChoices (pending (fire w)) -> In UnlockChoices (pending w)).
Proof.
  unfold fire. destruct (pending w) as [|[|] rest] eqn:E; simpl; rewrite ?E.
  - repeat split; tauto.
  - repeat split; try tauto.
    + intros [H | H]; [discriminate | right; exact H].
  - repeat split; try tauto.
Qed.

Lemma handle_formState levelData events e w :
  formState levelData events w ->
  formState levelData (events ++ [e])%list (handle levelData e w).
Proof.
  unfold formState. intros (Hn & Ha & Hb & Hc & Hd).
  rewrite misses_snoc, existsb_snoc. destruct e as [input|]; simpl.
  - destruct (isRight levelData input) eqn:R; simpl.
    + destruct (handleRiddleSubmit_right levelData input w R) as (S & A & P).
      rewrite S, A, P, Nat.add_0_r, orb_true_r. repeat split; try tauto.
    + destruct (handleRiddleSubmit_wrong levelData input w R) as (S & A & P).
      rewrite S, A, P, orb_false_r. rewrite Hn.
      split; [reflexivity|]. split; [intros H; destruct (Ha H); [left; assumption | right; lia]|].
      split; [exact Hb|]. split.
      * intros H2. destruct (riddleSolved w) eqn:Hs; [left; reflexivity|]. right.
        apply in_or_app. destruct (misses levelData events) as [|[|m]] eqn:Em.
        -- lia.
        -- right. simpl. left. reflexivity.
        -- left. destruct (Hc ltac:(lia)) as [H | H]; [discriminate | exact H].
      * intros H. apply in_app_or in H. destruct H as [H | H].
        -- specialize (Hd H). lia.
        -- destruct (misses levelData events) as [|m]; simpl in H;
             [destruct H as [H | H]; [discriminate | contradiction] | lia].
  - destruct (fire_cases w) as (A & S1 & S2 & P1 & P2).
    rewrite A, Nat.add_0_r, orb_false_r.
    split; [exact Hn|]. split; [intros H; destruct (S2 H) as [H' | H']; [tauto | right; tauto]|].
    split; [intros H; apply S1, Hb, H|]. split.
    + intros H2. destruct (Hc H2) as [H | H]; [left; apply S1, H | apply P1, H].
    + intros H. apply Hd, P2, H.
Qed.

Lemma handle_mechanics levelData e w : mechanics (handle levelData e w) = mechanics w.
Proof.
  destruct e as [input|]; simpl.
  - unfold handleRiddleSubmit. cbv zeta.
    repeat match goal with |- context [if ?c then _ else _] => destruct c end; reflexivity.
  - unfold fire. destruct (pending w) as [|[|] ?]; reflexivity.
Qed.

(** X22. The riddle form of the level screen, from its first render and
    through any answers and timeouts: it counts every wrong answer; the
    choices are unlocked by a right answer at once and for good, and
    otherwise by the timeout that the second wrong answer (and each one
    after) schedules; with fewer than two wrong answers and no right one
    they stay locked. *)
Theorem riddle_form_unlocks levelData ms events :
  let w := handleAll levelData events (initialView ms) in
  riddleAttempts w = misses levelData events /\
  (existsb (isRightAnswer levelData) events = true -> riddleSolved w = true) /\
  (riddleSolved w = true ->
     existsb (isRightAnswer levelData) events = true \/ 2 <= misses levelData events) /\
  (2 <= misses levelData events -> pending w = [] -> riddleSolved w = true) /\
  mechanics w = ms.
Proof.
  intros w.
  assert (H : formState levelData events w /\ mechanics w = ms).
  { unfold w. clear w. induction events as [|e rest IH] using rev_ind.
    - simpl. unfold formState, misses. simpl. repeat split; try discriminate; try lia.
    - destruct IH as [IHf IHm]. rewrite handleAll_snoc.
      split; [apply handle_formState, IHf|].
      rewrite handle_mechanics. exact IHm. }
  destruct H as [(Hn & Ha & Hb & Hc & _) Hm].
  split; [exact Hn|]. split; [exact Hb|]. split; [exact Ha|]. split; [|exact Hm].
  intros H2 Hp. destruct (Hc H2) as [H | H]; [exact H|]. rewrite Hp in H. inversion H.
Qed.

End RiddleFormFacts.

Section RiddleFormFactsOnAscii.
Import Js.
Import Engine.
Import GameplayScreen.
Import Screen.

#[local] Existing Instance asciiStrings.

Lemma riddle_form_unlocks_witness :
  let levelData :=
    {| sceneText := ""; choices := [];
       riddleData := Some {| riddle := "The more you take, the more you leave behind.";
                             hint := "Every journey makes them.";
                             answerKey := "footsteps" |} |} in
  riddleSolved (handleAll levelData [Answer "shadows"; TimeoutFires] (initialView riddleDefault))
    = false /\
  riddleSolved (handleAll levelData [Answer "shadows"; Answer "time"; TimeoutFires; TimeoutFires]
                  (initialView riddleDefault)) = true /\
  riddleSolved (handleAll levelData [Answer " Footsteps "] (initialView riddleDefault)) = true.
Proof.
  intros levelData. split; [reflexivity|]. split.
  - destruct (riddle_form_unlocks levelData riddleDefault
                [Answer "shadows"; Answer "time"; TimeoutFires; TimeoutFires])
      as (_ & _ & _ & Hunlock & _).
    apply Hunlock; [vm_compute; lia | reflexivity].
  - destruct (riddle_form_unlocks levelData riddleDefault [Answer " Footsteps "])
      as (_ & Hright & _).
    apply Hright. reflexivity.
Defined.

End RiddleFormFactsOnAscii.

Section ChoiceButtonFacts.
Import Js.
Import Engine.
Import GameplayScreen.
Import Screen.





End ChoiceButtonFacts.
